(** * Fee estimation for an EIP-1559 network: the two estimator scripts

    [gas_model/predict_fees.py] (four tiers: Saver, Standard, Recommended,
    Urgent) and [gas_model/optimized_predict_fees.py] (one estimate) turn an
    [eth_feeHistory] answer into fee recommendations.  Both compute with
    Python integers (unbounded) and Python floats (IEEE-754 binary64), and
    nearly every number they emit goes through [int(...)] of a float.  The
    floats are modelled with the executable binary64 specification of the
    standard library ([SpecFloat]), so that rounding is the machine's
    rounding.

    The first models start from the decoded fee history.  After them come
    the decoding of the hexadecimal strings of the answer, the arithmetic
    of what the scripts print, [main], and the lookup of the RPC endpoint
    in the environment and in the [.env] file.  The RPC exchange itself
    and the layout of the printed text are left out. *)

From Stdlib Require Import Strings.String Strings.Ascii.
From Stdlib Require Import ZArith List Bool Lia Sorting.Sorted Sorting.Permutation.
From Stdlib Require Import Floats.SpecFloat.
Import ListNotations.
Open Scope Z_scope.

(** ** The part of the Python runtime the scripts rely on *)
Module Py.

(** The exceptions the modelled code can raise. *)
Inductive exn : Type :=
| IndexError
| StatisticsError
| ZeroDivisionError
| OverflowError
| ValueError.

(** A computation either raises or returns. *)
Inductive result (A : Type) : Type :=
| Raise (e : exn)
| Ret (a : A).
Arguments Raise {A} e.
Arguments Ret {A} a.

Definition bind {A B : Type} (c : result A) (k : A -> result B) : result B :=
  match c with
  | Raise e => Raise e
  | Ret a => k a
  end.

Notation "x <- c ;; k" := (bind c (fun x => k))
  (at level 61, c at next level, right associativity).
Notation "' p <- c ;; k" := (bind c (fun x => match x with p => k end))
  (at level 61, p pattern, c at next level, right associativity).

Fixpoint mapM {A B : Type} (f : A -> result B) (l : list A) : result (list B) :=
  match l with
  | [] => Ret []
  | a :: l' => b <- f a ;; bs <- mapM f l' ;; Ret (b :: bs)
  end.

(** *** Floats: IEEE-754 binary64 *)

Definition prec : Z := 53.
Definition emax : Z := 1024.

Definition float : Type := spec_float.

Definition fmul : float -> float -> float := SFmul prec emax.
Definition fadd : float -> float -> float := SFadd prec emax.
Definition fdiv : float -> float -> float := SFdiv prec emax.
Definition flt : float -> float -> bool := SFltb.

(** The binary64 nearest to the integer [n] (ties to even); an infinity
    when [n] is out of range. *)
Definition float_of_Z (n : Z) : float := binary_normalize prec emax n 0 false.

(** A decimal literal [num / den] of the source text, with [num] and [den]
    both exact in binary64: the correctly rounded quotient is the binary64
    nearest to the decimal, which is what the Python parser produces. *)
Definition literal (num den : Z) : float := fdiv (float_of_Z num) (float_of_Z den).

(** [float(n)] for an [int]: raises when the value does not fit. *)
Definition float_of_int (n : Z) : result float :=
  match float_of_Z n with
  | S754_infinity _ => Raise OverflowError
  | f => Ret f
  end.

(** [int(f)] for a [float]: truncation toward zero. *)
Definition int_of_float (f : float) : result Z :=
  match f with
  | S754_zero _ => Ret 0
  | S754_infinity _ => Raise OverflowError
  | S754_nan => Raise ValueError
  | S754_finite s m e =>
      let a := if 0 <=? e then Zpos m * 2 ^ e else Zpos m / 2 ^ (- e) in
      Ret (if s then - a else a)
  end.

(** [n * f], [f + n] and [f / n] with [n] an [int] and [f] a [float]: the
    [int] is converted first. *)
Definition int_mul_float (n : Z) (f : float) : result float :=
  x <- float_of_int n ;; Ret (fmul x f).

Definition float_add_int (f : float) (n : Z) : result float :=
  y <- float_of_int n ;; Ret (fadd f y).

Definition float_div_int (f : float) (n : Z) : result float :=
  y <- float_of_int n ;;
  match y with
  | S754_zero _ => Raise ZeroDivisionError
  | _ => Ret (fdiv f y)
  end.

(** [n / 2] for an [int] [n]: true division of two [int]s returns the
    correctly rounded quotient, and [n / 2] is the dyadic number
    [n * 2^-1]. *)
Definition int_truediv_2 (n : Z) : result float :=
  match binary_normalize prec emax n (-1) false with
  | S754_infinity _ => Raise OverflowError
  | f => Ret f
  end.

(** [math.pow(1.125, y)] for an [int] [y].  [math.pow] converts [y] to a
    float and calls the platform's [pow]; it raises [OverflowError] when
    the result overflows.  The model returns the correctly rounded power
    [9^y / 8^y]: this is what the platform returns whenever the power is a
    binary64 number, which is the case for [0 <= y <= 16]
    ([9^16 < 2^53]). *)
Definition math_pow_1_125 (y : Z) : result float :=
  _ <- float_of_int y ;;
  let r := match y with
           | Z0 => float_of_Z 1
           | Zpos p => binary_normalize prec emax (9 ^ y) (-3 * y) false
           | Zneg p => fdiv (S754_finite false (8 ^ p) 0) (S754_finite false (9 ^ p) 0)
           end in
  match r with
  | S754_infinity _ => Raise OverflowError
  | _ => Ret r
  end.

(** *** Lists *)

(** [l[i]], negative indices counting from the end. *)
Definition getitem {A : Type} (l : list A) (i : Z) : result A :=
  let n := Z.of_nat (length l) in
  let j := if i <? 0 then i + n else i in
  if (j <? 0) || (n <=? j) then Raise IndexError
  else match nth_error l (Z.to_nat j) with
       | Some x => Ret x
       | None => Raise IndexError
       end.

(** [l[lo:hi]]: both bounds are clamped to the list. *)
Definition slice {A : Type} (l : list A) (lo hi : Z) : list A :=
  let n := Z.of_nat (length l) in
  let clamp i := if i <? 0 then Z.max (i + n) 0 else Z.min i n in
  let a := clamp lo in
  let b := clamp hi in
  firstn (Z.to_nat (b - a)) (skipn (Z.to_nat a) l).

(** [sorted(data)] on integers: the sorted list does not depend on the
    sorting algorithm, insertion sort computes it. *)
Fixpoint insert (x : Z) (l : list Z) : list Z :=
  match l with
  | [] => [x]
  | y :: l' => if x <=? y then x :: l else y :: insert x l'
  end.

Definition sorted (data : list Z) : list Z := fold_right insert [] data.

(** [sum(l)] on floats: the accumulator starts at the [int] 0 and the
    elements are added from left to right, each addition rounded (CPython
    up to 3.11; later versions compensate the rounding errors, which can
    change the last bit of the sum of inexact terms). *)
Definition sum (l : list float) : float := fold_left fadd l (S754_zero false).

(** *** [statistics.median] *)

(** A Python number: the median of integers is an [int] for an odd count
    and a [float] for an even one. *)
Inductive number : Type :=
| PyInt (n : Z)
| PyFloat (f : float).

Definition statistics_median (data : list Z) : result number :=
  let data := sorted data in
  let n := Z.of_nat (length data) in
  if n =? 0 then Raise StatisticsError
  else if n mod 2 =? 1 then
    x <- getitem data (n / 2) ;; Ret (PyInt x)
  else
    let i := n / 2 in
    a <- getitem data (i - 1) ;;
    b <- getitem data i ;;
    q <- int_truediv_2 (a + b) ;;
    Ret (PyFloat q).

(** [int(x)] *)
Definition int (x : number) : result Z :=
  match x with
  | PyInt n => Ret n
  | PyFloat f => int_of_float f
  end.

End Py.

Import Py.

(** ** The decoded [eth_feeHistory] answer *)
Record FeeHistory : Type := {
  baseFeePerGas : list Z;        (* one per block, plus the next block's *)
  reward : list (list Z);        (* per block, one tip per percentile *)
  gasUsedRatio : list float      (* per block *)
}.

(** [sum(gas_used_ratios) / len(gas_used_ratios)]: with an empty list
    this is the [int] division [0 / 0]. *)
Definition avg_congestion (gas_used_ratios : list float) : result float :=
  match gas_used_ratios with
  | [] => Raise ZeroDivisionError
  | _ => float_div_int (sum gas_used_ratios) (Z.of_nat (length gas_used_ratios))
  end.

(** [int(n * f)] with [n] an [int] and [f] a [float]; both scripts scale
    integer fees this way. *)
Definition int_times (n : Z) (f : float) : result Z :=
  p <- int_mul_float n f ;; int_of_float p.

(** [int(statistics.median(tips))]: the smoothed tip of one percentile
    column, in both scripts. *)
Definition median_tip (tips : list Z) : result Z :=
  m <- statistics_median tips ;; int m.

(** ** predict_fees.py: four tiers *)
Module PredictFees.

Definition calculate_max_base_fee (current_base blocks_ahead : Z) : result Z :=
  multiplier <- math_pow_1_125 blocks_ahead ;;
  p <- int_mul_float current_base multiplier ;;
  int_of_float p.

(** "Enforce minimum improvement": the three conditional assignments, in
    the order of the script; each test reads the tips as updated by the
    previous line. *)
Definition enforce_minimum_improvement (median_tip_30 median_tip_60 median_tip_75 median_tip_90 : Z)
  : result (Z * Z * Z * Z) :=
  median_tip_60 <-
    (if median_tip_60 <=? median_tip_30
     then (if 0 <? median_tip_30 then int_times median_tip_30 (literal 12 10)
           else Ret 1000000000)
     else Ret median_tip_60) ;;
  median_tip_75 <-
    (if median_tip_75 <=? median_tip_60
     then int_times median_tip_60 (literal 115 100)
     else Ret median_tip_75) ;;
  median_tip_90 <-
    (if median_tip_90 <=? median_tip_75
     then (if 0 <? median_tip_75 then int_times median_tip_75 (literal 12 10)
           else Ret 1500000000)
     else Ret median_tip_90) ;;
  Ret (median_tip_30, median_tip_60, median_tip_75, median_tip_90).

Definition congestion_multiplier (avg_congestion : float) : float :=
  if flt avg_congestion (literal 45 100) then literal 95 100
  else if flt (literal 80 100) avg_congestion then literal 125 100
  else literal 10 10.

(** What the script prints: per tier, the priority fee and the fee cap. *)
Record Tiers : Type := {
  median_tip_30 : Z;
  median_tip_60 : Z;
  median_tip_75 : Z;
  median_tip_90 : Z;
  max_fee_saver : Z;
  max_fee_std : Z;
  max_fee_rec : Z;
  max_fee_urgent : Z
}.

(** The script from the decoded answer [d] to the table, statement by
    statement. *)
Definition predict_fees (d : FeeHistory) : result Tiers :=
  let base_fees := baseFeePerGas d in
  next_block_base_fee <- getitem base_fees (-1) ;;
  let rewards := reward d in
  tips_30 <- mapM (fun r => getitem r 0) rewards ;;
  tips_60 <- mapM (fun r => getitem r 1) rewards ;;
  tips_75 <- mapM (fun r => getitem r 2) rewards ;;
  tips_90 <- mapM (fun r => getitem r 3) rewards ;;
  median_tip_30 <- median_tip tips_30 ;;
  median_tip_60 <- median_tip tips_60 ;;
  median_tip_75 <- median_tip tips_75 ;;
  median_tip_90 <- median_tip tips_90 ;;
  '(median_tip_30, median_tip_60, median_tip_75, median_tip_90) <-
    enforce_minimum_improvement median_tip_30 median_tip_60 median_tip_75 median_tip_90 ;;
  avg_congestion <- avg_congestion (gasUsedRatio d) ;;
  let congestion_multiplier := congestion_multiplier avg_congestion in
  median_tip_30 <- int_times median_tip_30 congestion_multiplier ;;
  median_tip_60 <- int_times median_tip_60 congestion_multiplier ;;
  median_tip_75 <- int_times median_tip_75 congestion_multiplier ;;
  median_tip_90 <- int_times median_tip_90 congestion_multiplier ;;
  max_base_saver <- calculate_max_base_fee next_block_base_fee 2 ;;
  let max_fee_saver := max_base_saver + median_tip_30 in
  max_base_std <- calculate_max_base_fee next_block_base_fee 4 ;;
  let max_fee_std := max_base_std + median_tip_60 in
  max_base_rec <- calculate_max_base_fee next_block_base_fee 6 ;;
  let max_fee_rec := max_base_rec + median_tip_75 in
  max_base_urgent <- calculate_max_base_fee next_block_base_fee 10 ;;
  let max_fee_urgent := max_base_urgent + median_tip_90 in
  Ret {| median_tip_30 := median_tip_30; median_tip_60 := median_tip_60;
         median_tip_75 := median_tip_75; median_tip_90 := median_tip_90;
         max_fee_saver := max_fee_saver; max_fee_std := max_fee_std;
         max_fee_rec := max_fee_rec; max_fee_urgent := max_fee_urgent |}.

End PredictFees.

(** ** optimized_predict_fees.py: one estimate *)
Module OptimizedPredictFees.

(** The dictionary [calculate_fees] returns. *)
Record Estimate : Type := {
  base_fee_next : Z;
  priority_fee_suggested : Z;
  max_fee_per_gas : Z;
  congestion : float
}.

(** Step 3 of [calculate_fees]: the priority fee is raised above 80%
    utilization, lowered below 30%, and otherwise left as it is. *)
Definition congestion_adjust (avg_congestion : float) (suggested_priority_fee : Z) : result Z :=
  if flt (literal 8 10) avg_congestion
  then int_times suggested_priority_fee (literal 12 10)
  else if flt avg_congestion (literal 3 10)
  then int_times suggested_priority_fee (literal 9 10)
  else Ret suggested_priority_fee.

Definition calculate_fees (history : FeeHistory) : result Estimate :=
  let base_fees := baseFeePerGas history in
  next_block_base_fee <- getitem base_fees (-1) ;;
  let recent_base_fees := slice base_fees (-6) (-1) in
  newest <- getitem recent_base_fees (-1) ;;
  oldest <- getitem recent_base_fees 0 ;;
  let is_increasing := oldest <? newest in
  recent_priority_fees <- mapM (fun r => getitem r 1) (reward history) ;;
  suggested_priority_fee <- median_tip recent_priority_fees ;;
  avg_congestion <- avg_congestion (gasUsedRatio history) ;;
  suggested_priority_fee <- congestion_adjust avg_congestion suggested_priority_fee ;;
  let base_fee_multiplier :=
    if negb is_increasing && flt avg_congestion (literal 5 10)
    then literal 15 10 else literal 20 10 in
  p <- int_mul_float next_block_base_fee base_fee_multiplier ;;
  s <- float_add_int p suggested_priority_fee ;;
  max_fee_per_gas <- int_of_float s ;;
  Ret {| base_fee_next := next_block_base_fee;
         priority_fee_suggested := suggested_priority_fee;
         max_fee_per_gas := max_fee_per_gas;
         congestion := avg_congestion |}.

End OptimizedPredictFees.

Import PredictFees.
Import OptimizedPredictFees.

(** * Specification-level definitions

    Rounding on integers, used to state in [Z] what the float arithmetic
    of the scripts computes; the median and the sample invariants as the
    specification words them; and the fee histories the examples run
    on. *)

(** Nearest integer to [m / 2^d], ties to even ([1 <= d]). *)
Definition rne (m d : Z) : Z :=
  let q := m / 2 ^ d in
  let rem := m mod 2 ^ d in
  let half := 2 ^ (d - 1) in
  if rem <? half then q
  else if half <? rem then q + 1
  else if Z.even q then q else q + 1.

(** [m] rounded to 53 significant bits. *)
Definition RN (m : Z) : Z :=
  let d := Z.log2 m + 1 - 53 in
  if d <=? 0 then m else rne m d * 2 ^ d.

(** The dyadic numbers [m * 2^e] and [M * 2^E] are equal. *)
Definition deq (m e M E : Z) : Prop :=
  m * 2 ^ (e - Z.min e E) = M * 2 ^ (E - Z.min e E).

(** Integer part of the dyadic number [m * 2^e], [0 <= m]. *)
Definition dfloor (m e : Z) : Z :=
  if 0 <=? e then m * 2 ^ e else m / 2 ^ (- e).

(** The record after [k + 1] one-bit shifts of [m]. *)
Definition shifted (m : Z) (k : nat) : shr_record :=
  Build_shr_record (m / 2 ^ (Z.of_nat k + 1))
                   (Z.odd (m / 2 ^ Z.of_nat k))
                   (negb (m mod 2 ^ Z.of_nat k =? 0)).

(** Mantissa and exponent of [m * 2^e] after rounding to 53 bits. *)
Definition round_result (m e : Z) : Z * Z :=
  let d := Z.log2 m + 1 - 53 in
  if d <=? 0 then (m, e)
  else let q := rne m d in
       if q =? 2 ^ 53 then (2 ^ 52, e + d + 1) else (q, e + d).

(** The value [int(n * c)] takes when nothing overflows, for a positive
    float [c] of mantissa [mc] and exponent [ec]. *)
Definition times_val (n mc ec : Z) : Z := dfloor (RN (RN n * mc)) ec.

(** The smoother as the specification words it: the standard median of
    the column (middle element of the sorted column, or mean of the two
    middle ones), truncated to an integer. *)
Definition median_floor (col : list Z) : Z :=
  let s := sorted col in
  let n := Z.of_nat (length col) in
  if n mod 2 =? 1 then nth (Z.to_nat (n / 2)) s 0
  else (nth (Z.to_nat (n / 2 - 1)) s 0 + nth (Z.to_nat (n / 2)) s 0) / 2.

(** A utilization ratio: a binary64 number between 0 and 1. *)
Definition valid_ratio (f : float) : Prop :=
  valid_binary prec emax f = true /\
  SFleb (S754_zero false) f = true /\ SFleb f (float_of_Z 1) = true.

(** The invariants the specification puts on a fee-history sample asked
    with [percentiles] percentiles: one more base fee than blocks, one
    reward tuple and one ratio per block, every tuple of the length of
    the percentile list, unsigned values. *)
Record valid_sample (percentiles : nat) (d : FeeHistory) : Prop := {
  valid_blocks : (1 <= length (reward d))%nat;
  valid_base_fees : length (baseFeePerGas d) = S (length (reward d));
  valid_ratios : length (gasUsedRatio d) = length (reward d);
  valid_tuples : Forall (fun r => length r = percentiles) (reward d);
  valid_base_unsigned : Forall (fun x => 0 <= x) (baseFeePerGas d);
  valid_reward_unsigned : Forall (Forall (fun x => 0 <= x)) (reward d);
  valid_ratio_range : Forall valid_ratio (gasUsedRatio d)
}.

(** Concrete fee histories. *)

(** Ten blocks, base fees rising from 100 to 200, utilization 0.5. *)
Definition sample_rising : FeeHistory :=
  {| baseFeePerGas := [100; 110; 120; 130; 140; 150; 160; 170; 180; 190; 200];
     reward := repeat [1; 2; 3; 4] 10;
     gasUsedRatio := repeat (literal 5 10) 10 |}.

(** The same blocks asked with three percentiles. *)
Definition sample_rising_3 : FeeHistory :=
  {| baseFeePerGas := [100; 110; 120; 130; 140; 150; 160; 170; 180; 190; 200];
     reward := repeat [1; 2; 3] 10;
     gasUsedRatio := repeat (literal 5 10) 10 |}.

(** One block whose Standard tip is 1% above the Saver tip. *)
Definition sample_close_tips : FeeHistory :=
  {| baseFeePerGas := [7; 7];
     reward := [[100; 101; 200; 300]];
     gasUsedRatio := [literal 5 10] |}.

(** Two blocks, the second with five percentile values instead of four. *)
Definition sample_ragged : FeeHistory :=
  {| baseFeePerGas := [100; 100; 100];
     reward := [[1; 2; 3; 4]; [1; 2; 3; 4; 5]];
     gasUsedRatio := [literal 5 10; literal 5 10] |}.

(** One block with a base fee of about one gwei. *)
Definition sample_gwei : FeeHistory :=
  {| baseFeePerGas := [1001740113; 1001740113];
     reward := [[1; 2; 3; 4]];
     gasUsedRatio := [literal 5 10] |}.

(** One block with a base fee of [2^52]. *)
Definition sample_huge : FeeHistory :=
  {| baseFeePerGas := [2 ^ 52; 2 ^ 52];
     reward := [[0; 1; 2]];
     gasUsedRatio := [literal 5 10] |}.

(** What the scripts return on [sample_rising] and [sample_rising_3]. *)
Definition rising_tiers : Tiers :=
  {| median_tip_30 := 1; median_tip_60 := 2; median_tip_75 := 3; median_tip_90 := 4;
     max_fee_saver := 254; max_fee_std := 322; max_fee_rec := 408; max_fee_urgent := 653 |}.

Definition rising_estimate : Estimate :=
  {| base_fee_next := 200; priority_fee_suggested := 2; max_fee_per_gas := 402;
     congestion := literal 5 10 |}.

(** * Around the decoded model

    What the scripts do before and after the computation on the decoded
    fee history: the hexadecimal quantities of the answer are decoded
    with [int(x, 16)], numbers are converted to floats to be printed, and
    the RPC endpoint is looked up in the environment or in a [.env]
    file. *)

(** ** Strings and the hexadecimal quantities of the RPC answer

    A Python [str] is modelled by a [string] whose characters are the
    code points below 256. *)
Module PyStr.

Definition code (c : ascii) : Z := Z.of_N (N_of_ascii c).

(** The characters [int] skips around a number: tab, line feed, vertical
    tab, form feed, carriage return and space, and the two other spaces
    below 256 (next line, no-break space), which [int] replaces by a
    space before it parses. *)
Definition int_space (c : ascii) : bool :=
  let n := code c in
  ((9 <=? n) && (n <=? 13)) || (n =? 32) || (n =? 133) || (n =? 160).

(** The value of a hexadecimal digit. *)
Definition digit_value (c : ascii) : option Z :=
  let n := code c in
  if (48 <=? n) && (n <=? 57) then Some (n - 48)
  else if (97 <=? n) && (n <=? 102) then Some (n - 87)
  else if (65 <=? n) && (n <=? 70) then Some (n - 55)
  else None.

Fixpoint skip_spaces (s : string) : string :=
  match s with
  | String c s' => if int_space c then skip_spaces s' else s
  | EmptyString => s
  end.

(** The digits of a number, with single underscores between them:
    the value read so far, the number of digits, and what follows the
    number; [None] for a doubled or a trailing underscore. *)
Fixpoint scan_digits (s : string) (prev_underscore : bool) (digits : nat) (acc : Z)
  : option (Z * nat * string) :=
  match s with
  | String c s' =>
      if Ascii.eqb c "_" then
        if prev_underscore then None else scan_digits s' true digits acc
      else match digit_value c with
           | Some d => scan_digits s' false (S digits) (16 * acc + d)
           | None => if prev_underscore then None else Some (acc, digits, s)
           end
  | EmptyString => if prev_underscore then None else Some (acc, digits, s)
  end.

(** [int(x, 16)] for a [str] [x]: spaces, an optional sign, an optional
    [0x] or [0X] which one underscore may follow, at least one digit,
    spaces. *)
Definition int_16 (x : string) : result Z :=
  let s := skip_spaces x in
  let '(negative, s) :=
    match s with
    | String "+" s' => (false, s')
    | String "-" s' => (true, s')
    | _ => (false, s)
    end in
  let s :=
    match s with
    | String "0" (String c s') =>
        if Ascii.eqb c "x" || Ascii.eqb c "X"
        then match s' with
             | String "_" s'' => s''
             | _ => s'
             end
        else s
    | _ => s
    end in
  match s with
  | String "_" _ => Raise ValueError
  | _ =>
      match scan_digits s false 0 0 with
      | None => Raise ValueError
      | Some (v, digits, rest) =>
          match digits, skip_spaces rest with
          | S _, EmptyString => Ret (if negative then - v else v)
          | _, _ => Raise ValueError
          end
      end
  end.

(** The hexadecimal digit of [0 <= d < 16], in lower case. *)
Definition hex_digit (d : Z) : ascii :=
  ascii_of_N (Z.to_N (if d <? 10 then 48 + d else 87 + d)).

Fixpoint hex_digits (fuel : nat) (n : Z) (acc : string) : string :=
  match fuel with
  | O => acc
  | S fuel' =>
      let acc := String (hex_digit (n mod 16)) acc in
      if n / 16 =? 0 then acc else hex_digits fuel' (n / 16) acc
  end.

(** [hex(n)] for an [int] [n]. *)
Definition hex (n : Z) : string :=
  let digits := hex_digits (S (Z.to_nat (Z.log2 (Z.abs n)))) (Z.abs n) EmptyString in
  if n <? 0 then String "-" (String "0" (String "x" digits))
  else String "0" (String "x" digits).

End PyStr.

Import PyStr.

(** ** More of the Python runtime: divisions that convert an [int] *)
Module PyNum.

(** [n / f] with [n] an [int] and [f] a [float]. *)
Definition int_div_float (n : Z) (f : float) : result float :=
  x <- float_of_int n ;;
  match f with
  | S754_zero _ => Raise ZeroDivisionError
  | _ => Ret (fdiv x f)
  end.

(** [f * n] with [f] a [float] and [n] an [int]. *)
Definition float_mul_int (f : float) (n : Z) : result float :=
  y <- float_of_int n ;; Ret (fmul f y).

(** [a / b] with [a] and [b] both [int]: the correctly rounded
    quotient. *)
Definition int_truediv (a b : Z) : result float :=
  if b =? 0 then Raise ZeroDivisionError
  else match a with
       | Z0 => Ret (S754_zero (b <? 0))
       | _ =>
           match fdiv (S754_finite (a <? 0) (Z.to_pos (Z.abs a)) 0)
                      (S754_finite (b <? 0) (Z.to_pos (Z.abs b)) 0) with
           | S754_infinity _ => Raise OverflowError
           | q => Ret q
           end
       end.

End PyNum.

Import PyNum.

(** ** The [eth_feeHistory] answer as the scripts receive it: quantities
    are hexadecimal strings, utilization ratios are numbers. *)
Record FeeHistoryJson : Type := {
  json_baseFeePerGas : list string;
  json_reward : list (list string);
  json_gasUsedRatio : list float
}.

(** ** predict_fees.py, from the answer to the printed table *)

(** [fmt_gwei(wei)]: the number [wei / 1e9], which is then formatted
    with two decimals. *)
Definition fmt_gwei (wei : Z) : result float :=
  int_div_float wei (float_of_Z (10 ^ 9)).

(** [calculate_cost_usd(gas_price_wei, gas_limit, eth_price)]: the
    number [cost_eth * eth_price], which is then formatted with two
    decimals after a dollar sign. *)
Definition calculate_cost_usd (gas_price_wei gas_limit eth_price : Z) : result float :=
  cost_eth <- int_div_float (gas_price_wei * gas_limit) (float_of_Z (10 ^ 18)) ;;
  float_mul_int cost_eth eth_price.

(** One row of the table: the cap and the tip in gwei, and the cost of
    a transfer at the cap, with the default gas limit and price. *)
Definition print_row (max_fee tip : Z) : result unit :=
  _ <- fmt_gwei max_fee ;;
  _ <- fmt_gwei tip ;;
  _ <- calculate_cost_usd max_fee 21000 2500 ;;
  Ret tt.

(** The whole script on the answer [d].  The base fees are decoded, the
    last one is read and printed in gwei; then every entry of every
    reward tuple is decoded, and the script goes on as [predict_fees]
    on the decoded values; at the end the four rows are printed.  Of
    the printing the model keeps the arithmetic, which can raise. *)
Definition predict_fees_script (d : FeeHistoryJson) : result Tiers :=
  base_fees <- mapM int_16 (json_baseFeePerGas d) ;;
  next_block_base_fee <- getitem base_fees (-1) ;;
  _ <- int_div_float next_block_base_fee (float_of_Z (10 ^ 9)) ;;
  rewards <- mapM (mapM int_16) (json_reward d) ;;
  t <- predict_fees {| baseFeePerGas := base_fees; reward := rewards;
                       gasUsedRatio := json_gasUsedRatio d |} ;;
  _ <- print_row (max_fee_saver t) (median_tip_30 t) ;;
  _ <- print_row (max_fee_std t) (median_tip_60 t) ;;
  _ <- print_row (max_fee_rec t) (median_tip_75 t) ;;
  _ <- print_row (max_fee_urgent t) (median_tip_90 t) ;;
  Ret t.

(** ** optimized_predict_fees.py, from the answer to the recommendation *)

(** [calculate_fees(history)], statement by statement: of each reward
    tuple only the entry of index 1 is read and decoded. *)
Definition calculate_fees_json (history : FeeHistoryJson) : result Estimate :=
  base_fees <- mapM int_16 (json_baseFeePerGas history) ;;
  next_block_base_fee <- getitem base_fees (-1) ;;
  let recent_base_fees := slice base_fees (-6) (-1) in
  newest <- getitem recent_base_fees (-1) ;;
  oldest <- getitem recent_base_fees 0 ;;
  let is_increasing := oldest <? newest in
  recent_priority_fees <-
    mapM (fun r => x <- getitem r 1 ;; int_16 x) (json_reward history) ;;
  suggested_priority_fee <- median_tip recent_priority_fees ;;
  avg_congestion <- avg_congestion (json_gasUsedRatio history) ;;
  suggested_priority_fee <- congestion_adjust avg_congestion suggested_priority_fee ;;
  let base_fee_multiplier :=
    if negb is_increasing && flt avg_congestion (literal 5 10)
    then literal 15 10 else literal 20 10 in
  p <- int_mul_float next_block_base_fee base_fee_multiplier ;;
  s <- float_add_int p suggested_priority_fee ;;
  max_fee_per_gas <- int_of_float s ;;
  Ret {| base_fee_next := next_block_base_fee;
         priority_fee_suggested := suggested_priority_fee;
         max_fee_per_gas := max_fee_per_gas;
         congestion := avg_congestion |}.

(** [main()], given what [get_fee_history] returned: [None] after a
    failed exchange, else the answer.  It returns the estimate whose
    fees it recommends, or [None] when it recommends nothing.  Of the
    printing the model keeps the arithmetic, which can raise: the three
    fees in gwei, and the ratio of the cap to the base fee. *)
Definition main (history : option FeeHistoryJson) : result (option Estimate) :=
  match history with
  | None => Ret None
  | Some history =>
      estimates <- calculate_fees_json history ;;
      _ <- int_div_float (base_fee_next estimates) (float_of_Z (10 ^ 9)) ;;
      _ <- int_div_float (priority_fee_suggested estimates) (float_of_Z (10 ^ 9)) ;;
      _ <- int_div_float (max_fee_per_gas estimates) (float_of_Z (10 ^ 9)) ;;
      _ <- int_truediv (max_fee_per_gas estimates) (base_fee_next estimates) ;;
      Ret (Some estimates)
  end.

(** ** More of [str], and a [dict] with string keys *)
Module PyText.

(** The characters [str.strip()] removes, among the code points below
    256: tab to carriage return (9 to 13), the separators 28 to 31,
    space, next line (133) and no-break space (160). *)
Definition str_space (c : ascii) : bool :=
  let n := code c in
  ((9 <=? n) && (n <=? 13)) || ((28 <=? n) && (n <=? 32)) || (n =? 133) || (n =? 160).

Fixpoint lstrip (chars : ascii -> bool) (s : string) : string :=
  match s with
  | String c s' => if chars c then lstrip chars s' else s
  | EmptyString => s
  end.

Fixpoint rstrip (chars : ascii -> bool) (s : string) : string :=
  match s with
  | String c s' =>
      match rstrip chars s' with
      | EmptyString => if chars c then EmptyString else String c EmptyString
      | t => String c t
      end
  | EmptyString => s
  end.

(** [s.strip()] with [str_space], [s.strip(c)] with [Ascii.eqb c]. *)
Definition strip (chars : ascii -> bool) (s : string) : string :=
  rstrip chars (lstrip chars s).

(** [s.startswith(c)] for a one-character [c]. *)
Definition startswith (c : ascii) (s : string) : bool :=
  match s with
  | String c' _ => Ascii.eqb c' c
  | EmptyString => false
  end.

(** [s.split(sep, 1)] when [sep in s], and [None] when [sep] is not in
    [s]. *)
Fixpoint split_once (sep : ascii) (s : string) : option (string * string) :=
  match s with
  | String c s' =>
      if Ascii.eqb c sep then Some (EmptyString, s')
      else match split_once sep s' with
           | Some (a, b) => Some (String c a, b)
           | None => None
           end
  | EmptyString => None
  end.

(** A [dict] as the list of its assignments, the latest first. *)
Definition dict : Type := list (string * string).

Definition setitem (d : dict) (key value : string) : dict := (key, value) :: d.

Fixpoint get (d : dict) (key : string) : option string :=
  match d with
  | (k, v) :: d' => if String.eqb key k then Some v else get d' key
  | [] => None
  end.

(** [not x] for [x] a [str] or [None]. *)
Definition falsy (x : option string) : bool :=
  match x with
  | Some (String _ _) => false
  | _ => true
  end.

End PyText.

Import PyText.

(** ** The RPC endpoint *)

(** predict_fees.py: the variable of the environment, or [ValueError]. *)
Module PredictFeesConfig.

Definition RPC_URL (environ : option string) : result string :=
  match environ with
  | Some (String c s) => Ret (String c s)
  | _ => Raise ValueError
  end.

End PredictFeesConfig.

(** optimized_predict_fees.py: the variable of the environment, else
    the [.env] file of the working directory. *)
Module OptimizedConfig.

Definition single_quote : ascii := "'".
Definition double_quote : ascii := "034".

(** One turn of the loop over the lines of the file. *)
Definition read_line (env_vars : dict) (line : string) : dict :=
  let line := strip str_space line in
  if (match line with EmptyString => true | _ => false end) || startswith "#" line
  then env_vars
  else match split_once "=" line with
       | Some (key, value) =>
           let value :=
             strip (Ascii.eqb double_quote)
               (strip (Ascii.eqb single_quote) (strip str_space value)) in
           setitem env_vars (strip str_space key) value
       | None => env_vars
       end.

Definition env_vars (lines : list string) : dict := fold_left read_line lines [].

(** [environ] is the value of the variable in the environment, [dotenv]
    the lines of the file, [None] when it cannot be read.  The result
    is the endpoint the script goes on with, [None] when it prints its
    error and exits with status 1. *)
Definition RPC_URL (environ : option string) (dotenv : option (list string)) : option string :=
  let RPC_URL := environ in
  let RPC_URL :=
    if falsy RPC_URL
    then match dotenv with
         | Some lines => get (env_vars lines) "SEPOLIA_RPC_URL"
         | None => RPC_URL
         end
    else RPC_URL in
  if falsy RPC_URL then None else RPC_URL.

End OptimizedConfig.

(** ** Specification-level definitions for strings *)

(** The value of a string of hexadecimal digits, most significant
    first. *)
Fixpoint digits_value (s : string) (acc : Z) : Z :=
  match s with
  | String c s' =>
      match digit_value c with
      | Some d => digits_value s' (16 * acc + d)
      | None => acc
      end
  | EmptyString => acc
  end.

Fixpoint all_hex_digits (s : string) : bool :=
  match s with
  | String c s' =>
      match digit_value c with
      | Some _ => all_hex_digits s'
      | None => false
      end
  | EmptyString => true
  end.

(** The ten rising blocks as the RPC answers them. *)
Definition sample_rising_json : FeeHistoryJson :=
  {| json_baseFeePerGas := map hex (baseFeePerGas sample_rising);
     json_reward := map (map hex) (reward sample_rising);
     json_gasUsedRatio := gasUsedRatio sample_rising |}.

Definition sample_rising_3_json : FeeHistoryJson :=
  {| json_baseFeePerGas := map hex (baseFeePerGas sample_rising_3);
     json_reward := map (map hex) (reward sample_rising_3);
     json_gasUsedRatio := gasUsedRatio sample_rising_3 |}.

(** Two blocks, the second with five percentile values, as the RPC
    answers them. *)
Definition sample_ragged_json : FeeHistoryJson :=
  {| json_baseFeePerGas := map hex (baseFeePerGas sample_ragged);
     json_reward := map (map hex) (reward sample_ragged);
     json_gasUsedRatio := gasUsedRatio sample_ragged |}.

(** One block of a chain without base fee, and what [calculate_fees]
    returns on it. *)
Definition sample_no_base_fee : FeeHistoryJson :=
  {| json_baseFeePerGas := ["0x0"; "0x0"]%string;
     json_reward := [["0x1"; "0x2"; "0x3"]%string];
     json_gasUsedRatio := [literal 5 10] |}.

Definition no_base_fee_estimate : Estimate :=
  {| base_fee_next := 0; priority_fee_suggested := 2; max_fee_per_gas := 2;
     congestion := literal 5 10 |}.

(** Every character of [s] is one of [chars]. *)
Fixpoint all_chars (chars : ascii -> bool) (s : string) : bool :=
  match s with
  | String c s' => chars c && all_chars chars s'
  | EmptyString => true
  end.

(** [s] is not empty and neither starts nor ends with one of [chars]. *)
Definition unpadded (chars : ascii -> bool) (s : string) : Prop :=
  s <> EmptyString /\ lstrip chars s = s /\ rstrip chars s = s.

(** The three ways a value is written: bare, or between two single or
    two double quotes. *)
Definition written (q : option ascii) (v : string) : string :=
  match q with
  | Some c => String c (v ++ String c EmptyString)%string
  | None => v
  end.

(** * Binary64 rounding

    [SpecFloat] rounds by shifting the mantissa right one bit at a time
    while it records a round bit and a sticky bit.  The lemmas below
    relate that procedure to [RN], rounding to 53 significant bits on
    integers, so that the scripts' arithmetic can be reasoned about in
    [Z]. *)

Section Digits.

Lemma digits2_pos_size (p : positive) : digits2_pos p = Pos.size p.
Proof. induction p; simpl; congruence. Qed.

Lemma Zdigits2_log2 (p : positive) : Zdigits2 (Zpos p) = Z.log2 (Zpos p) + 1.
Proof.
  unfold Zdigits2. rewrite digits2_pos_size.
  destruct p; simpl; try reflexivity; rewrite Pos.add_1_r; reflexivity.
Qed.

Lemma digits2_pos_log2 (p : positive) : Zpos (digits2_pos p) = Z.log2 (Zpos p) + 1.
Proof. exact (Zdigits2_log2 p). Qed.

Lemma log2_bounds (m : Z) : 0 < m -> 2 ^ Z.log2 m <= m < 2 ^ (Z.log2 m + 1).
Proof. intros H. replace (Z.log2 m + 1) with (Z.succ (Z.log2 m)) by lia. now apply Z.log2_spec. Qed.

End Digits.

Section Shift.

Lemma iter_pos_nat {A : Type} (f : A -> A) (p : positive) (x : A) :
  iter_pos f p x = Nat.iter (Pos.to_nat p) f x.
Proof.
  revert x. induction p as [p IH | p IH | ]; intros x; cbn [iter_pos].
  - rewrite !IH. rewrite Pos2Nat.inj_xI.
    replace (S (2 * Pos.to_nat p)) with (Pos.to_nat p + (Pos.to_nat p + 1))%nat by lia.
    rewrite !Nat.iter_add. simpl. reflexivity.
  - rewrite !IH. rewrite Pos2Nat.inj_xO.
    replace (2 * Pos.to_nat p)%nat with (Pos.to_nat p + Pos.to_nat p)%nat by lia.
    rewrite Nat.iter_add. reflexivity.
  - reflexivity.
Qed.

Lemma shr_1_spec (m : Z) (r s : bool) :
  0 <= m ->
  shr_1 (Build_shr_record m r s) = Build_shr_record (m / 2) (Z.odd m) (r || s).
Proof.
  intros H. rewrite <- Z.div2_div.
  destruct m as [ | [p | p | ] | p ]; try reflexivity; lia.
Qed.

Lemma shr_iter (m : Z) (k : nat) :
  0 <= m ->
  Nat.iter (S k) shr_1 (Build_shr_record m false false) = shifted m k.
Proof.
  intros Hm. induction k as [ | k IH ].
  - change (Nat.iter 1 shr_1 ?x) with (shr_1 x).
    rewrite shr_1_spec by assumption. unfold shifted. simpl Z.of_nat.
    rewrite Z.pow_0_r, Z.div_1_r, Z.mod_1_r. reflexivity.
  - change (Nat.iter (S (S k)) shr_1 ?x) with (shr_1 (Nat.iter (S k) shr_1 x)).
    rewrite IH. unfold shifted. rewrite shr_1_spec by (apply Z.div_pos; lia).
    replace (Z.of_nat (S k)) with (Z.of_nat k + 1) by lia.
    f_equal.
    + rewrite Z.div_div by lia. f_equal. rewrite (Z.pow_add_r 2 (Z.of_nat k + 1) 1) by lia. reflexivity.
    + set (j := Z.of_nat k).
      assert (Hj : 0 <= j) by lia.
      assert (E : m mod 2 ^ (j + 1) = m mod 2 ^ j + 2 ^ j * ((m / 2 ^ j) mod 2)).
      { rewrite Z.pow_add_r, Z.pow_1_r by lia. apply Z.rem_mul_r; lia. }
      rewrite E. rewrite Zodd_mod.
      pose proof (Z.mod_pos_bound m (2 ^ j) ltac:(lia)).
      pose proof (Z.mod_pos_bound (m / 2 ^ j) 2 ltac:(lia)).
      assert (0 < 2 ^ j) by lia.
      destruct (Z.eqb_spec ((m / 2 ^ j) mod 2) 1) as [E1 | E1].
      * rewrite E1. simpl. symmetry. apply negb_true_iff. apply Z.eqb_neq. lia.
      * assert (E0 : (m / 2 ^ j) mod 2 = 0) by lia. rewrite E0. simpl.
        f_equal. f_equal. lia.
Qed.

Lemma round_shifted (m : Z) (k : nat) :
  0 <= m ->
  round_nearest_even (shr_m (shifted m k)) (loc_of_shr_record (shifted m k))
  = rne m (Z.of_nat k + 1).
Proof.
  intros Hm. unfold shifted, rne. cbn [shr_m].
  set (j := Z.of_nat k). assert (Hj : 0 <= j) by lia.
  replace (j + 1 - 1) with j by lia.
  assert (E : m mod 2 ^ (j + 1) = m mod 2 ^ j + 2 ^ j * ((m / 2 ^ j) mod 2)).
  { rewrite Z.pow_add_r, Z.pow_1_r by lia. apply Z.rem_mul_r; lia. }
  pose proof (Z.mod_pos_bound m (2 ^ j) ltac:(lia)).
  pose proof (Z.mod_pos_bound (m / 2 ^ j) 2 ltac:(lia)).
  assert (0 < 2 ^ j) by lia.
  rewrite Zodd_mod.
  destruct (Z.eqb_spec ((m / 2 ^ j) mod 2) 1) as [E1 | E1];
    destruct (Z.eqb_spec (m mod 2 ^ j) 0) as [E2 | E2]; cbn.
  - rewrite E1, E2 in E.
    destruct (Z.ltb_spec (m mod 2 ^ (j + 1)) (2 ^ j)); [lia|].
    destruct (Z.ltb_spec (2 ^ j) (m mod 2 ^ (j + 1))); [lia|]. reflexivity.
  - rewrite E1 in E.
    destruct (Z.ltb_spec (m mod 2 ^ (j + 1)) (2 ^ j)); [lia|].
    destruct (Z.ltb_spec (2 ^ j) (m mod 2 ^ (j + 1))); [reflexivity|lia].
  - destruct (Z.ltb_spec (m mod 2 ^ (j + 1)) (2 ^ j)); [reflexivity|nia].
  - destruct (Z.ltb_spec (m mod 2 ^ (j + 1)) (2 ^ j)); [reflexivity|nia].
Qed.

End Shift.

Section Rne.

Lemma rne_range (m d : Z) :
  0 <= m -> 1 <= d -> m / 2 ^ d <= rne m d <= m / 2 ^ d + 1.
Proof.
  intros Hm Hd. unfold rne.
  destruct (_ <? _); [lia|]. destruct (_ <? _); [lia|]. destruct (Z.even _); lia.
Qed.

Lemma pow2_split (d : Z) : 1 <= d -> 2 ^ d = 2 * 2 ^ (d - 1).
Proof. intros. rewrite <- Z.pow_succ_r by lia. f_equal. lia. Qed.

(** The rounded quotient is within half a unit of the exact one. *)
Lemma rne_error (m d : Z) :
  0 <= m -> 1 <= d ->
  m - 2 ^ (d - 1) <= rne m d * 2 ^ d <= m + 2 ^ (d - 1).
Proof.
  intros Hm Hd. unfold rne.
  pose proof (pow2_split d Hd) as E.
  assert (0 < 2 ^ (d - 1)) by (apply Z.pow_pos_nonneg; lia).
  pose proof (Z.div_mod m (2 ^ d) ltac:(lia)) as DM.
  pose proof (Z.mod_pos_bound m (2 ^ d) ltac:(lia)) as B.
  destruct (Z.ltb_spec (m mod 2 ^ d) (2 ^ (d - 1))); [nia|].
  destruct (Z.ltb_spec (2 ^ (d - 1)) (m mod 2 ^ d)); [nia|].
  destruct (Z.even _); nia.
Qed.

Lemma rne_mono (m1 m2 d : Z) :
  0 <= m1 -> 1 <= d -> m1 <= m2 -> rne m1 d <= rne m2 d.
Proof.
  intros Hm Hd Hle.
  assert (0 < 2 ^ (d - 1)) by (apply Z.pow_pos_nonneg; lia).
  pose proof (pow2_split d Hd) as E.
  assert (Hq : m1 / 2 ^ d <= m2 / 2 ^ d) by (apply Z.div_le_mono; lia).
  destruct (Z.eq_dec (m1 / 2 ^ d) (m2 / 2 ^ d)) as [Eq | Ne].
  - pose proof (Z.div_mod m1 (2 ^ d) ltac:(lia)) as DM1.
    pose proof (Z.div_mod m2 (2 ^ d) ltac:(lia)) as DM2.
    assert (Hr : m1 mod 2 ^ d <= m2 mod 2 ^ d) by nia.
    unfold rne. rewrite Eq.
    destruct (Z.ltb_spec (m1 mod 2 ^ d) (2 ^ (d - 1)));
      destruct (Z.ltb_spec (m2 mod 2 ^ d) (2 ^ (d - 1)));
      destruct (Z.ltb_spec (2 ^ (d - 1)) (m1 mod 2 ^ d));
      destruct (Z.ltb_spec (2 ^ (d - 1)) (m2 mod 2 ^ d));
      try lia; destruct (Z.even _); lia.
  - pose proof (rne_range m1 d Hm Hd). pose proof (rne_range m2 d ltac:(lia) Hd). lia.
Qed.

(** Rounding does not depend on the unit the number is written in. *)
Lemma rne_scale (m d j : Z) :
  0 <= m -> 1 <= d -> 0 <= j -> rne (m * 2 ^ j) (d + j) = rne m d.
Proof.
  intros Hm Hd Hj. unfold rne.
  assert (0 < 2 ^ j) by (apply Z.pow_pos_nonneg; lia).
  assert (0 < 2 ^ d) by (apply Z.pow_pos_nonneg; lia).
  assert (0 < 2 ^ (d - 1)) by (apply Z.pow_pos_nonneg; lia).
  rewrite (Z.pow_add_r 2 d j) by lia.
  replace (d + j - 1) with (d - 1 + j) by lia. rewrite (Z.pow_add_r 2 (d - 1) j) by lia.
  rewrite Z.div_mul_cancel_r by lia.
  rewrite Z.mul_mod_distr_r by lia.
  destruct (Z.ltb_spec (m mod 2 ^ d) (2 ^ (d - 1)));
    destruct (Z.ltb_spec (m mod 2 ^ d * 2 ^ j) (2 ^ (d - 1) * 2 ^ j)); try nia; try reflexivity.
  destruct (Z.ltb_spec (2 ^ (d - 1)) (m mod 2 ^ d));
    destruct (Z.ltb_spec (2 ^ (d - 1) * 2 ^ j) (m mod 2 ^ d * 2 ^ j)); try nia; reflexivity.
Qed.

(** With [d] the number of excess bits, the rounded quotient keeps 53
    bits, or is [2^53]. *)
Lemma rne_digits (m d : Z) :
  0 < m -> d = Z.log2 m + 1 - 53 -> 1 <= d ->
  2 ^ 52 <= rne m d <= 2 ^ 53.
Proof.
  intros Hm Ed Hd.
  pose proof (log2_bounds m Hm) as [L U].
  pose proof (rne_range m d ltac:(lia) Hd).
  assert (0 < 2 ^ d) by (apply Z.pow_pos_nonneg; lia).
  assert (E1 : 2 ^ Z.log2 m = 2 ^ 52 * 2 ^ d).
  { rewrite <- Z.pow_add_r by lia. f_equal. lia. }
  assert (E2 : 2 ^ (Z.log2 m + 1) = 2 ^ 53 * 2 ^ d).
  { rewrite <- Z.pow_add_r by lia. f_equal. lia. }
  assert (2 ^ 52 <= m / 2 ^ d) by (apply Z.div_le_lower_bound; lia).
  assert (m / 2 ^ d < 2 ^ 53) by (apply Z.div_lt_upper_bound; lia).
  lia.
Qed.

End Rne.

Section RoundAux.

Lemma fexp_normal (x : Z) : -1074 <= x - 53 -> fexp prec emax x = x - 53.
Proof. unfold fexp, SpecFloat.emin, prec, emax. lia. Qed.

Lemma shr_fexp_exact (m e : Z) :
  0 < m ->
  shr_fexp prec emax m e loc_Exact =
  let d := fexp prec emax (Z.log2 m + 1 + e) - e in
  if d <=? 0 then (Build_shr_record m false false, e)
  else (shifted m (Z.to_nat (d - 1)), e + d).
Proof.
  intros Hm. destruct m as [ | p | p ]; try lia.
  unfold shr_fexp. rewrite Zdigits2_log2. cbn zeta.
  set (d := fexp prec emax (Z.log2 (Z.pos p) + 1 + e) - e).
  unfold shr, shr_record_of_loc.
  destruct d as [ | q | q ] eqn:Ed; try reflexivity.
  replace (Z.pos q <=? 0) with false by (symmetry; apply Z.leb_gt; lia).
  rewrite iter_pos_nat.
  replace (Pos.to_nat q) with (S (Z.to_nat (Z.pos q - 1))) by lia.
  rewrite shr_iter by lia. reflexivity.
Qed.

Lemma binary_round_aux_spec (m e : Z) :
  0 < m -> -1074 <= Z.log2 m + 1 + e - 53 ->
  binary_round_aux prec emax false m e loc_Exact =
  let (m', e') := round_result m e in
  if e' <=? 971 then S754_finite false (Z.to_pos m') e' else S754_infinity false.
Proof.
  intros Hm Hn. unfold binary_round_aux, round_result.
  rewrite shr_fexp_exact by assumption. cbn zeta.
  rewrite fexp_normal by assumption.
  replace (Z.log2 m + 1 + e - 53 - e) with (Z.log2 m + 1 - 53) by lia.
  set (d := Z.log2 m + 1 - 53).
  destruct (Z.leb_spec d 0) as [Hd | Hd].
  - cbn [shr_m loc_of_shr_record round_nearest_even].
    rewrite shr_fexp_exact by assumption. cbn zeta.
    rewrite fexp_normal by assumption.
    replace (Z.log2 m + 1 + e - 53 - e) with d by (unfold d; lia).
    replace (d <=? 0) with true by (symmetry; apply Z.leb_le; lia).
    cbn [shr_m]. destruct m; try lia. reflexivity.
  - rewrite round_shifted by lia.
    replace (Z.of_nat (Z.to_nat (d - 1)) + 1) with d by lia.
    pose proof (rne_digits m d Hm eq_refl ltac:(lia)) as [Lq Uq].
    set (q := rne m d) in *.
    rewrite shr_fexp_exact by lia. cbn zeta.
    destruct (Z.eqb_spec q (2 ^ 53)) as [Eq | Nq].
    + rewrite Eq. replace (Z.log2 (2 ^ 53)) with 53 by reflexivity.
      rewrite fexp_normal by lia.
      replace (53 + 1 + (e + d) - 53 - (e + d)) with 1 by lia.
      cbn. replace (e + d + 1 <=? 971) with (e + d + 1 <=? emax - prec) by reflexivity.
      reflexivity.
    + assert (Hl : Z.log2 q = 52).
      { apply Z.log2_unique; [lia|]. change (Z.succ 52) with 53. lia. }
      rewrite Hl. rewrite fexp_normal by lia.
      replace (52 + 1 + (e + d) - 53 - (e + d)) with 0 by lia.
      cbn [Z.leb Z.compare shr_m]. destruct q; try lia. reflexivity.
Qed.

End RoundAux.

Section RNProps.

Lemma pow2_pos (k : Z) : 0 <= k -> 0 < 2 ^ k.
Proof. intros. apply Z.pow_pos_nonneg; lia. Qed.

Lemma rne_exact (a d : Z) : 1 <= d -> rne (a * 2 ^ d) d = a.
Proof.
  intros Hd. pose proof (pow2_pos d ltac:(lia)). pose proof (pow2_pos (d - 1) ltac:(lia)).
  unfold rne. rewrite Z.div_mul, Z.mod_mul by lia.
  replace (0 <? 2 ^ (d - 1)) with true by (symmetry; apply Z.ltb_lt; lia).
  reflexivity.
Qed.

Lemma RN_small (m : Z) : 0 <= m < 2 ^ 53 -> RN m = m.
Proof.
  intros [L U]. unfold RN.
  destruct (Z.eq_dec m 0) as [-> | N]; [reflexivity|].
  assert (Z.log2 m < 53) by (apply Z.log2_lt_pow2; lia).
  replace (Z.log2 m + 1 - 53 <=? 0) with true by (symmetry; apply Z.leb_le; lia).
  reflexivity.
Qed.

Lemma RN_scale (m j : Z) : 0 <= m -> 0 <= j -> RN (m * 2 ^ j) = RN m * 2 ^ j.
Proof.
  intros Hm Hj.
  destruct (Z.eq_dec m 0) as [-> | N]; [reflexivity|].
  unfold RN. rewrite Z.log2_mul_pow2 by lia.
  set (d := Z.log2 m + 1 - 53).
  replace (j + Z.log2 m + 1 - 53) with (d + j) by (unfold d; lia).
  pose proof (pow2_pos j Hj).
  destruct (Z.leb_spec d 0) as [Hd | Hd]; destruct (Z.leb_spec (d + j) 0) as [Hd' | Hd']; try lia.
  - (* the scaled number needs rounding, but its low bits are zero *)
    assert (E : m * 2 ^ j = (m * 2 ^ (- d)) * 2 ^ (d + j)).
    { rewrite <- Z.mul_assoc, <- Z.pow_add_r by lia. do 2 f_equal. lia. }
    rewrite E at 1. rewrite rne_exact by lia. symmetry. exact E.
  - rewrite rne_scale by lia. rewrite Z.pow_add_r by lia. ring.
Qed.

Lemma RN_exact (a j : Z) : 0 <= a < 2 ^ 53 -> 0 <= j -> RN (a * 2 ^ j) = a * 2 ^ j.
Proof. intros. rewrite RN_scale by lia. rewrite RN_small by lia. reflexivity. Qed.

Lemma RN_0 : RN 0 = 0.
Proof. reflexivity. Qed.

(** Bounds when rounding is needed. *)
Lemma RN_big (m : Z) :
  0 < m -> 1 <= Z.log2 m + 1 - 53 ->
  let d := Z.log2 m + 1 - 53 in
  RN m = rne m d * 2 ^ d /\ 2 ^ 52 * 2 ^ d <= m < 2 ^ 53 * 2 ^ d /\
  2 ^ 52 <= rne m d <= 2 ^ 53.
Proof.
  intros Hm Hd d. unfold RN. fold d.
  replace (d <=? 0) with false by (symmetry; apply Z.leb_gt; fold d in Hd; lia).
  split; [reflexivity|]. split.
  - pose proof (log2_bounds m Hm) as [L U].
    replace (Z.log2 m) with (52 + d) in L by (unfold d; lia).
    replace (Z.log2 m + 1) with (53 + d) in U by (unfold d; lia).
    rewrite Z.pow_add_r in L, U by (fold d in Hd; lia). lia.
  - apply rne_digits; auto.
Qed.

Lemma RN_mono (m1 m2 : Z) : 0 <= m1 -> m1 <= m2 -> RN m1 <= RN m2.
Proof.
  intros H1 Hle.
  destruct (Z.eq_dec m1 0) as [-> | N1].
  { rewrite RN_0. unfold RN. destruct (Z.leb_spec (Z.log2 m2 + 1 - 53) 0); [lia|].
    pose proof (rne_range m2 (Z.log2 m2 + 1 - 53) ltac:(lia) ltac:(lia)).
    pose proof (pow2_pos (Z.log2 m2 + 1 - 53) ltac:(lia)).
    pose proof (Z.div_pos m2 (2 ^ (Z.log2 m2 + 1 - 53)) ltac:(lia) ltac:(lia)).
    nia. }
  assert (Hlog : Z.log2 m1 <= Z.log2 m2) by (apply Z.log2_le_mono; lia).
  destruct (Z.le_gt_cases (Z.log2 m2 + 1 - 53) 0) as [S2 | B2].
  { rewrite !RN_small; try lia.
    - split; [lia|]. apply Z.log2_lt_pow2; lia.
    - split; [lia|]. apply Z.log2_lt_pow2; lia. }
  destruct (RN_big m2 ltac:(lia) ltac:(lia)) as (E2 & [L2 U2] & [Q2 Q2']).
  destruct (Z.le_gt_cases (Z.log2 m1 + 1 - 53) 0) as [S1 | B1].
  { rewrite (RN_small m1).
    - rewrite E2. assert (m1 < 2 ^ 53) by (apply Z.log2_lt_pow2; lia).
      pose proof (pow2_split (Z.log2 m2 + 1 - 53) ltac:(lia)) as P.
      pose proof (pow2_pos (Z.log2 m2 + 1 - 53 - 1) ltac:(lia)).
      rewrite P. change (2 ^ 53) with (2 * 2 ^ 52) in *. nia.
    - split; [lia|]. apply Z.log2_lt_pow2; lia. }
  destruct (RN_big m1 ltac:(lia) ltac:(lia)) as (E1 & [L1 U1] & [Q1 Q1']).
  rewrite E1, E2.
  destruct (Z.eq_dec (Z.log2 m1) (Z.log2 m2)) as [El | Nl].
  - rewrite El. apply Z.mul_le_mono_nonneg_r; [apply Z.pow_nonneg; lia|].
    apply rne_mono; lia.
  - set (d1 := Z.log2 m1 + 1 - 53) in *. set (d2 := Z.log2 m2 + 1 - 53) in *.
    assert (Hd : d2 = d1 + 1 + (d2 - d1 - 1)) by lia.
    assert (E : 2 ^ d2 = 2 * 2 ^ d1 * 2 ^ (d2 - d1 - 1)).
    { rewrite Hd at 1. rewrite !Z.pow_add_r by lia. ring. }
    pose proof (pow2_pos d1 ltac:(lia)). pose proof (pow2_pos (d2 - d1 - 1) ltac:(lia)).
    rewrite E. nia.
Qed.

(** Relative error of rounding: at most [2^-53]. *)
Lemma RN_error (m : Z) :
  0 <= m -> 2 ^ 53 * (m - RN m) <= m /\ 2 ^ 53 * (RN m - m) <= m.
Proof.
  intros Hm.
  destruct (Z.le_gt_cases (Z.log2 m + 1 - 53) 0) as [S | B].
  { assert (RN m = m).
    { unfold RN. replace (_ <=? 0) with true by (symmetry; apply Z.leb_le; lia). reflexivity. }
    lia. }
  assert (0 < m) by (destruct (Z.eq_dec m 0) as [-> | ]; [simpl in B|]; lia).
  destruct (RN_big m ltac:(lia) ltac:(lia)) as (E & [L U] & _).
  set (d := Z.log2 m + 1 - 53) in *.
  pose proof (rne_error m d ltac:(lia) ltac:(lia)) as [A B'].
  pose proof (pow2_split d ltac:(lia)) as P.
  pose proof (pow2_pos (d - 1) ltac:(lia)).
  rewrite E. lia.
Qed.

Lemma RN_nonneg (m : Z) : 0 <= m -> 0 <= RN m.
Proof.
  intros Hm. pose proof (RN_mono 0 m ltac:(lia) ltac:(lia)). rewrite RN_0 in H; lia.
Qed.

(** An integer that fits 53 bits bounds the rounded number from below
    as soon as it bounds the number. *)
Lemma RN_ge_small (k m : Z) : 0 <= k < 2 ^ 53 -> k <= m -> k <= RN m.
Proof. intros Hk Hle. rewrite <- (RN_small k) by lia. apply RN_mono; lia. Qed.

End RNProps.

Section Dyadic.

Lemma deq_iff (m e M E : Z) :
  deq m e M E <-> (forall k, k <= e -> k <= E -> m * 2 ^ (e - k) = M * 2 ^ (E - k)).
Proof.
  unfold deq. split.
  - intros H k He HE.
    replace (e - k) with (e - Z.min e E + (Z.min e E - k)) by lia.
    replace (E - k) with (E - Z.min e E + (Z.min e E - k)) by lia.
    rewrite !Z.pow_add_r by lia. rewrite !Z.mul_assoc, H. reflexivity.
  - intros H. apply H; lia.
Qed.

Lemma deq_refl (m e : Z) : deq m e m e.
Proof. reflexivity. Qed.

Lemma deq_sym (m e M E : Z) : deq m e M E -> deq M E m e.
Proof. unfold deq. rewrite (Z.min_comm E e). auto. Qed.

Lemma deq_trans (m1 e1 m2 e2 m3 e3 : Z) :
  deq m1 e1 m2 e2 -> deq m2 e2 m3 e3 -> deq m1 e1 m3 e3.
Proof.
  intros H12 H23. rewrite deq_iff in H12, H23.
  set (k := Z.min e1 (Z.min e2 e3)).
  specialize (H12 k ltac:(lia) ltac:(lia)). specialize (H23 k ltac:(lia) ltac:(lia)).
  unfold deq. set (k' := Z.min e1 e3).
  assert (E : m1 * 2 ^ (e1 - k') * 2 ^ (k' - k) = m3 * 2 ^ (e3 - k') * 2 ^ (k' - k)).
  { rewrite <- !Z.mul_assoc, <- !Z.pow_add_r by lia.
    replace (e1 - k' + (k' - k)) with (e1 - k) by lia.
    replace (e3 - k' + (k' - k)) with (e3 - k) by lia. congruence. }
  apply Z.mul_reg_r in E; [exact E|]. pose proof (pow2_pos (k' - k) ltac:(lia)). lia.
Qed.

(** Writing a number in a finer unit. *)
Lemma deq_shift (m e j : Z) : 0 <= j -> deq (m * 2 ^ j) (e - j) m e.
Proof.
  intros Hj. unfold deq. replace (Z.min (e - j) e) with (e - j) by lia.
  replace (e - j - (e - j)) with 0 by lia. replace (e - (e - j)) with j by lia.
  rewrite Z.pow_0_r. ring.
Qed.

Lemma deq_le (m e M E : Z) : e <= E -> (deq m e M E <-> m = M * 2 ^ (E - e)).
Proof.
  intros H. unfold deq. replace (Z.min e E) with e by lia.
  replace (e - e) with 0 by lia. rewrite Z.pow_0_r, Z.mul_1_r. reflexivity.
Qed.

Lemma deq_ge (m e M E : Z) : E <= e -> (deq m e M E <-> m * 2 ^ (e - E) = M).
Proof.
  intros H. unfold deq. replace (Z.min e E) with E by lia.
  replace (E - E) with 0 by lia. rewrite Z.pow_0_r, Z.mul_1_r. reflexivity.
Qed.

(** Rounding and multiplication respect equality of dyadic numbers. *)
Lemma deq_RN (m e M E : Z) : 0 <= m -> 0 <= M -> deq m e M E -> deq (RN m) e (RN M) E.
Proof.
  intros Hm HM H.
  destruct (Z.le_ge_cases e E) as [L | G].
  - apply (deq_le _ _ _ _ L) in H. apply (deq_le _ _ _ _ L).
    subst m. apply RN_scale; lia.
  - apply (deq_ge _ _ _ _ G) in H. apply (deq_ge _ _ _ _ G).
    subst M. symmetry. apply RN_scale; lia.
Qed.

Lemma deq_mul (m e M E c f : Z) : deq m e M E -> deq (m * c) (e + f) (M * c) (E + f).
Proof.
  unfold deq. intros H. replace (Z.min (e + f) (E + f)) with (Z.min e E + f) by lia.
  replace (e + f - (Z.min e E + f)) with (e - Z.min e E) by lia.
  replace (E + f - (Z.min e E + f)) with (E - Z.min e E) by lia.
  rewrite <- !Z.mul_assoc, !(Z.mul_comm c), !Z.mul_assoc. congruence.
Qed.

Lemma dfloor_deq (m e M E : Z) : deq m e M E -> dfloor m e = dfloor M E.
Proof.
  assert (W : forall m e M E, e <= E -> deq m e M E -> dfloor m e = dfloor M E).
  { clear. intros m e M E L H. apply (deq_le _ _ _ _ L) in H. subst m. unfold dfloor.
    destruct (Z.leb_spec 0 e); destruct (Z.leb_spec 0 E); try lia.
    - rewrite <- Z.mul_assoc, <- Z.pow_add_r by lia. do 2 f_equal. lia.
    - replace (E - e) with (E + - e) by lia. rewrite Z.pow_add_r by lia.
      rewrite Z.mul_assoc. apply Z.div_mul. pose proof (pow2_pos (- e) ltac:(lia)). lia.
    - replace (- e) with (- E + (E - e)) by lia. rewrite Z.pow_add_r by lia.
      apply Z.div_mul_cancel_r.
      + pose proof (pow2_pos (- E) ltac:(lia)). lia.
      + pose proof (pow2_pos (E - e) ltac:(lia)). lia. }
  intros H. destruct (Z.le_ge_cases e E).
  - apply W; assumption.
  - symmetry. apply W; [assumption|]. apply deq_sym. assumption.
Qed.

Lemma dfloor_nonneg (m e : Z) : 0 <= m -> 0 <= dfloor m e.
Proof.
  intros. unfold dfloor. destruct (Z.leb_spec 0 e).
  - apply Z.mul_nonneg_nonneg; [lia|]. apply Z.pow_nonneg; lia.
  - apply Z.div_pos; [lia|]. apply pow2_pos; lia.
Qed.

Lemma dfloor_mono (m1 m2 e : Z) : m1 <= m2 -> dfloor m1 e <= dfloor m2 e.
Proof.
  intros. unfold dfloor. destruct (Z.leb_spec 0 e).
  - apply Z.mul_le_mono_nonneg_r; [apply Z.pow_nonneg|]; lia.
  - apply Z.div_le_mono; [apply pow2_pos|]; lia.
Qed.

End Dyadic.

Section RoundResult.

Lemma round_result_spec (m e : Z) :
  0 < m ->
  let (m', e') := round_result m e in
  0 < m' /\ e <= e' /\ m' * 2 ^ (e' - e) = RN m /\
  Z.log2 m' <= 52 /\ (52 <= Z.log2 m -> Z.log2 m' = 52) /\
  e' + Z.log2 m' <= e + Z.log2 m + 1.
Proof.
  intros Hm. unfold round_result.
  destruct (Z.leb_spec (Z.log2 m + 1 - 53) 0) as [S | B].
  - replace (e - e) with 0 by lia. rewrite Z.pow_0_r.
    assert (RN m = m).
    { unfold RN. replace (_ <=? 0) with true by (symmetry; apply Z.leb_le; lia). reflexivity. }
    lia.
  - destruct (RN_big m Hm ltac:(lia)) as (E & [L U] & [Q Q']).
    set (d := Z.log2 m + 1 - 53) in *.
    destruct (Z.eqb_spec (rne m d) (2 ^ 53)) as [E53 | N53].
    + replace (e + d + 1 - e) with (d + 1) by lia.
      rewrite E, E53. rewrite Z.pow_add_r by lia.
      change (Z.log2 (2 ^ 52)) with 52. repeat split; try lia.
    + replace (e + d - e) with d by lia.
      assert (Z.log2 (rne m d) = 52).
      { apply Z.log2_unique; [lia|]. change (Z.succ 52) with 53. lia. }
      repeat split; try lia.
Qed.

End RoundResult.

Section Ops.

Lemma Pos_iter_xO (p q : positive) : Zpos (Pos.iter xO p q) = Zpos p * 2 ^ Zpos q.
Proof.
  induction q as [ | q IH ] using Pos.peano_ind.
  - simpl. rewrite Pos2Z.inj_xO. change (2 ^ 1) with 2. lia.
  - rewrite Pos.iter_succ. rewrite Pos2Z.inj_xO, IH, Pos2Z.inj_succ.
    rewrite Z.pow_succ_r by lia. ring.
Qed.

Lemma log2_pow2_mul (m j : Z) : 0 < m -> 0 <= j -> Z.log2 (m * 2 ^ j) = Z.log2 m + j.
Proof. intros. rewrite Z.log2_mul_pow2 by lia. lia. Qed.

(** [binary_normalize] on a positive number in the normal range: the
    canonical float of the rounded number, or an infinity. *)
Lemma binary_normalize_spec (M E : Z) :
  0 < M -> -1074 <= Z.log2 M + 1 + E - 53 ->
  exists m e,
    Z.log2 (Zpos m) = 52 /\ deq (Zpos m) e (RN M) E /\
    e + 52 <= E + Z.log2 M + 1 /\ E + Z.log2 M <= e + 52 /\
    binary_normalize prec emax M E false =
    if e <=? 971 then S754_finite false m e else S754_infinity false.
Proof.
  intros HM Hn. destruct M as [ | p | p ]; try lia.
  unfold binary_normalize, binary_round, shl_align.
  rewrite digits2_pos_log2. rewrite fexp_normal by lia.
  set (d := Z.log2 (Z.pos p) + 1 + E - 53 - E).
  assert (Ed : d = Z.log2 (Z.pos p) + 1 - 53) by (unfold d; lia).
  destruct d as [ | q | q ] eqn:Dq.
  - (* exactly 53 bits *)
    rewrite binary_round_aux_spec by lia.
    unfold round_result. replace (Z.log2 (Z.pos p) + 1 - 53) with 0 by lia. cbn [Z.leb Z.compare].
    cbn [Z.to_pos].
    exists p, E. repeat split; try lia.
    rewrite RN_small; [apply deq_refl|]. split; [lia|].
    apply Z.log2_lt_pow2; lia.
  - (* more than 53 bits: rounding *)
    rewrite binary_round_aux_spec by lia.
    pose proof (round_result_spec (Z.pos p) E ltac:(lia)) as R.
    destruct (round_result (Z.pos p) E) as [m' e'].
    destruct R as (P & Le & V & L52 & L52' & B).
    exists (Z.to_pos m'), e'. rewrite Z2Pos.id by lia.
    specialize (L52' ltac:(lia)).
    repeat split; try lia.
    + apply deq_ge; [lia|]. exact V.
    + (* the rounded number is not smaller than [2^log2] *)
      assert (2 ^ Z.log2 (Z.pos p) <= RN (Z.pos p)).
      { replace (2 ^ Z.log2 (Z.pos p)) with (RN (2 ^ Z.log2 (Z.pos p))).
        - apply RN_mono; [apply Z.pow_nonneg; lia|]. apply log2_bounds; lia.
        - replace (2 ^ Z.log2 (Z.pos p)) with (1 * 2 ^ Z.log2 (Z.pos p)) by lia.
          apply RN_exact; lia. }
      rewrite <- V in H.
      destruct (Z.le_gt_cases (E + Z.log2 (Z.pos p)) (e' + 52)) as [ | G]; [assumption|exfalso].
      pose proof (log2_bounds m' P) as [_ U]. rewrite L52' in U.
      assert (2 ^ 53 * 2 ^ (e' - E) <= 2 ^ Z.log2 (Z.pos p)).
      { rewrite <- Z.pow_add_r by lia. apply Z.pow_le_mono_r; lia. }
      pose proof (pow2_pos (e' - E) ltac:(lia)). change (52 + 1) with 53 in U. nia.
  - (* fewer than 53 bits: the mantissa is shifted left *)
    assert (Hq : Z.pos q = 53 - (Z.log2 (Z.pos p) + 1)) by lia.
    assert (L : Z.log2 (Z.pos (Pos.iter xO p q)) = 52).
    { rewrite Pos_iter_xO. rewrite log2_pow2_mul by lia. lia. }
    rewrite binary_round_aux_spec by (rewrite ?L; lia).
    unfold round_result. rewrite L.
    change (52 + 1 - 53 <=? 0) with true. cbv iota beta. rewrite Pos2Z.id.
    exists (Pos.iter xO p q), (Z.log2 (Z.pos p) + 1 + E - 53). repeat split; try lia.
    rewrite Pos_iter_xO. rewrite RN_small.
    + replace (Z.log2 (Z.pos p) + 1 + E - 53) with (E - Z.pos q) by lia.
      apply deq_shift. lia.
    + split; [lia|]. apply Z.log2_lt_pow2; lia.
Qed.

(** [float(n)] for a positive [n]. *)
Lemma float_of_int_spec (n : Z) :
  1 <= n ->
  exists m e,
    Z.log2 (Zpos m) = 52 /\ deq (Zpos m) e (RN n) 0 /\
    e + 52 <= Z.log2 n + 1 /\ Z.log2 n <= e + 52 /\
    float_of_int n = if e <=? 971 then Ret (S754_finite false m e) else Raise OverflowError.
Proof.
  intros Hn.
  assert (0 <= Z.log2 n) by apply Z.log2_nonneg.
  destruct (binary_normalize_spec n 0 ltac:(lia) ltac:(lia)) as (m & e & L & V & B1 & B2 & E).
  exists m, e. repeat split; try lia; try assumption.
  unfold float_of_int, float_of_Z. rewrite E. destruct (e <=? 971); reflexivity.
Qed.

Lemma float_of_int_0 : float_of_int 0 = Ret (S754_zero false).
Proof. reflexivity. Qed.

(** The product of two positive floats, in the normal range. *)
Lemma fmul_spec (m1 m2 : positive) (e1 e2 : Z) :
  -1074 <= Z.log2 (Zpos m1 * Zpos m2) + 1 + e1 + e2 - 53 ->
  exists m e,
    deq (Zpos m) e (RN (Zpos m1 * Zpos m2)) (e1 + e2) /\
    e + Z.log2 (Zpos m) <= e1 + e2 + Z.log2 (Zpos m1 * Zpos m2) + 1 /\
    Z.log2 (Zpos m) <= 52 /\
    (52 <= Z.log2 (Zpos m1 * Zpos m2) -> Z.log2 (Zpos m) = 52) /\
    fmul (S754_finite false m1 e1) (S754_finite false m2 e2) =
    if e <=? 971 then S754_finite false m e else S754_infinity false.
Proof.
  intros Hn. unfold fmul, SFmul. cbn [xorb].
  change (Z.pos (m1 * m2)) with (Z.pos m1 * Z.pos m2).
  rewrite binary_round_aux_spec by lia.
  pose proof (round_result_spec (Z.pos m1 * Z.pos m2) (e1 + e2) ltac:(lia)) as R.
  destruct (round_result _ _) as [m' e'].
  destruct R as (P & Le & V & L52 & L52' & B).
  exists (Z.to_pos m'), e'. rewrite Z2Pos.id by lia. repeat split; try lia.
  apply deq_ge; [lia|]. exact V.
Qed.

Lemma int_of_float_finite (m : positive) (e : Z) :
  int_of_float (S754_finite false m e) = Ret (dfloor (Zpos m) e).
Proof. reflexivity. Qed.

Lemma deq_mul2 (m1 e1 M1 E1 m2 e2 M2 E2 : Z) :
  deq m1 e1 M1 E1 -> deq m2 e2 M2 E2 -> deq (m1 * m2) (e1 + e2) (M1 * M2) (E1 + E2).
Proof.
  intros H1 H2.
  apply deq_trans with (m2 := M1 * m2) (e2 := E1 + e2).
  - apply deq_mul. assumption.
  - rewrite (Z.mul_comm M1 m2), (Z.mul_comm M1 M2), (Z.add_comm E1 e2), (Z.add_comm E1 E2).
    apply deq_mul. assumption.
Qed.

Lemma times_val_0 (mc ec : Z) : times_val 0 mc ec = 0.
Proof.
  unfold times_val. rewrite RN_0, Z.mul_0_l, RN_0. unfold dfloor.
  destruct (Z.leb_spec 0 ec); [lia|]. apply Z.div_0_l.
  pose proof (pow2_pos (- ec) ltac:(lia)). lia.
Qed.

Lemma int_times_0 (mc : positive) (ec : Z) :
  int_times 0 (S754_finite false mc ec) = Ret (times_val 0 (Zpos mc) ec).
Proof. rewrite times_val_0. reflexivity. Qed.

(** [int(n * c)]: the closed form, unless a float overflows. *)
Lemma int_times_cases (n : Z) (mc : positive) (ec : Z) :
  0 <= n -> -1022 <= ec ->
  int_times n (S754_finite false mc ec) = Ret (times_val n (Zpos mc) ec) \/
  int_times n (S754_finite false mc ec) = Raise OverflowError.
Proof.
  intros Hn Hec.
  destruct (Z.eq_dec n 0) as [-> | N]; [|unfold int_times, int_mul_float]; [|].
  { left. apply int_times_0. }
  destruct (float_of_int_spec n ltac:(lia)) as (m1 & e1 & L1 & V1 & B1 & B1' & E1).
  rewrite E1. destruct (e1 <=? 971); [|right; reflexivity].
  cbn [bind].
  assert (0 <= Z.log2 n) by apply Z.log2_nonneg.
  assert (Lp : Z.log2 (Z.pos m1) + Z.log2 (Z.pos mc) <= Z.log2 (Z.pos m1 * Z.pos mc)).
  { apply Z.log2_mul_below; lia. }
  assert (0 <= Z.log2 (Z.pos mc)) by apply Z.log2_nonneg.
  destruct (fmul_spec m1 mc e1 ec ltac:(lia)) as (m & e & V & B & L & L' & E).
  rewrite E. destruct (e <=? 971); [|right; reflexivity].
  left. rewrite int_of_float_finite. unfold times_val. f_equal.
  apply dfloor_deq. eapply deq_trans; [exact V|].
  apply deq_RN; try lia.
  { apply Z.mul_nonneg_nonneg; [apply RN_nonneg|]; lia. }
  replace ec with (0 + ec) at 2 by lia. apply deq_mul. exact V1.
Qed.

Lemma int_times_ret (n : Z) (mc : positive) (ec : Z) :
  0 <= n < 2 ^ 960 -> -1022 <= ec -> Z.log2 (Zpos mc) + ec <= 60 ->
  int_times n (S754_finite false mc ec) = Ret (times_val n (Zpos mc) ec).
Proof.
  intros Hn Hec Hc.
  destruct (Z.eq_dec n 0) as [-> | N]; [|unfold int_times, int_mul_float]; [|].
  { apply int_times_0. }
  assert (Z.log2 n < 960) by (apply Z.log2_lt_pow2; lia).
  destruct (float_of_int_spec n ltac:(lia)) as (m1 & e1 & L1 & V1 & B1 & B1' & E1).
  rewrite E1. replace (e1 <=? 971) with true by (symmetry; apply Z.leb_le; lia).
  cbn [bind].
  assert (0 <= Z.log2 n) by apply Z.log2_nonneg.
  assert (Lp : Z.log2 (Z.pos m1) + Z.log2 (Z.pos mc) <= Z.log2 (Z.pos m1 * Z.pos mc)).
  { apply Z.log2_mul_below; lia. }
  assert (Lq : Z.log2 (Z.pos m1 * Z.pos mc) <= Z.log2 (Z.pos m1) + Z.log2 (Z.pos mc) + 1).
  { apply Z.log2_mul_above; lia. }
  assert (0 <= Z.log2 (Z.pos mc)) by apply Z.log2_nonneg.
  destruct (fmul_spec m1 mc e1 ec ltac:(lia)) as (m & e & V & B & L & L' & E).
  rewrite E. specialize (L' ltac:(lia)).
  replace (e <=? 971) with true by (symmetry; apply Z.leb_le; lia).
  rewrite int_of_float_finite. unfold times_val. f_equal.
  apply dfloor_deq. eapply deq_trans; [exact V|].
  apply deq_RN; try lia.
  { apply Z.mul_nonneg_nonneg; [apply RN_nonneg|]; lia. }
  replace ec with (0 + ec) at 2 by lia. apply deq_mul. exact V1.
Qed.

End Ops.

(** * The constants of the scripts and what multiplying by them does *)

Section Constants.

Lemma literal_1_2 : literal 12 10 = S754_finite false 5404319552844595 (-52).
Proof. vm_compute. reflexivity. Qed.
Lemma literal_1_15 : literal 115 100 = S754_finite false 5179139571476070 (-52).
Proof. vm_compute. reflexivity. Qed.
Lemma literal_0_95 : literal 95 100 = S754_finite false 8556839292003942 (-53).
Proof. vm_compute. reflexivity. Qed.
Lemma literal_1_25 : literal 125 100 = S754_finite false 5629499534213120 (-52).
Proof. vm_compute. reflexivity. Qed.
Lemma literal_1_0 : literal 10 10 = S754_finite false 4503599627370496 (-52).
Proof. vm_compute. reflexivity. Qed.
Lemma literal_0_9 : literal 9 10 = S754_finite false 8106479329266893 (-53).
Proof. vm_compute. reflexivity. Qed.
Lemma literal_1_5 : literal 15 10 = S754_finite false 6755399441055744 (-52).
Proof. vm_compute. reflexivity. Qed.
Lemma literal_2_0 : literal 20 10 = S754_finite false 4503599627370496 (-51).
Proof. vm_compute. reflexivity. Qed.

Lemma math_pow_2 : math_pow_1_125 2 = Ret (S754_finite false 5699868278390784 (-52)).
Proof. vm_compute. reflexivity. Qed.
Lemma math_pow_4 : math_pow_1_125 4 = Ret (S754_finite false 7213895789838336 (-52)).
Proof. vm_compute. reflexivity. Qed.
Lemma math_pow_6 : math_pow_1_125 6 = Ret (S754_finite false 4565043429507072 (-51)).
Proof. vm_compute. reflexivity. Qed.
Lemma math_pow_10 : math_pow_1_125 10 = Ret (S754_finite false 7312316880125952 (-51)).
Proof. vm_compute. reflexivity. Qed.

End Constants.

Section TimesVal.

Lemma RN_idem (m : Z) : 0 <= m -> RN (RN m) = RN m.
Proof.
  intros Hm.
  destruct (Z.le_gt_cases (Z.log2 m + 1 - 53) 0) as [S | B].
  { assert (E : RN m = m).
    { unfold RN. replace (_ <=? 0) with true by (symmetry; apply Z.leb_le; lia). reflexivity. }
    rewrite E. exact E. }
  assert (0 < m) by (destruct (Z.eq_dec m 0) as [-> | ]; [simpl in B|]; lia).
  destruct (RN_big m ltac:(lia) ltac:(lia)) as (E & _ & [Q Q']).
  rewrite E. set (d := Z.log2 m + 1 - 53) in *.
  destruct (Z.eq_dec (rne m d) (2 ^ 53)) as [E53 | N53].
  - rewrite E53. rewrite <- Z.pow_add_r by lia.
    replace (2 ^ (53 + d)) with (1 * 2 ^ (53 + d)) by lia. apply RN_exact; lia.
  - apply RN_exact; lia.
Qed.

Lemma times_val_facts (n mc ec : Z) :
  0 <= n -> 0 <= mc -> ec < 0 ->
  times_val n mc ec = RN (RN n * mc) / 2 ^ (- ec) /\
  0 <= RN n /\
  2 ^ 53 * (n - RN n) <= n /\ 2 ^ 53 * (RN n - n) <= n /\
  2 ^ 53 * (RN n * mc - RN (RN n * mc)) <= RN n * mc /\
  2 ^ 53 * (RN (RN n * mc) - RN n * mc) <= RN n * mc.
Proof.
  intros Hn Hmc Hec.
  pose proof (RN_nonneg n Hn).
  pose proof (RN_error n Hn) as [A B].
  pose proof (RN_error (RN n * mc) ltac:(apply Z.mul_nonneg_nonneg; lia)) as [C D].
  repeat split; try assumption.
  unfold times_val, dfloor. replace (0 <=? ec) with false by (symmetry; apply Z.leb_gt; lia).
  reflexivity.
Qed.

Lemma times_val_mono (n1 n2 mc ec : Z) :
  0 <= n1 -> n1 <= n2 -> 0 <= mc -> times_val n1 mc ec <= times_val n2 mc ec.
Proof.
  intros H1 H12 Hc. unfold times_val. apply dfloor_mono. apply RN_mono.
  - apply Z.mul_nonneg_nonneg; [apply RN_nonneg|]; lia.
  - apply Z.mul_le_mono_nonneg_r; [lia|]. apply RN_mono; lia.
Qed.

Lemma times_val_mono_c (n mc1 mc2 ec : Z) :
  0 <= n -> 0 <= mc1 -> mc1 <= mc2 -> times_val n mc1 ec <= times_val n mc2 ec.
Proof.
  intros Hn H1 H12. unfold times_val. apply dfloor_mono. apply RN_mono.
  - apply Z.mul_nonneg_nonneg; [apply RN_nonneg|]; lia.
  - apply Z.mul_le_mono_nonneg_l; [apply RN_nonneg|]; lia.
Qed.

Lemma times_val_nonneg (n mc ec : Z) : 0 <= n -> 0 <= mc -> 0 <= times_val n mc ec.
Proof.
  intros. unfold times_val. apply dfloor_nonneg. apply RN_nonneg.
  apply Z.mul_nonneg_nonneg; [apply RN_nonneg|]; lia.
Qed.

(** The same constant written with a finer unit. *)
Lemma times_val_unit (n mc ec j : Z) :
  0 <= n -> 0 <= mc -> 0 <= j ->
  times_val n (mc * 2 ^ j) (ec - j) = times_val n mc ec.
Proof.
  intros Hn Hc Hj. unfold times_val. apply dfloor_deq.
  rewrite Z.mul_assoc.
  rewrite RN_scale by (try apply Z.mul_nonneg_nonneg; try apply RN_nonneg; lia).
  apply deq_shift. lia.
Qed.

Ltac times_facts n mc ec :=
  let F := fresh "F" in
  destruct (times_val_facts n mc ec ltac:(lia) ltac:(lia) ltac:(lia)) as (F & ? & ? & ? & ? & ?);
  rewrite F; clear F;
  change (2 ^ (- -52)) with 4503599627370496 in *;
  change (2 ^ (- -53)) with 9007199254740992 in *;
  change (2 ^ (- -51)) with 2251799813685248 in *;
  change (2 ^ 53) with 9007199254740992 in *.

(** The factors of the two scripts, applied to an unsigned fee [n]. *)
Section Factors.

Variable n : Z.
Hypothesis Hn : 0 <= n.

(** Multiplier 1.0. *)
Lemma times_1_0 : times_val n 4503599627370496 (-52) = RN n.
Proof.
  unfold times_val.
  change 4503599627370496 with (2 ^ 52). rewrite RN_scale by (try apply RN_nonneg; lia).
  rewrite RN_idem by lia. unfold dfloor. cbn [Z.leb Z.compare Z.opp].
  apply Z.div_mul. lia.
Qed.

(** Multiplier 0.95: never more, and less for a positive tip. *)
Lemma times_0_95 :
  times_val n 8556839292003942 (-53) <= n /\
  (1 <= n -> times_val n 8556839292003942 (-53) < n).
Proof.
  times_facts n 8556839292003942 (-53).
  split; [apply Z.div_le_upper_bound|intros; apply Z.div_lt_upper_bound]; lia.
Qed.

(** Multiplier 0.9. *)
Lemma times_0_9 :
  times_val n 8106479329266893 (-53) <= n /\
  (1 <= n -> times_val n 8106479329266893 (-53) < n).
Proof.
  times_facts n 8106479329266893 (-53).
  split; [apply Z.div_le_upper_bound|intros; apply Z.div_lt_upper_bound]; lia.
Qed.

(** Multiplier 1.25: never less, and more from 4 on. *)
Lemma times_1_25 :
  n <= times_val n 5629499534213120 (-52) /\
  (4 <= n -> n < times_val n 5629499534213120 (-52)).
Proof.
  split.
  - times_facts n 5629499534213120 (-52). apply Z.div_le_lower_bound; lia.
  - intros H4. destruct (Z.eq_dec n 4) as [E | N]; [rewrite E; vm_compute; reflexivity|].
    times_facts n 5629499534213120 (-52).
    apply Z.lt_le_trans with (n + 1); [lia|]. apply Z.div_le_lower_bound; lia.
Qed.

(** Multiplier 1.2: never less, and more from 5 on. *)
Lemma times_1_2 :
  n <= times_val n 5404319552844595 (-52) /\
  (5 <= n -> n < times_val n 5404319552844595 (-52)).
Proof.
  split.
  - times_facts n 5404319552844595 (-52). apply Z.div_le_lower_bound; lia.
  - intros H5. destruct (Z.eq_dec n 5) as [E | N]; [rewrite E; vm_compute; reflexivity|].
    times_facts n 5404319552844595 (-52).
    apply Z.lt_le_trans with (n + 1); [lia|]. apply Z.div_le_lower_bound; lia.
Qed.

(** Multiplier 1.15. *)
Lemma times_1_15 : n <= times_val n 5179139571476070 (-52).
Proof.
  times_facts n 5179139571476070 (-52). apply Z.div_le_lower_bound; lia.
Qed.

End Factors.

End TimesVal.

(** * Exceptions, lists and the median *)

Section Results.

Lemma bind_Ret {A B : Type} (c : result A) (k : A -> result B) (b : B) :
  bind c k = Ret b -> exists a, c = Ret a /\ k a = Ret b.
Proof. destruct c as [e | a]; simpl; [discriminate|]. intros H. exists a. auto. Qed.

Lemma mapM_Ret {A B : Type} (f : A -> result B) (l : list A) (l' : list B) :
  mapM f l = Ret l' -> Forall2 (fun a b => f a = Ret b) l l'.
Proof.
  revert l'. induction l as [ | a l IH ]; simpl; intros l' H.
  - inversion H. constructor.
  - apply bind_Ret in H. destruct H as (b & Hb & H).
    apply bind_Ret in H. destruct H as (bs & Hbs & H).
    inversion H. subst. constructor; auto.
Qed.

End Results.

Section Lists.

Lemma getitem_nth {A : Type} (l : list A) (i : Z) (d : A) :
  0 <= i < Z.of_nat (length l) -> getitem l i = Ret (nth (Z.to_nat i) l d).
Proof.
  intros H. unfold getitem.
  replace (i <? 0) with false by (symmetry; apply Z.ltb_ge; lia).
  replace ((i <? 0) || (Z.of_nat (length l) <=? i)) with false.
  - destruct (nth_error l (Z.to_nat i)) eqn:E.
    + f_equal. symmetry. apply nth_error_nth. assumption.
    + apply nth_error_None in E. lia.
  - symmetry. apply orb_false_iff. split; [apply Z.ltb_ge|apply Z.leb_gt]; lia.
Qed.

Lemma getitem_In {A : Type} (l : list A) (i : Z) (x : A) :
  getitem l i = Ret x -> In x l.
Proof.
  unfold getitem. destruct (_ || _); [discriminate|].
  destruct (nth_error l _) eqn:E; [|discriminate].
  intros H. inversion H. subst. eapply nth_error_In. eassumption.
Qed.

Lemma getitem_exn {A : Type} (l : list A) (i : Z) (e : exn) :
  getitem l i = Raise e -> e = IndexError.
Proof.
  unfold getitem. destruct (_ || _); [congruence|].
  destruct (nth_error l _); congruence.
Qed.

Lemma getitem_short {A : Type} (l : list A) (i : Z) :
  0 <= i -> Z.of_nat (length l) <= i -> getitem l i = Raise IndexError.
Proof.
  intros H0 H. unfold getitem.
  replace (i <? 0) with false by (symmetry; apply Z.ltb_ge; lia).
  replace (Z.of_nat (length l) <=? i) with true by (symmetry; apply Z.leb_le; lia).
  rewrite orb_true_r. reflexivity.
Qed.

Lemma insert_length (x : Z) (l : list Z) : length (insert x l) = S (length l).
Proof. induction l as [ | y l IH ]; simpl; [reflexivity|]. destruct (x <=? y); simpl; congruence. Qed.

Lemma sorted_length (l : list Z) : length (sorted l) = length l.
Proof. induction l as [ | x l IH ]; simpl; [reflexivity|]. rewrite insert_length. congruence. Qed.

Lemma insert_perm (x : Z) (l : list Z) : Permutation (x :: l) (insert x l).
Proof.
  induction l as [ | y l IH ]; simpl; [reflexivity|].
  destruct (x <=? y); [reflexivity|].
  rewrite perm_swap. constructor. exact IH.
Qed.

Lemma sorted_perm (l : list Z) : Permutation l (sorted l).
Proof.
  induction l as [ | x l IH ]; simpl; [constructor|].
  rewrite <- insert_perm. constructor. exact IH.
Qed.

Lemma insert_sorted (x : Z) (l : list Z) :
  LocallySorted Z.le l -> LocallySorted Z.le (insert x l).
Proof.
  induction 1 as [ | a | a b l Hs IH Hab ]; simpl.
  - constructor.
  - destruct (Z.leb_spec x a); repeat constructor; lia.
  - simpl in IH. destruct (Z.leb_spec x a).
    + repeat constructor; auto.
    + destruct (Z.leb_spec x b); repeat constructor; auto; lia.
Qed.

Lemma sorted_sorted (l : list Z) : LocallySorted Z.le (sorted l).
Proof.
  induction l as [ | x l IH ]; simpl; [constructor|]. apply insert_sorted. exact IH.
Qed.

Lemma sorted_Forall (P : Z -> Prop) (l : list Z) : Forall P l -> Forall P (sorted l).
Proof.
  intros H. rewrite Forall_forall in *. intros x Hx. apply H.
  eapply Permutation_in; [|exact Hx]. symmetry. apply sorted_perm.
Qed.

End Lists.

Section Median.

(** [int(n / 2)] for a non-negative [int]. *)
Lemma int_half_cases (n : Z) :
  0 <= n ->
  (q <- int_truediv_2 n ;; int_of_float q) = Ret (RN n / 2) \/
  (q <- int_truediv_2 n ;; int_of_float q) = Raise OverflowError.
Proof.
  intros Hn. unfold int_truediv_2.
  destruct (Z.eq_dec n 0) as [-> | N]; [left; reflexivity|].
  assert (0 <= Z.log2 n) by apply Z.log2_nonneg.
  destruct (binary_normalize_spec n (-1) ltac:(lia) ltac:(lia)) as (m & e & L & V & B1 & B2 & E).
  rewrite E. destruct (e <=? 971); [|right; reflexivity].
  left. cbn [bind]. rewrite int_of_float_finite. f_equal.
  rewrite (dfloor_deq _ _ _ _ V). reflexivity.
Qed.

Lemma int_half_small (n : Z) :
  0 <= n < 2 ^ 53 -> (q <- int_truediv_2 n ;; int_of_float q) = Ret (n / 2).
Proof.
  intros Hn. unfold int_truediv_2.
  destruct (Z.eq_dec n 0) as [-> | N]; [reflexivity|].
  assert (0 <= Z.log2 n) by apply Z.log2_nonneg.
  assert (Z.log2 n < 53) by (apply Z.log2_lt_pow2; lia).
  destruct (binary_normalize_spec n (-1) ltac:(lia) ltac:(lia)) as (m & e & L & V & B1 & B2 & E).
  rewrite E. replace (e <=? 971) with true by (symmetry; apply Z.leb_le; lia).
  cbn [bind]. rewrite int_of_float_finite. f_equal.
  rewrite (dfloor_deq _ _ _ _ V). rewrite RN_small by lia. reflexivity.
Qed.

Lemma median_tip_unfold (col : list Z) :
  col <> [] ->
  let s := sorted col in
  let n := Z.of_nat (length col) in
  median_tip col =
  if n mod 2 =? 1 then Ret (nth (Z.to_nat (n / 2)) s 0)
  else q <- int_truediv_2 (nth (Z.to_nat (n / 2 - 1)) s 0 + nth (Z.to_nat (n / 2)) s 0) ;;
       int_of_float q.
Proof.
  intros Hne s n. unfold median_tip, statistics_median.
  rewrite sorted_length. fold s. fold n.
  assert (Hn : 1 <= n) by (destruct col; [congruence|unfold n; simpl length; lia]).
  replace (n =? 0) with false by (symmetry; apply Z.eqb_neq; lia).
  assert (Hl : Z.of_nat (length s) = n) by (unfold s; rewrite sorted_length; reflexivity).
  destruct (Z.eqb_spec (n mod 2) 1) as [Odd | Even].
  - rewrite (getitem_nth s (n / 2) 0).
    + reflexivity.
    + rewrite Hl. split; [apply Z.div_pos; lia|]. apply Z.div_lt_upper_bound; lia.
  - pose proof (Z.mod_pos_bound n 2 ltac:(lia)).
    pose proof (Z.div_mod n 2 ltac:(lia)).
    rewrite (getitem_nth s (n / 2 - 1) 0) by lia.
    rewrite (getitem_nth s (n / 2) 0) by lia.
    cbn [bind]. destruct (int_truediv_2 _); reflexivity.
Qed.

Lemma nth_Forall (P : Z -> Prop) (l : list Z) (i : nat) :
  Forall P l -> P 0 -> P (nth i l 0).
Proof.
  intros H H0. destruct (Nat.lt_ge_cases i (length l)).
  - rewrite Forall_forall in H. apply H. apply nth_In. assumption.
  - rewrite nth_overflow by assumption. assumption.
Qed.

Lemma median_tip_nonneg (col : list Z) (v : Z) :
  Forall (fun x => 0 <= x) col -> median_tip col = Ret v -> 0 <= v.
Proof.
  intros Hc H.
  destruct col as [ | x col ]; [discriminate|].
  rewrite median_tip_unfold in H by discriminate. cbv zeta in H.
  pose proof (sorted_Forall _ _ Hc) as Hs.
  destruct (_ =? 1).
  - inversion H. apply (nth_Forall (fun x => 0 <= x)); [assumption|cbv beta; lia].
  - match type of H with context [int_truediv_2 ?n] =>
      assert (Hn : 0 <= n);
      [|destruct (int_half_cases n Hn) as [E | E]; rewrite E in H; [|discriminate]]
    end.
    + pose proof (nth_Forall (fun x => 0 <= x) _ (Z.to_nat (Z.of_nat (length (x :: col)) / 2 - 1)) Hs ltac:(cbv beta; lia)).
      pose proof (nth_Forall (fun x => 0 <= x) _ (Z.to_nat (Z.of_nat (length (x :: col)) / 2)) Hs ltac:(cbv beta; lia)).
      simpl in *. lia.
    + inversion H. apply Z.div_pos; [apply RN_nonneg; exact Hn|lia].
Qed.

Lemma median_tip_small (col : list Z) :
  col <> [] -> Forall (fun x => 0 <= x < 2 ^ 52) col ->
  median_tip col = Ret (median_floor col).
Proof.
  intros Hne Hc. rewrite median_tip_unfold by assumption. cbv zeta. unfold median_floor.
  pose proof (sorted_Forall _ _ Hc) as Hs.
  destruct (_ =? 1); [reflexivity|].
  apply int_half_small.
  pose proof (nth_Forall (fun x => 0 <= x < 2 ^ 52) _ (Z.to_nat (Z.of_nat (length col) / 2 - 1)) Hs ltac:(cbv beta; lia)).
  pose proof (nth_Forall (fun x => 0 <= x < 2 ^ 52) _ (Z.to_nat (Z.of_nat (length col) / 2)) Hs ltac:(cbv beta; lia)).
  simpl in *. lia.
Qed.

End Median.

(** * The drift projector and the tier-ordering pass *)

Section Projector.

Lemma pow9_bounds (k : Z) : 0 <= k <= 16 -> 2 ^ (3 * k) <= 9 ^ k < 2 ^ 53 /\ 9 ^ k < 2 ^ (3 * k + 3).
Proof.
  intros Hk.
  assert (E : k = 0 \/ k = 1 \/ k = 2 \/ k = 3 \/ k = 4 \/ k = 5 \/ k = 6 \/ k = 7 \/ k = 8 \/
              k = 9 \/ k = 10 \/ k = 11 \/ k = 12 \/ k = 13 \/ k = 14 \/ k = 15 \/ k = 16) by lia.
  repeat (destruct E as [-> | E]; [vm_compute; intuition discriminate|]).
  subst k. vm_compute; intuition discriminate.
Qed.

Lemma pow8 (k : Z) : 0 <= k -> 2 ^ (3 * k) = 8 ^ k.
Proof. intros. rewrite Z.pow_mul_r by lia. reflexivity. Qed.

(** [math.pow(1.125, k)] is exact for [0 <= k <= 16]. *)
Lemma math_pow_spec (k : Z) :
  0 <= k <= 16 ->
  exists m e,
    math_pow_1_125 k = Ret (S754_finite false m e) /\
    deq (Zpos m) e (9 ^ k) (-3 * k) /\ -52 <= e /\ Z.log2 (Zpos m) + e <= 3.
Proof.
  intros Hk. destruct (pow9_bounds k Hk) as ([L U] & U').
  destruct (Z.eq_dec k 0) as [-> | N].
  { exists 4503599627370496%positive, (-52). repeat split; try (vm_compute; reflexivity);
      vm_compute; discriminate. }
  assert (L2 : 3 * k <= Z.log2 (9 ^ k) < 3 * k + 3).
  { split.
    - apply Z.log2_le_pow2; lia.
    - apply Z.log2_lt_pow2; lia. }
  destruct (binary_normalize_spec (9 ^ k) (-3 * k) ltac:(lia) ltac:(lia))
    as (m & e & Lm & V & B1 & B2 & E).
  exists m, e. rewrite RN_small in V by lia. repeat split; try lia; try assumption.
  unfold math_pow_1_125.
  assert (Ek : float_of_int k = Ret (float_of_Z k)).
  { assert (C : k = 1 \/ k = 2 \/ k = 3 \/ k = 4 \/ k = 5 \/ k = 6 \/ k = 7 \/ k = 8 \/
              k = 9 \/ k = 10 \/ k = 11 \/ k = 12 \/ k = 13 \/ k = 14 \/ k = 15 \/ k = 16) by lia.
    repeat (destruct C as [-> | C]; [reflexivity|]). subst k. reflexivity. }
  rewrite Ek. cbn [bind]. destruct k as [ | p | p ]; try lia.
  rewrite E. replace (e <=? 971) with true by (symmetry; apply Z.leb_le; lia).
  reflexivity.
Qed.

(** The projector in closed form. *)
Lemma calculate_max_base_fee_closed (base k : Z) :
  0 <= base < 2 ^ 960 -> 0 <= k <= 16 ->
  calculate_max_base_fee base k = Ret (RN (RN base * 9 ^ k) / 8 ^ k).
Proof.
  intros Hb Hk. unfold calculate_max_base_fee.
  destruct (math_pow_spec k Hk) as (m & e & E & V & Le & Lm).
  rewrite E. cbn [bind]. fold (int_times base (S754_finite false m e)).
  rewrite int_times_ret by lia. f_equal.
  unfold times_val.
  assert (D : deq (RN base * Z.pos m) e (RN base * 9 ^ k) (-3 * k)).
  { rewrite (Z.mul_comm (RN base) (Z.pos m)), (Z.mul_comm (RN base) (9 ^ k)).
    replace e with (e + 0) by lia. replace (-3 * k) with (-3 * k + 0) by lia.
    apply deq_mul. assumption. }
  apply deq_RN in D.
  - rewrite (dfloor_deq _ _ _ _ D). unfold dfloor.
    destruct (Z.leb_spec 0 (-3 * k)).
    + assert (k = 0) by lia. subst k. simpl. rewrite Z.mul_1_r, Z.div_1_r. reflexivity.
    + replace (- (-3 * k)) with (3 * k) by lia. rewrite pow8 by lia. reflexivity.
  - apply Z.mul_nonneg_nonneg; [apply RN_nonneg|]; lia.
  - apply Z.mul_nonneg_nonneg; [apply RN_nonneg; lia|]. apply Z.pow_nonneg; lia.
Qed.

(** Within one unit of the exact floor, from above; exact when the
    product fits 53 bits. *)
Lemma calculate_max_base_fee_bounds (base k : Z) :
  0 <= base -> 0 <= k <= 16 -> base * 9 ^ k < 2 ^ 53 * 8 ^ k ->
  exists v, calculate_max_base_fee base k = Ret v /\
            base * 9 ^ k / 8 ^ k <= v <= base * 9 ^ k / 8 ^ k + 1 /\
            (base * 9 ^ k < 2 ^ 53 -> v = base * 9 ^ k / 8 ^ k).
Proof.
  intros Hb Hk Hv.
  destruct (pow9_bounds k Hk) as ([L U] & U').
  rewrite pow8 in L by lia.
  assert (P8 : 0 < 8 ^ k) by (apply Z.pow_pos_nonneg; lia).
  assert (Hb53 : base < 2 ^ 53) by nia.
  exists (RN (RN base * 9 ^ k) / 8 ^ k).
  split; [apply calculate_max_base_fee_closed; lia|].
  rewrite (RN_small base) by lia.
  set (X := base * 9 ^ k) in *.
  assert (HX : 0 <= X) by (unfold X; apply Z.mul_nonneg_nonneg; lia).
  set (F := X / 8 ^ k).
  assert (HF : 0 <= F < 2 ^ 53).
  { split; [apply Z.div_pos; lia|]. apply Z.div_lt_upper_bound; lia. }
  pose proof (Z.mul_div_le X (8 ^ k) P8) as Lo. fold F in Lo.
  pose proof (Z.mul_succ_div_gt X (8 ^ k) P8) as Hi. fold F in Hi.
  split; [split|].
  - apply Z.div_le_lower_bound; [lia|].
    replace (8 ^ k * F) with (RN (F * 2 ^ (3 * k)))
      by (rewrite RN_exact, pow8 by lia; ring).
    rewrite pow8 by lia.
    apply RN_mono; [|lia]. apply Z.mul_nonneg_nonneg; lia.
  - apply Z.div_le_upper_bound; [lia|].
    assert (E : RN ((F + 1) * 8 ^ k) = (F + 1) * 8 ^ k).
    { rewrite <- pow8 by lia. destruct (Z.eq_dec (F + 1) (2 ^ 53)) as [E53 | N53].
      - rewrite E53, <- Z.pow_add_r by lia.
        replace (2 ^ (53 + 3 * k)) with (1 * 2 ^ (53 + 3 * k)) by lia.
        apply RN_exact; lia.
      - apply RN_exact; lia. }
    rewrite Z.mul_comm, <- E. apply RN_mono; lia.
  - intros S. rewrite RN_small by lia. reflexivity.
Qed.

Lemma calculate_max_base_fee_2 (base : Z) :
  calculate_max_base_fee base 2 = int_times base (S754_finite false 5699868278390784 (-52)).
Proof. unfold calculate_max_base_fee. rewrite math_pow_2. reflexivity. Qed.
Lemma calculate_max_base_fee_4 (base : Z) :
  calculate_max_base_fee base 4 = int_times base (S754_finite false 7213895789838336 (-52)).
Proof. unfold calculate_max_base_fee. rewrite math_pow_4. reflexivity. Qed.
Lemma calculate_max_base_fee_6 (base : Z) :
  calculate_max_base_fee base 6 = int_times base (S754_finite false 4565043429507072 (-51)).
Proof. unfold calculate_max_base_fee. rewrite math_pow_6. reflexivity. Qed.
Lemma calculate_max_base_fee_10 (base : Z) :
  calculate_max_base_fee base 10 = int_times base (S754_finite false 7312316880125952 (-51)).
Proof. unfold calculate_max_base_fee. rewrite math_pow_10. reflexivity. Qed.

End Projector.

Section Scaling.

(** When [int(n * c)] returns, it returns the closed form. *)
Lemma int_times_Ret (n : Z) (mc : positive) (ec v : Z) :
  0 <= n -> -1022 <= ec ->
  int_times n (S754_finite false mc ec) = Ret v -> v = times_val n (Zpos mc) ec.
Proof.
  intros Hn Hec H. destruct (int_times_cases n mc ec Hn Hec) as [E | E]; congruence.
Qed.

End Scaling.

Section Pass.

(** After "enforce minimum improvement" the tips do not decrease from
    one tier to the next. *)
Lemma enforce_minimum_improvement_ordered (a b c d a' b' c' d' : Z) :
  0 <= a ->
  enforce_minimum_improvement a b c d = Ret (a', b', c', d') ->
  a' = a /\ a <= b' /\ b' <= c' /\ c' <= d' /\ 1 <= b'.
Proof.
  intros Ha H. unfold enforce_minimum_improvement in H.
  rewrite literal_1_2, literal_1_15 in H.
  apply bind_Ret in H. destruct H as (b1 & Hb & H).
  apply bind_Ret in H. destruct H as (c1 & Hc & H).
  apply bind_Ret in H. destruct H as (d1 & Hd & H).
  inversion H. subst a' b' c' d'. clear H.
  assert (Bb : a <= b1 /\ 1 <= b1).
  { destruct (Z.leb_spec b a).
    - destruct (Z.ltb_spec 0 a).
      + apply int_times_Ret in Hb; try lia. pose proof (times_1_2 a Ha) as [? _]. lia.
      + inversion Hb. lia.
    - inversion Hb. lia. }
  assert (Bc : b1 <= c1).
  { destruct (Z.leb_spec c b1).
    - apply int_times_Ret in Hc; try lia. pose proof (times_1_15 b1 ltac:(lia)). lia.
    - inversion Hc. lia. }
  assert (Bd : c1 <= d1).
  { destruct (Z.leb_spec d c1).
    - destruct (Z.ltb_spec 0 c1).
      + apply int_times_Ret in Hd; try lia. pose proof (times_1_2 c1 ltac:(lia)) as [? _]. lia.
      + inversion Hd. lia.
    - inversion Hd. lia. }
  lia.
Qed.

Lemma congestion_multiplier_cases (avg : float) :
  congestion_multiplier avg = S754_finite false 8556839292003942 (-53) \/
  congestion_multiplier avg = S754_finite false 5629499534213120 (-52) \/
  congestion_multiplier avg = S754_finite false 4503599627370496 (-52).
Proof.
  unfold congestion_multiplier. rewrite literal_0_95, literal_1_25, literal_1_0.
  destruct (flt avg _); [auto|]. destruct (flt _ avg); auto.
Qed.

End Pass.

(** * The four-tier script *)

Section FourTiers.

Lemma column_unsigned (rewards : list (list Z)) (i : Z) (col : list Z) :
  Forall (Forall (fun x => 0 <= x)) rewards ->
  mapM (fun r => getitem r i) rewards = Ret col ->
  Forall (fun x => 0 <= x) col.
Proof.
  intros Hr H. apply mapM_Ret in H.
  induction H as [ | r x rs xs Hx _ IH ]; [constructor|].
  inversion Hr as [ | ? ? Hr1 Hr2 ]; subst. constructor; [|auto].
  apply getitem_In in Hx. rewrite Forall_forall in Hr1. auto.
Qed.

Lemma congestion_scaling_mono (avg : float) (a b a' b' : Z) :
  0 <= a -> a <= b ->
  int_times a (congestion_multiplier avg) = Ret a' ->
  int_times b (congestion_multiplier avg) = Ret b' ->
  a' <= b'.
Proof.
  intros Ha Hab Ea Eb.
  destruct (congestion_multiplier_cases avg) as [E | [E | E]]; rewrite E in Ea, Eb;
    apply int_times_Ret in Ea; try lia; apply int_times_Ret in Eb; try lia;
    subst a' b'; apply times_val_mono; lia.
Qed.

Lemma projections_ordered (nb b2 b4 b6 b10 : Z) :
  0 <= nb ->
  calculate_max_base_fee nb 2 = Ret b2 ->
  calculate_max_base_fee nb 4 = Ret b4 ->
  calculate_max_base_fee nb 6 = Ret b6 ->
  calculate_max_base_fee nb 10 = Ret b10 ->
  0 <= b2 /\ b2 <= b4 /\ b4 <= b6 /\ b6 <= b10.
Proof.
  intros Hnb E2 E4 E6 E10.
  rewrite calculate_max_base_fee_2 in E2. rewrite calculate_max_base_fee_4 in E4.
  rewrite calculate_max_base_fee_6 in E6. rewrite calculate_max_base_fee_10 in E10.
  apply int_times_Ret in E2; try lia. apply int_times_Ret in E4; try lia.
  apply int_times_Ret in E6; try lia. apply int_times_Ret in E10; try lia.
  subst.
  pose proof (times_val_unit nb 4565043429507072 (-51) 1 Hnb ltac:(lia) ltac:(lia)) as U6.
  pose proof (times_val_unit nb 7312316880125952 (-51) 1 Hnb ltac:(lia) ltac:(lia)) as U10.
  change (-51 - 1) with (-52) in *.
  change (4565043429507072 * 2 ^ 1) with 9130086859014144 in U6.
  change (7312316880125952 * 2 ^ 1) with 14624633760251904 in U10.
  rewrite <- U6, <- U10.
  repeat split.
  - apply times_val_nonneg; lia.
  - apply times_val_mono_c; lia.
  - apply times_val_mono_c; lia.
  - apply times_val_mono_c; lia.
Qed.

(** The four statements of the script after the medians, inverted. *)
Lemma predict_fees_Ret (d : FeeHistory) (r : Tiers) :
  predict_fees d = Ret r ->
  exists nb t30 t60 t75 t90 m30 m60 m75 m90 p30 p60 p75 p90 avg b2 b4 b6 b10,
    getitem (baseFeePerGas d) (-1) = Ret nb /\
    mapM (fun r => getitem r 0) (reward d) = Ret t30 /\
    mapM (fun r => getitem r 1) (reward d) = Ret t60 /\
    mapM (fun r => getitem r 2) (reward d) = Ret t75 /\
    mapM (fun r => getitem r 3) (reward d) = Ret t90 /\
    median_tip t30 = Ret m30 /\ median_tip t60 = Ret m60 /\
    median_tip t75 = Ret m75 /\ median_tip t90 = Ret m90 /\
    enforce_minimum_improvement m30 m60 m75 m90 = Ret (p30, p60, p75, p90) /\
    avg_congestion (gasUsedRatio d) = Ret avg /\
    int_times p30 (congestion_multiplier avg) = Ret (median_tip_30 r) /\
    int_times p60 (congestion_multiplier avg) = Ret (median_tip_60 r) /\
    int_times p75 (congestion_multiplier avg) = Ret (median_tip_75 r) /\
    int_times p90 (congestion_multiplier avg) = Ret (median_tip_90 r) /\
    calculate_max_base_fee nb 2 = Ret b2 /\
    calculate_max_base_fee nb 4 = Ret b4 /\
    calculate_max_base_fee nb 6 = Ret b6 /\
    calculate_max_base_fee nb 10 = Ret b10 /\
    max_fee_saver r = b2 + median_tip_30 r /\
    max_fee_std r = b4 + median_tip_60 r /\
    max_fee_rec r = b6 + median_tip_75 r /\
    max_fee_urgent r = b10 + median_tip_90 r.
Proof.
  intros H. unfold predict_fees in H.
  apply bind_Ret in H. destruct H as (nb & Hnb & H).
  apply bind_Ret in H. destruct H as (t30 & Ht30 & H).
  apply bind_Ret in H. destruct H as (t60 & Ht60 & H).
  apply bind_Ret in H. destruct H as (t75 & Ht75 & H).
  apply bind_Ret in H. destruct H as (t90 & Ht90 & H).
  apply bind_Ret in H. destruct H as (m30 & Hm30 & H).
  apply bind_Ret in H. destruct H as (m60 & Hm60 & H).
  apply bind_Ret in H. destruct H as (m75 & Hm75 & H).
  apply bind_Ret in H. destruct H as (m90 & Hm90 & H).
  apply bind_Ret in H. destruct H as ([[[p30 p60] p75] p90] & Hp & H).
  apply bind_Ret in H. destruct H as (avg & Havg & H).
  apply bind_Ret in H. destruct H as (a30 & Ha30 & H).
  apply bind_Ret in H. destruct H as (a60 & Ha60 & H).
  apply bind_Ret in H. destruct H as (a75 & Ha75 & H).
  apply bind_Ret in H. destruct H as (a90 & Ha90 & H).
  apply bind_Ret in H. destruct H as (b2 & Hb2 & H).
  apply bind_Ret in H. destruct H as (b4 & Hb4 & H).
  apply bind_Ret in H. destruct H as (b6 & Hb6 & H).
  apply bind_Ret in H. destruct H as (b10 & Hb10 & H).
  inversion H. subst r. clear H. cbn [median_tip_30 median_tip_60 median_tip_75 median_tip_90
    max_fee_saver max_fee_std max_fee_rec max_fee_urgent].
  exists nb, t30, t60, t75, t90, m30, m60, m75, m90, p30, p60, p75, p90, avg, b2, b4, b6, b10.
  repeat split; assumption.
Qed.

End FourTiers.

Section Returns.

Lemma getitem_last {A : Type} (l : list A) :
  l <> [] -> exists x, getitem l (-1) = Ret x.
Proof.
  intros Hne. unfold getitem. replace (-1 <? 0) with true by reflexivity.
  set (n := Z.of_nat (length l)).
  assert (1 <= n) by (destruct l; [congruence|unfold n; simpl length; lia]).
  replace ((-1 + n <? 0) || (n <=? -1 + n)) with false.
  - destruct (nth_error l (Z.to_nat (-1 + n))) eqn:En; [eauto|].
    apply nth_error_None in En. unfold n in *. lia.
  - symmetry. apply orb_false_iff. split; [apply Z.ltb_ge|apply Z.leb_gt]; lia.
Qed.

Lemma mapM_getitem_total (l : list (list Z)) (i : Z) (P : Z -> Prop) :
  0 <= i -> Forall (fun r => i < Z.of_nat (length r)) l -> Forall (Forall P) l ->
  exists col, mapM (fun r => getitem r i) l = Ret col /\
              length col = length l /\ Forall P col.
Proof.
  intros Hi Hl HP. induction l as [ | r l IH ]; simpl.
  - exists []. repeat split; constructor.
  - inversion Hl as [ | ? ? Hr Hl' ]; subst. inversion HP as [ | ? ? Pr HP' ]; subst.
    destruct (IH Hl' HP') as (col & E & L & F).
    rewrite (getitem_nth r i 0) by lia. rewrite E. cbn [bind].
    exists (nth (Z.to_nat i) r 0 :: col). repeat split; [simpl; congruence|].
    constructor; [|assumption].
    rewrite Forall_forall in Pr. apply Pr. apply nth_In. lia.
Qed.

Lemma int_half_ret (n : Z) :
  0 <= n < 2 ^ 1000 -> (q <- int_truediv_2 n ;; int_of_float q) = Ret (RN n / 2).
Proof.
  intros Hn. unfold int_truediv_2.
  destruct (Z.eq_dec n 0) as [-> | N]; [reflexivity|].
  assert (0 <= Z.log2 n) by apply Z.log2_nonneg.
  assert (Z.log2 n < 1000) by (apply Z.log2_lt_pow2; lia).
  destruct (binary_normalize_spec n (-1) ltac:(lia) ltac:(lia)) as (m & e & L & V & B1 & B2 & E).
  rewrite E. replace (e <=? 971) with true by (symmetry; apply Z.leb_le; lia).
  cbn [bind]. rewrite int_of_float_finite. f_equal.
  rewrite (dfloor_deq _ _ _ _ V). reflexivity.
Qed.

Lemma median_tip_ret (col : list Z) (k : Z) :
  col <> [] -> 0 <= k <= 990 -> Forall (fun x => 0 <= x < 2 ^ k) col ->
  exists m, median_tip col = Ret m /\ 0 <= m < 2 ^ (k + 1).
Proof.
  intros Hne Hk Hc. rewrite median_tip_unfold by assumption. cbv zeta.
  pose proof (sorted_Forall _ _ Hc) as Hs.
  assert (P0 : 0 < 2 ^ k) by (apply pow2_pos; lia).
  assert (P1 : 2 ^ (k + 1) = 2 * 2 ^ k) by (rewrite Z.pow_add_r by lia; lia).
  destruct (_ =? 1).
  - eexists. split; [reflexivity|].
    pose proof (nth_Forall (fun x => 0 <= x < 2 ^ k) _
                  (Z.to_nat (Z.of_nat (length col) / 2)) Hs ltac:(cbv beta; lia)) as A.
    cbv beta in A. lia.
  - pose proof (nth_Forall (fun x => 0 <= x < 2 ^ k) _
                  (Z.to_nat (Z.of_nat (length col) / 2 - 1)) Hs ltac:(cbv beta; lia)) as A.
    pose proof (nth_Forall (fun x => 0 <= x < 2 ^ k) _
                  (Z.to_nat (Z.of_nat (length col) / 2)) Hs ltac:(cbv beta; lia)) as B.
    cbv beta in A, B.
    set (a := nth (Z.to_nat (Z.of_nat (length col) / 2 - 1)) (sorted col) 0) in *.
    set (b := nth (Z.to_nat (Z.of_nat (length col) / 2)) (sorted col) 0) in *.
    assert (2 ^ (k + 1) <= 2 ^ 1000) by (apply Z.pow_le_mono_r; lia).
    rewrite int_half_ret by lia.
    eexists. split; [reflexivity|].
    pose proof (RN_nonneg (a + b) ltac:(lia)).
    pose proof (RN_error (a + b) ltac:(lia)) as [_ U].
    split; [apply Z.div_pos; lia|]. apply Z.div_lt_upper_bound; [lia|].
    change (2 ^ 53) with 9007199254740992 in U. lia.
Qed.

(** The three raising factors at most double a tip. *)
Lemma times_at_most_double (n mc : Z) :
  0 <= n -> 0 <= mc <= 5629499534213120 -> times_val n mc (-52) <= 2 * n.
Proof.
  intros Hn Hc.
  apply Z.le_trans with (times_val n 5629499534213120 (-52)).
  - apply times_val_mono_c; lia.
  - destruct (times_val_facts n 5629499534213120 (-52) ltac:(lia) ltac:(lia) ltac:(lia))
      as (F & ? & ? & ? & ? & ?).
    rewrite F. change (2 ^ (- -52)) with 4503599627370496.
    change (2 ^ 53) with 9007199254740992 in *.
    apply Z.div_le_upper_bound; lia.
Qed.

Lemma int_times_bounded (n : Z) (mc : positive) (k : Z) :
  0 <= k <= 950 -> 0 <= n < 2 ^ k -> Zpos mc <= 5629499534213120 ->
  exists v, int_times n (S754_finite false mc (-52)) = Ret v /\ 0 <= v < 2 ^ (k + 1).
Proof.
  intros Hk Hn Hc.
  assert (P0 : 0 < 2 ^ k) by (apply pow2_pos; lia).
  assert (P1 : 2 ^ (k + 1) = 2 * 2 ^ k) by (rewrite Z.pow_add_r by lia; lia).
  assert (2 ^ k <= 2 ^ 960) by (apply Z.pow_le_mono_r; lia).
  assert (Z.log2 (Z.pos mc) <= 52).
  { apply Z.lt_succ_r. apply Z.log2_lt_pow2; [lia|].
    apply Z.le_lt_trans with 5629499534213120; [lia|reflexivity]. }
  exists (times_val n (Zpos mc) (-52)). split.
  - apply int_times_ret; lia.
  - split; [apply times_val_nonneg; lia|].
    pose proof (times_at_most_double n (Zpos mc) ltac:(lia) ltac:(lia)). lia.
Qed.

Lemma enforce_minimum_improvement_ret (a b c d k : Z) :
  0 <= k <= 940 ->
  0 <= a < 2 ^ k -> 0 <= b < 2 ^ k -> 0 <= c < 2 ^ k -> 0 <= d < 2 ^ k -> 30 <= k ->
  exists b' c' d',
    enforce_minimum_improvement a b c d = Ret (a, b', c', d') /\
    0 <= b' < 2 ^ (k + 1) /\ 0 <= c' < 2 ^ (k + 2) /\ 0 <= d' < 2 ^ (k + 3).
Proof.
  intros Hk Ha Hb Hc Hd H30.
  assert (P0 : 0 < 2 ^ k) by (apply pow2_pos; lia).
  assert (P1 : 2 ^ (k + 1) = 2 * 2 ^ k) by (rewrite Z.pow_add_r by lia; lia).
  assert (P2 : 2 ^ (k + 2) = 4 * 2 ^ k) by (rewrite Z.pow_add_r by lia; lia).
  assert (P3 : 2 ^ (k + 3) = 8 * 2 ^ k) by (rewrite Z.pow_add_r by lia; lia).
  assert (Q3 : 2 ^ 31 <= 2 ^ (k + 1)) by (apply Z.pow_le_mono_r; lia).
  change (2 ^ 31) with 2147483648 in Q3.
  unfold enforce_minimum_improvement. rewrite literal_1_2, literal_1_15.
  assert (Eb : exists b', (if b <=? a
                           then if 0 <? a
                                then int_times a (S754_finite false 5404319552844595 (-52))
                                else Ret 1000000000
                           else Ret b) = Ret b' /\ 0 <= b' < 2 ^ (k + 1)).
  { destruct (b <=? a); [destruct (0 <? a)|].
    - apply int_times_bounded; lia.
    - eexists. split; [reflexivity|]. lia.
    - eexists. split; [reflexivity|]. lia. }
  destruct Eb as (b' & Eb & Bb). rewrite Eb. cbn [bind].
  assert (Ec : exists c', (if c <=? b'
                           then int_times b' (S754_finite false 5179139571476070 (-52))
                           else Ret c) = Ret c' /\ 0 <= c' < 2 ^ (k + 2)).
  { destruct (c <=? b').
    - replace (k + 2) with (k + 1 + 1) by lia. apply int_times_bounded; lia.
    - eexists. split; [reflexivity|]. lia. }
  destruct Ec as (c' & Ec & Bc). rewrite Ec. cbn [bind].
  assert (Ed : exists d', (if d <=? c'
                           then if 0 <? c'
                                then int_times c' (S754_finite false 5404319552844595 (-52))
                                else Ret 1500000000
                           else Ret d) = Ret d' /\ 0 <= d' < 2 ^ (k + 3)).
  { destruct (d <=? c'); [destruct (0 <? c')|].
    - replace (k + 3) with (k + 2 + 1) by lia. apply int_times_bounded; lia.
    - eexists. split; [reflexivity|]. lia.
    - eexists. split; [reflexivity|]. lia. }
  destruct Ed as (d' & Ed & Bd). rewrite Ed. cbn [bind].
  exists b', c', d'. repeat split; lia.
Qed.

Lemma avg_congestion_ret (ratios : list float) :
  ratios <> [] -> Z.of_nat (length ratios) < 2 ^ 53 ->
  exists avg, avg_congestion ratios = Ret avg.
Proof.
  intros Hne Hl. unfold avg_congestion. destruct ratios as [ | x l ]; [congruence|].
  unfold float_div_int.
  set (n := Z.of_nat (length (x :: l))) in *.
  assert (1 <= n) by (unfold n; simpl length; lia).
  destruct (float_of_int_spec n ltac:(lia)) as (m & e & L & V & B1 & B2 & E).
  assert (Z.log2 n < 53) by (apply Z.log2_lt_pow2; lia).
  rewrite E. replace (e <=? 971) with true by (symmetry; apply Z.leb_le; lia).
  cbn [bind]. eauto.
Qed.

Lemma congestion_scaling_ret (avg : float) (n k : Z) :
  0 <= k <= 950 -> 0 <= n < 2 ^ k ->
  exists v, int_times n (congestion_multiplier avg) = Ret v.
Proof.
  intros Hk Hn.
  assert (2 ^ k <= 2 ^ 960) by (apply Z.pow_le_mono_r; lia).
  destruct (congestion_multiplier_cases avg) as [E | [E | E]]; rewrite E;
    eexists; apply int_times_ret; try lia; cbn; lia.
Qed.

(** The four-tier script produces its table on every valid sample with
    fewer than [2^53] blocks and fees below [2^900]. *)
Lemma predict_fees_returns (d : FeeHistory) :
  valid_sample 4 d ->
  Z.of_nat (length (reward d)) < 2 ^ 53 ->
  Forall (fun x => x < 2 ^ 900) (baseFeePerGas d) ->
  Forall (Forall (fun x => x < 2 ^ 900)) (reward d) ->
  exists r, predict_fees d = Ret r.
Proof.
  intros [V1 V2 V3 V4 V5 V6 _] Hl Hb Hr.
  assert (Rb : Forall (Forall (fun x => 0 <= x < 2 ^ 900)) (reward d)).
  { rewrite Forall_forall in *. intros r Hin. specialize (V6 r Hin). specialize (Hr r Hin).
    rewrite Forall_forall in *. intros x Hx. split; auto. }
  assert (Rl : forall i, 0 <= i < 4 -> Forall (fun r => i < Z.of_nat (length r)) (reward d)).
  { intros i Hi. rewrite Forall_forall in *. intros r Hin. rewrite (V4 r Hin). lia. }
  assert (Ne : reward d <> []) by (destruct (reward d); [simpl in V1; lia|discriminate]).
  assert (Col : forall i, 0 <= i < 4 ->
            exists col m, mapM (fun r => getitem r i) (reward d) = Ret col /\
                          median_tip col = Ret m /\ 0 <= m < 2 ^ 901).
  { intros i Hi.
    destruct (mapM_getitem_total (reward d) i _ ltac:(lia) (Rl i Hi) Rb) as (col & E & L & F).
    assert (col <> []) by (destruct col; [destruct (reward d); [congruence|discriminate]|discriminate]).
    destruct (median_tip_ret col 900 ltac:(assumption) ltac:(lia) F) as (m & Em & Bm).
    exists col, m. repeat split; try assumption; lia. }
  unfold predict_fees.
  destruct (getitem_last (baseFeePerGas d)) as (nb & Enb).
  { destruct (baseFeePerGas d); [discriminate|discriminate]. }
  assert (Bnb : 0 <= nb < 2 ^ 900).
  { apply getitem_In in Enb. rewrite Forall_forall in V5, Hb. split; auto. }
  rewrite Enb. cbn [bind].
  destruct (Col 0 ltac:(lia)) as (c0 & m0 & E0 & M0 & B0). rewrite E0. cbn [bind].
  destruct (Col 1 ltac:(lia)) as (c1 & m1 & E1 & M1 & B1). rewrite E1. cbn [bind].
  destruct (Col 2 ltac:(lia)) as (c2 & m2 & E2 & M2 & B2). rewrite E2. cbn [bind].
  destruct (Col 3 ltac:(lia)) as (c3 & m3 & E3 & M3 & B3). rewrite E3. cbn [bind].
  rewrite M0, M1, M2, M3. cbn [bind].
  destruct (enforce_minimum_improvement_ret m0 m1 m2 m3 901) as (b' & c' & d' & Ep & Bb & Bc & Bd);
    try lia.
  rewrite Ep. cbn [bind].
  destruct (avg_congestion_ret (gasUsedRatio d)) as (avg & Ea).
  { destruct (gasUsedRatio d); [simpl in V3; lia|discriminate]. }
  { rewrite V3. assumption. }
  rewrite Ea. cbn [bind].
  change (901 + 1) with 902 in Bb. change (901 + 2) with 903 in Bc. change (901 + 3) with 904 in Bd.
  destruct (congestion_scaling_ret avg m0 901 ltac:(lia) ltac:(lia)) as (a0 & A0).
  destruct (congestion_scaling_ret avg b' 902 ltac:(lia) ltac:(lia)) as (a1 & A1).
  destruct (congestion_scaling_ret avg c' 903 ltac:(lia) ltac:(lia)) as (a2 & A2).
  destruct (congestion_scaling_ret avg d' 904 ltac:(lia) ltac:(lia)) as (a3 & A3).
  rewrite A0, A1, A2, A3. cbn [bind].
  assert (Bnb' : 0 <= nb < 2 ^ 960).
  { split; [lia|]. apply Z.lt_trans with (2 ^ 900); [lia|reflexivity]. }
  rewrite !calculate_max_base_fee_closed by (assumption || lia).
  cbn [bind]. eauto.
Qed.

End Returns.

(** * The one-estimate script *)

Section Sum.

Lemma shl_align_fst (m : positive) (e ez : Z) :
  ez <= e -> Zpos (fst (shl_align m e ez)) = Zpos m * 2 ^ (e - ez).
Proof.
  intros H. unfold shl_align. destruct (ez - e) as [ | q | q ] eqn:E; cbn [fst].
  - replace (e - ez) with 0 by lia. rewrite Z.pow_0_r. lia.
  - lia.
  - rewrite Pos_iter_xO. do 2 f_equal. lia.
Qed.

Lemma deq_add (m1 e1 m2 e2 A B E : Z) :
  deq m1 e1 A E -> deq m2 e2 B E ->
  deq (m1 * 2 ^ (e1 - Z.min e1 e2) + m2 * 2 ^ (e2 - Z.min e1 e2)) (Z.min e1 e2) (A + B) E.
Proof.
  intros H1 H2. set (ez := Z.min e1 e2).
  assert (D1 : deq (m1 * 2 ^ (e1 - ez)) ez A E).
  { eapply deq_trans; [|exact H1].
    replace ez with (e1 - (e1 - ez)) at 2 by lia. apply deq_shift. lia. }
  assert (D2 : deq (m2 * 2 ^ (e2 - ez)) ez B E).
  { eapply deq_trans; [|exact H2].
    replace ez with (e2 - (e2 - ez)) at 2 by lia. apply deq_shift. lia. }
  unfold deq in *. rewrite !Z.mul_add_distr_r. congruence.
Qed.

(** The sum of two positive floats. *)
Lemma fadd_spec (m1 m2 : positive) (e1 e2 : Z) :
  let ez := Z.min e1 e2 in
  let S := Zpos m1 * 2 ^ (e1 - ez) + Zpos m2 * 2 ^ (e2 - ez) in
  -1074 <= Z.log2 S + 1 + ez - 53 ->
  exists m e,
    deq (Zpos m) e (RN S) ez /\ e + 52 <= ez + Z.log2 S + 1 /\
    fadd (S754_finite false m1 e1) (S754_finite false m2 e2) =
    if e <=? 971 then S754_finite false m e else S754_infinity false.
Proof.
  intros ez S Hn.
  assert (P1 : 0 < 2 ^ (e1 - ez)) by (apply pow2_pos; unfold ez; lia).
  assert (P2 : 0 < 2 ^ (e2 - ez)) by (apply pow2_pos; unfold ez; lia).
  assert (HS : 0 < S) by (unfold S; nia).
  destruct (binary_normalize_spec S ez HS Hn) as (m & e & L & V & B1 & B2 & E).
  exists m, e. repeat split; try assumption.
  unfold fadd, SFadd. cbn [cond_Zopp]. fold ez.
  rewrite !shl_align_fst by (unfold ez; lia). exact E.
Qed.

End Sum.

Section OneTier.

(** [int(nb * c + tip)] when the product and the sum are exact. *)
Lemma cap_exact (nb tip : Z) (mc : positive) (ec : Z) :
  0 <= nb < 2 ^ 53 -> 0 <= tip < 2 ^ 53 ->
  -60 <= ec <= 0 -> Z.log2 (Zpos mc) + ec <= 60 ->
  RN (nb * Zpos mc) = nb * Zpos mc ->
  RN (nb * Zpos mc + tip * 2 ^ (- ec)) = nb * Zpos mc + tip * 2 ^ (- ec) ->
  (p <- int_mul_float nb (S754_finite false mc ec) ;;
   s <- float_add_int p tip ;;
   int_of_float s) = Ret (dfloor (nb * Zpos mc) ec + tip).
Proof.
  intros Hnb Htip Hec Hmc X1 X2.
  assert (Pe : 0 < 2 ^ (- ec)) by (apply pow2_pos; lia).
  assert (Tip : dfloor (tip * 2 ^ (- ec)) ec = tip).
  { unfold dfloor. destruct (Z.leb_spec 0 ec).
    - replace ec with 0 by lia. simpl. lia.
    - apply Z.div_mul. lia. }
  assert (Sum : dfloor (nb * Zpos mc + tip * 2 ^ (- ec)) ec = dfloor (nb * Zpos mc) ec + tip).
  { unfold dfloor. destruct (Z.leb_spec 0 ec).
    - replace ec with 0 by lia. simpl. lia.
    - apply Z.div_add. lia. }
  assert (Ftip : 1 <= tip -> exists m2 e2,
             float_of_int tip = Ret (S754_finite false m2 e2) /\
             Z.log2 (Zpos m2) = 52 /\ deq (Zpos m2) e2 tip 0 /\ -52 <= e2 <= 1).
  { intros T. destruct (float_of_int_spec tip T) as (m2 & e2 & L2 & V2 & B2 & B2' & E2).
    assert (Z.log2 tip < 53) by (apply Z.log2_lt_pow2; lia).
    assert (0 <= Z.log2 tip) by apply Z.log2_nonneg.
    exists m2, e2. rewrite RN_small in V2 by lia.
    rewrite E2. replace (e2 <=? 971) with true by (symmetry; apply Z.leb_le; lia).
    repeat split; try assumption; lia. }
  unfold int_mul_float.
  destruct (Z.eq_dec nb 0) as [-> | Nnb].
  { (* no base fee: the product is 0.0 *)
    assert (Z0 : dfloor (0 * Z.pos mc) ec = 0).
    { change (0 * Z.pos mc) with 0. unfold dfloor.
      destruct (0 <=? ec); [reflexivity|]. apply Z.div_0_l. lia. }
    rewrite Z0.
    rewrite float_of_int_0. cbn [bind fmul SFmul xorb]. unfold float_add_int.
    destruct (Z.eq_dec tip 0) as [-> | Ntip].
    - rewrite float_of_int_0. reflexivity.
    - destruct (Ftip ltac:(lia)) as (m2 & e2 & E2 & L2 & V2 & B2).
      rewrite E2. cbn [bind fadd SFadd]. rewrite int_of_float_finite.
      rewrite (dfloor_deq _ _ _ _ V2). unfold dfloor. simpl. f_equal. lia. }
  destruct (float_of_int_spec nb ltac:(lia)) as (m1 & e1 & L1 & V1 & B1 & B1' & E1).
  assert (Z.log2 nb < 53) by (apply Z.log2_lt_pow2; lia).
  assert (0 <= Z.log2 nb) by apply Z.log2_nonneg.
  rewrite RN_small in V1 by lia.
  rewrite E1. replace (e1 <=? 971) with true by (symmetry; apply Z.leb_le; lia).
  cbn [bind].
  assert (Lp : Z.log2 (Z.pos m1) + Z.log2 (Z.pos mc) <= Z.log2 (Z.pos m1 * Z.pos mc)).
  { apply Z.log2_mul_below; lia. }
  assert (Lq : Z.log2 (Z.pos m1 * Z.pos mc) <= Z.log2 (Z.pos m1) + Z.log2 (Z.pos mc) + 1).
  { apply Z.log2_mul_above; lia. }
  assert (0 <= Z.log2 (Z.pos mc)) by apply Z.log2_nonneg.
  destruct (fmul_spec m1 mc e1 ec ltac:(lia)) as (m & e & V & B & L & L' & E).
  specialize (L' ltac:(lia)).
  rewrite E. replace (e <=? 971) with true by (symmetry; apply Z.leb_le; lia).
  assert (Vp : deq (Z.pos m) e (nb * Z.pos mc) ec).
  { eapply deq_trans; [exact V|]. rewrite <- X1. apply deq_RN; try lia.
    replace ec with (0 + ec) at 2 by lia. apply deq_mul. exact V1. }
  unfold float_add_int.
  destruct (Z.eq_dec tip 0) as [-> | Ntip].
  { rewrite float_of_int_0. cbn [bind fadd SFadd]. rewrite int_of_float_finite.
    rewrite (dfloor_deq _ _ _ _ Vp). f_equal. lia. }
  destruct (Ftip ltac:(lia)) as (m2 & e2 & E2 & L2 & V2 & B2).
  rewrite E2. cbn [bind].
  assert (He : -112 <= e <= 64).
  { split; [|lia].
    (* the product is at least [2^(e1+ec)] times [2^104] *)
    destruct (Z.le_gt_cases (-112) e) as [ | G]; [assumption|exfalso].
    pose proof (proj1 (deq_iff _ _ _ _) V (Z.min e (e1 + ec)) ltac:(lia) ltac:(lia)) as Q.
    replace (Z.min e (e1 + ec)) with e in Q by lia.
    replace (e - e) with 0 in Q by lia. rewrite Z.pow_0_r, Z.mul_1_r in Q.
    pose proof (log2_bounds (Z.pos m) ltac:(lia)) as [_ Um]. rewrite L' in Um.
    assert (Pm : 2 ^ 52 * 2 ^ 0 <= Z.pos m1 * Z.pos mc).
    { pose proof (log2_bounds (Z.pos m1) ltac:(lia)) as [Lm1 _]. rewrite L1 in Lm1. nia. }
    pose proof (RN_ge_small (2 ^ 52) (Z.pos m1 * Z.pos mc) ltac:(lia) ltac:(lia)) as R.
    assert (2 ^ 1 <= 2 ^ (e1 + ec - e)) by (apply Z.pow_le_mono_r; lia).
    change (52 + 1) with 53 in Um. nia. }
  pose proof (fadd_spec m m2 e e2) as FA. cbv zeta in FA.
  set (ez := Z.min e e2) in *.
  set (S := Z.pos m * 2 ^ (e - ez) + Z.pos m2 * 2 ^ (e2 - ez)) in *.
  assert (P1 : 0 < 2 ^ (e - ez)) by (apply pow2_pos; unfold ez; lia).
  assert (P2 : 0 < 2 ^ (e2 - ez)) by (apply pow2_pos; unfold ez; lia).
  assert (HS : 0 < S) by (unfold S; nia).
  assert (LS : 0 <= Z.log2 S < 54 + Z.max e e2 - ez).
  { split; [apply Z.log2_nonneg|]. apply Z.log2_lt_pow2; [assumption|].
    pose proof (log2_bounds (Z.pos m) ltac:(lia)) as [_ Um]. rewrite L' in Um.
    pose proof (log2_bounds (Z.pos m2) ltac:(lia)) as [_ Um2]. rewrite L2 in Um2.
    change (52 + 1) with 53 in *.
    assert (2 ^ (e - ez) <= 2 ^ (Z.max e e2 - ez)) by (apply Z.pow_le_mono_r; unfold ez; lia).
    assert (2 ^ (e2 - ez) <= 2 ^ (Z.max e e2 - ez)) by (apply Z.pow_le_mono_r; unfold ez; lia).
    replace (54 + Z.max e e2 - ez) with (54 + (Z.max e e2 - ez)) by lia.
    rewrite Z.pow_add_r by (unfold ez; lia). unfold S. change (2 ^ 54) with (2 * 2 ^ 53). nia. }
  destruct (FA ltac:(unfold ez in *; lia)) as (m' & e' & V' & B' & E').
  rewrite E'. replace (e' <=? 971) with true by (symmetry; apply Z.leb_le; unfold ez in *; lia).
  rewrite int_of_float_finite. f_equal. rewrite <- Sum.
  apply dfloor_deq. eapply deq_trans; [exact V'|]. rewrite <- X2.
  apply deq_RN; [lia|apply Z.add_nonneg_nonneg; apply Z.mul_nonneg_nonneg; lia|].
  apply deq_add; [exact Vp|].
  eapply deq_trans; [exact V2|]. apply deq_sym.
  replace ec with (0 - (- ec)) at 2 by lia. apply deq_shift. lia.
Qed.

(** Multiplier 2.0. *)
Lemma cap_2_0 (nb tip : Z) :
  0 <= nb -> 0 <= tip -> 2 * nb + tip < 2 ^ 53 ->
  (p <- int_mul_float nb (literal 20 10) ;; s <- float_add_int p tip ;; int_of_float s)
  = Ret (2 * nb + tip) /\
  int_times nb (literal 20 10) = Ret (2 * nb).
Proof.
  intros Hnb Htip H. rewrite literal_2_0.
  assert (E1 : RN (nb * 4503599627370496) = nb * 4503599627370496).
  { change 4503599627370496 with (2 ^ 52). apply RN_exact; lia. }
  assert (D : dfloor (nb * 4503599627370496) (-51) = 2 * nb).
  { unfold dfloor. cbn [Z.leb Z.compare Z.opp].
    change 4503599627370496 with (2 * 2 ^ 51). rewrite Z.mul_assoc. rewrite Z.div_mul; lia. }
  split.
  - rewrite cap_exact; [rewrite D; reflexivity|lia|lia|lia|cbn; lia|exact E1|].
    change (2 ^ (- -51)) with (2 ^ 51). change 4503599627370496 with (2 * 2 ^ 51).
    replace (nb * (2 * 2 ^ 51) + tip * 2 ^ 51) with ((2 * nb + tip) * 2 ^ 51) by ring.
    apply RN_exact; lia.
  - rewrite int_times_ret;
      [|split; [lia|apply Z.lt_trans with (2 ^ 53); [lia|reflexivity]]|lia|cbn; lia].
    unfold times_val. rewrite (RN_small nb) by lia. rewrite E1, D. reflexivity.
Qed.

(** Multiplier 1.5. *)
Lemma cap_1_5 (nb tip : Z) :
  0 <= nb -> 0 <= tip -> 3 * nb + 2 * tip < 2 ^ 53 ->
  (p <- int_mul_float nb (literal 15 10) ;; s <- float_add_int p tip ;; int_of_float s)
  = Ret (3 * nb / 2 + tip) /\
  int_times nb (literal 15 10) = Ret (3 * nb / 2).
Proof.
  intros Hnb Htip H. rewrite literal_1_5.
  assert (E1 : RN (nb * 6755399441055744) = nb * 6755399441055744).
  { change 6755399441055744 with (3 * 2 ^ 51). rewrite Z.mul_assoc. apply RN_exact; lia. }
  assert (D : dfloor (nb * 6755399441055744) (-52) = 3 * nb / 2).
  { unfold dfloor. cbn [Z.leb Z.compare Z.opp].
    change 6755399441055744 with (3 * 2 ^ 51). change (2 ^ 52) with (2 * 2 ^ 51).
    rewrite Z.mul_assoc. rewrite Z.div_mul_cancel_r by lia. f_equal. lia. }
  split.
  - rewrite cap_exact; [rewrite D; reflexivity|lia|lia|lia|cbn; lia|exact E1|].
    change (2 ^ (- -52)) with (2 ^ 52). change 6755399441055744 with (3 * 2 ^ 51).
    change (2 ^ 52) with (2 * 2 ^ 51).
    replace (nb * (3 * 2 ^ 51) + tip * (2 * 2 ^ 51)) with ((3 * nb + 2 * tip) * 2 ^ 51) by ring.
    apply RN_exact; lia.
  - rewrite int_times_ret;
      [|split; [lia|apply Z.lt_trans with (2 ^ 53); [lia|reflexivity]]|lia|cbn; lia].
    unfold times_val. rewrite (RN_small nb) by lia. rewrite E1, D. reflexivity.
Qed.

End OneTier.

Section Malformed.

Lemma getitem_Ret_length {A : Type} (l : list A) (i : Z) (x : A) :
  0 <= i -> getitem l i = Ret x -> i < Z.of_nat (length l).
Proof.
  intros Hi H. destruct (Z.lt_ge_cases i (Z.of_nat (length l))) as [ | G]; [assumption|].
  rewrite getitem_short in H by lia. discriminate.
Qed.

Lemma mapM_getitem_exn {A : Type} (l : list (list A)) (i : Z) (e : exn) :
  mapM (fun r => getitem r i) l = Raise e -> e = IndexError.
Proof.
  induction l as [ | r l IH ]; simpl; [discriminate|].
  destruct (getitem r i) eqn:E; simpl.
  - intros H. inversion H. subst. eapply getitem_exn. eassumption.
  - destruct (mapM _ l); simpl; [|discriminate]. intros H. inversion H. subst. auto.
Qed.

Lemma mapM_getitem_length {A : Type} (l : list (list A)) (i : Z) (col : list A) :
  0 <= i -> mapM (fun r => getitem r i) l = Ret col ->
  Forall (fun r => i < Z.of_nat (length r)) l.
Proof.
  intros Hi H. apply mapM_Ret in H.
  induction H as [ | r x rs xs Hx _ IH ]; constructor; [|assumption].
  eapply getitem_Ret_length; eassumption.
Qed.

Lemma short_tuple_raises {A B : Type} (l : list (list A)) (i : Z) (k : list A -> result B) :
  0 <= i -> (exists r, In r l /\ Z.of_nat (length r) <= i) ->
  (col <- mapM (fun r => getitem r i) l ;; k col) = Raise IndexError.
Proof.
  intros Hi (r & Hin & Hr).
  destruct (mapM (fun r => getitem r i) l) as [e | col] eqn:E; simpl.
  - f_equal. eapply mapM_getitem_exn. eassumption.
  - apply mapM_getitem_length in E; [|assumption].
    rewrite Forall_forall in E. specialize (E r Hin). lia.
Qed.

End Malformed.

Section OneEstimate.

Lemma calculate_fees_Ret (h : FeeHistory) (r : Estimate) :
  calculate_fees h = Ret r ->
  exists newest oldest cols m p s,
    getitem (baseFeePerGas h) (-1) = Ret (base_fee_next r) /\
    getitem (slice (baseFeePerGas h) (-6) (-1)) (-1) = Ret newest /\
    getitem (slice (baseFeePerGas h) (-6) (-1)) 0 = Ret oldest /\
    mapM (fun r => getitem r 1) (reward h) = Ret cols /\
    median_tip cols = Ret m /\
    avg_congestion (gasUsedRatio h) = Ret (congestion r) /\
    congestion_adjust (congestion r) m = Ret (priority_fee_suggested r) /\
    int_mul_float (base_fee_next r)
      (if negb (oldest <? newest) && flt (congestion r) (literal 5 10)
       then literal 15 10 else literal 20 10) = Ret p /\
    float_add_int p (priority_fee_suggested r) = Ret s /\
    int_of_float s = Ret (max_fee_per_gas r).
Proof.
  intros H. unfold calculate_fees in H.
  apply bind_Ret in H. destruct H as (nb & Hnb & H).
  apply bind_Ret in H. destruct H as (newest & Hn & H).
  apply bind_Ret in H. destruct H as (oldest & Ho & H).
  apply bind_Ret in H. destruct H as (cols & Hc & H).
  apply bind_Ret in H. destruct H as (m & Hm & H).
  apply bind_Ret in H. destruct H as (avg & Ha & H).
  apply bind_Ret in H. destruct H as (tip & Ht & H).
  apply bind_Ret in H. destruct H as (p & Hp & H).
  apply bind_Ret in H. destruct H as (s & Hs & H).
  apply bind_Ret in H. destruct H as (cap & Hcap & H).
  inversion H. subst r. clear H.
  cbn [base_fee_next priority_fee_suggested max_fee_per_gas congestion].
  exists newest, oldest, cols, m, p, s. repeat split; assumption.
Qed.

Lemma congestion_adjust_nonneg (avg : float) (m p : Z) :
  0 <= m -> congestion_adjust avg m = Ret p -> 0 <= p.
Proof.
  intros Hm H. unfold congestion_adjust in H. rewrite literal_1_2, literal_0_9 in H.
  destruct (flt _ avg); [|destruct (flt avg _)].
  - apply int_times_Ret in H; try lia. subst. apply times_val_nonneg; lia.
  - apply int_times_Ret in H; try lia. subst. apply times_val_nonneg; lia.
  - inversion H. lia.
Qed.

End OneEstimate.

Section Samples.

Lemma sample_rising_valid : valid_sample 4 sample_rising.
Proof.
  constructor;
    [ vm_compute; lia | reflexivity | reflexivity | repeat constructor
    | repeat constructor; vm_compute; discriminate
    | repeat constructor; vm_compute; discriminate
    | repeat constructor ].
Qed.

Lemma sample_rising_3_valid : valid_sample 3 sample_rising_3.
Proof.
  constructor;
    [ vm_compute; lia | reflexivity | reflexivity | repeat constructor
    | repeat constructor; vm_compute; discriminate
    | repeat constructor; vm_compute; discriminate
    | repeat constructor ].
Qed.

Lemma sample_gwei_valid : valid_sample 4 sample_gwei.
Proof.
  constructor;
    [ vm_compute; lia | reflexivity | reflexivity | repeat constructor
    | repeat constructor; vm_compute; discriminate
    | repeat constructor; vm_compute; discriminate
    | repeat constructor ].
Qed.

Lemma sample_huge_valid : valid_sample 3 sample_huge.
Proof.
  constructor;
    [ vm_compute; lia | reflexivity | reflexivity | repeat constructor
    | repeat constructor; vm_compute; discriminate
    | repeat constructor; vm_compute; discriminate
    | repeat constructor ].
Qed.

End Samples.

(** * Decoding the answer

    What links the scripts on the answer as received to the models on
    the decoded fee history. *)

Section Decoding.

Lemma nth_error_Forall2 {A B : Type} (R : A -> B -> Prop) (l : list A) (l' : list B) :
  Forall2 R l l' ->
  forall j, match nth_error l j, nth_error l' j with
            | Some a, Some b => R a b
            | None, None => True
            | _, _ => False
            end.
Proof.
  intros H. induction H as [ | a b l l' Hab _ IH ]; intros [ | j ]; cbn; auto. apply IH.
Qed.

(** Reading an entry and decoding it, against reading it in the decoded
    tuple. *)
Lemma getitem_decoded (r : list string) (r' : list Z) (i : Z) :
  mapM int_16 r = Ret r' -> (x <- getitem r i ;; int_16 x) = getitem r' i.
Proof.
  intros H. apply mapM_Ret in H.
  pose proof (Forall2_length H) as L.
  pose proof (nth_error_Forall2 _ _ _ H) as N.
  unfold getitem. rewrite <- L.
  destruct ((_ <? 0) || (_ <=? _)); [reflexivity|].
  specialize (N (Z.to_nat (if i <? 0 then i + Z.of_nat (List.length r) else i))).
  destruct (nth_error r _); destruct (nth_error r' _); try contradiction;
    cbn [bind]; [assumption|reflexivity].
Qed.

Lemma column_decoded (rewards : list (list string)) (rewards' : list (list Z)) (i : Z) :
  mapM (mapM int_16) rewards = Ret rewards' ->
  mapM (fun r => x <- getitem r i ;; int_16 x) rewards = mapM (fun r => getitem r i) rewards'.
Proof.
  intros H. apply mapM_Ret in H.
  induction H as [ | r r' l l' Hr _ IH ]; [reflexivity|].
  cbn [mapM]. rewrite (getitem_decoded r r' i Hr), IH. reflexivity.
Qed.

Lemma float_of_int_ret (n : Z) :
  0 <= n < 2 ^ 1000 -> exists f, float_of_int n = Ret f.
Proof.
  intros H. destruct (Z.eq_dec n 0) as [-> | N]; [eexists; apply float_of_int_0|].
  destruct (float_of_int_spec n ltac:(lia)) as (m & e & L & V & B1 & B2 & E).
  assert (Z.log2 n < 1000) by (apply Z.log2_lt_pow2; lia).
  rewrite E. replace (e <=? 971) with true by (symmetry; apply Z.leb_le; lia). eauto.
Qed.

Lemma fmt_gwei_ret (wei : Z) : 0 <= wei < 2 ^ 1000 -> exists f, fmt_gwei wei = Ret f.
Proof.
  intros H. unfold fmt_gwei, int_div_float.
  destruct (float_of_int_ret wei H) as (x & E). rewrite E. cbn [bind].
  destruct (float_of_Z (10 ^ 9)) eqn:F; try (vm_compute in F; discriminate); eauto.
Qed.

Lemma Forall2_In_l {A B : Type} (R : A -> B -> Prop) (l : list A) (l' : list B) (a : A) :
  Forall2 R l l' -> In a l -> exists b, In b l' /\ R a b.
Proof.
  intros H. induction H as [ | x y l l' Hxy _ IH ]; intros Hin; [destruct Hin|].
  destruct Hin as [-> | Hin].
  - exists y. split; [left; reflexivity|assumption].
  - destruct (IH Hin) as (b & Hb & Rb). exists b. split; [right; assumption|assumption].
Qed.

(** A short tuple of the answer is a short tuple of the decoded
    rewards. *)
Lemma decoded_short_tuple (raw : list (list string)) (rewards : list (list Z)) (n : nat) :
  mapM (mapM int_16) raw = Ret rewards ->
  (exists r, In r raw /\ (length r < n)%nat) ->
  exists r, In r rewards /\ (length r < n)%nat.
Proof.
  intros H (r & Hin & Hr). apply mapM_Ret in H.
  destruct (Forall2_In_l _ _ _ r H Hin) as (r' & Hin' & E).
  exists r'. split; [assumption|].
  apply mapM_Ret in E. apply Forall2_length in E. lia.
Qed.

(** The decoded models on a malformed sample: an empty base-fee
    sequence or a reward tuple that is too short raises [IndexError], no
    reward tuple at all raises [StatisticsError] in [predict_fees]. *)
Lemma decoded_malformed_raises (d : FeeHistory) :
  (baseFeePerGas d = [] \/ (exists r, In r (reward d) /\ (length r < 4)%nat) ->
   predict_fees d = Raise IndexError) /\
  (baseFeePerGas d = [] \/ (exists r, In r (reward d) /\ (length r < 2)%nat) ->
   calculate_fees d = Raise IndexError) /\
  (baseFeePerGas d <> [] -> reward d = [] -> predict_fees d = Raise StatisticsError).
Proof.
  split; [|split].
  - intros H. unfold predict_fees.
    destruct (getitem (baseFeePerGas d) (-1)) as [e | nb] eqn:Eb; simpl.
    { f_equal. eapply getitem_exn. eassumption. }
    destruct H as [H | (r & Hin & Hr)].
    { rewrite H in Eb. discriminate. }
    destruct (mapM (fun r => getitem r 0) (reward d)) as [e | c0] eqn:E0; simpl.
    { f_equal. eapply mapM_getitem_exn. eassumption. }
    destruct (mapM (fun r => getitem r 1) (reward d)) as [e | c1] eqn:E1; simpl.
    { f_equal. eapply mapM_getitem_exn. eassumption. }
    destruct (mapM (fun r => getitem r 2) (reward d)) as [e | c2] eqn:E2; simpl.
    { f_equal. eapply mapM_getitem_exn. eassumption. }
    apply short_tuple_raises; [lia|]. exists r. split; [assumption|lia].
  - intros H. unfold calculate_fees.
    destruct (getitem (baseFeePerGas d) (-1)) as [e | nb] eqn:Eb; simpl.
    { f_equal. eapply getitem_exn. eassumption. }
    destruct H as [H | (r & Hin & Hr)].
    { rewrite H in Eb. discriminate. }
    destruct (getitem (slice (baseFeePerGas d) (-6) (-1)) (-1)) as [e | newest] eqn:En; simpl.
    { f_equal. eapply getitem_exn. eassumption. }
    destruct (getitem (slice (baseFeePerGas d) (-6) (-1)) 0) as [e | oldest] eqn:Eo; simpl.
    { f_equal. eapply getitem_exn. eassumption. }
    apply short_tuple_raises; [lia|]. exists r. split; [assumption|lia].
  - intros Hb Hr. unfold predict_fees. rewrite Hr.
    destruct (getitem (baseFeePerGas d) (-1)) as [e | nb] eqn:Eb; simpl; [|reflexivity].
    exfalso. destruct (baseFeePerGas d) as [ | x l ] eqn:El; [congruence|].
    unfold getitem in Eb.
    replace (-1 <? 0) with true in Eb by reflexivity.
    set (n := Z.of_nat (length (x :: l))) in *.
    assert (1 <= n) by (unfold n; simpl length; lia).
    replace ((-1 + n <? 0) || (n <=? -1 + n)) with false in Eb.
    + destruct (nth_error (x :: l) (Z.to_nat (-1 + n))) eqn:En; [discriminate|].
      apply nth_error_None in En. unfold n in *. lia.
    + symmetry. apply orb_false_iff. split; [apply Z.ltb_ge|apply Z.leb_gt]; lia.
Qed.

End Decoding.

(** * The claims *)

(** ** C1: the fee cap *)

(** C1, as amended.  Four-tier variant: for every valid sample on which
    the script produces its table, each tier's cap is the projector's
    value for that tier's horizon (2, 4, 6, 10 blocks) plus the tier's
    congestion-adjusted tip; for a next base fee below [2^51] that value
    is [floor(base * 1.125^k)] or one more.  (The one-estimate variant
    projects nothing: its cap is a multiple of the base fee plus the
    tip.) *)
Theorem fee_cap_composition (d : FeeHistory) (r : Tiers) :
  valid_sample 4 d -> predict_fees d = Ret r ->
  exists nb b2 b4 b6 b10,
    getitem (baseFeePerGas d) (-1) = Ret nb /\
    calculate_max_base_fee nb 2 = Ret b2 /\
    calculate_max_base_fee nb 4 = Ret b4 /\
    calculate_max_base_fee nb 6 = Ret b6 /\
    calculate_max_base_fee nb 10 = Ret b10 /\
    max_fee_saver r = b2 + median_tip_30 r /\
    max_fee_std r = b4 + median_tip_60 r /\
    max_fee_rec r = b6 + median_tip_75 r /\
    max_fee_urgent r = b10 + median_tip_90 r /\
    (nb < 2 ^ 51 ->
     nb * 9 ^ 2 / 8 ^ 2 <= b2 <= nb * 9 ^ 2 / 8 ^ 2 + 1 /\
     nb * 9 ^ 4 / 8 ^ 4 <= b4 <= nb * 9 ^ 4 / 8 ^ 4 + 1 /\
     nb * 9 ^ 6 / 8 ^ 6 <= b6 <= nb * 9 ^ 6 / 8 ^ 6 + 1 /\
     nb * 9 ^ 10 / 8 ^ 10 <= b10 <= nb * 9 ^ 10 / 8 ^ 10 + 1).
Proof.
  intros V H. apply predict_fees_Ret in H.
  destruct H as (nb & t30 & t60 & t75 & t90 & m30 & m60 & m75 & m90 & p30 & p60 & p75 & p90 &
                 avg & b2 & b4 & b6 & b10 & Hnb & Ht30 & Ht60 & Ht75 & Ht90 & Hm30 & Hm60 &
                 Hm75 & Hm90 & Hp & Havg & Ha30 & Ha60 & Ha75 & Ha90 & Hb2 & Hb4 & Hb6 & Hb10 &
                 F1 & F2 & F3 & F4).
  destruct V as [_ _ _ _ Vb _ _].
  assert (Nnb : 0 <= nb).
  { apply getitem_In in Hnb. rewrite Forall_forall in Vb. auto. }
  exists nb, b2, b4, b6, b10. repeat split; try assumption;
    match goal with
    | |- context [9 ^ ?k] =>
        let B := fresh "B" in
        let W := fresh "W" in
        assert (W : nb * 9 ^ k < 2 ^ 53 * 8 ^ k)
          by (change (2 ^ 51) with 2251799813685248 in *; cbn; lia);
        destruct (calculate_max_base_fee_bounds nb k Nnb ltac:(lia) W) as (v & E & B & _);
        first [rewrite Hb2 in E | rewrite Hb4 in E | rewrite Hb6 in E | rewrite Hb10 in E];
        inversion E; subst v; lia
    end.
Qed.

(** C1, witness: the ten rising blocks; the Standard cap is 320 + 2. *)
Lemma fee_cap_composition_witness :
  valid_sample 4 sample_rising /\
  predict_fees sample_rising = Ret rising_tiers /\
  calculate_max_base_fee 200 4 = Ret 320 /\
  max_fee_std rising_tiers = 320 + median_tip_60 rising_tiers.
Proof.
  assert (E : predict_fees sample_rising = Ret rising_tiers) by (vm_compute; reflexivity).
  split; [exact sample_rising_valid|]. split; [exact E|].
  destruct (fee_cap_composition sample_rising rising_tiers sample_rising_valid E)
    as (nb & b2 & b4 & b6 & b10 & Hnb & _ & Hb4 & _ & _ & _ & F & _).
  vm_compute in Hnb. inversion Hnb. subst nb.
  split; [vm_compute; reflexivity|].
  vm_compute in Hb4. inversion Hb4. subst b4. exact F.
Defined.

(** C1, counterexample.  The one-estimate variant on ten rising blocks:
    the cap is 402 with a tip of 2, and no horizon of 0 to 16 blocks
    projects the base fee 200 to 400.  The four-tier variant on a base
    fee of about one gwei: the Urgent cap is one above
    [floor(base * 1.125^10)] plus the tip. *)
Lemma fee_cap_composition_counterexample :
  (valid_sample 3 sample_rising_3 /\
   exists r, calculate_fees sample_rising_3 = Ret r /\
             base_fee_next r = 200 /\ priority_fee_suggested r = 2 /\
             max_fee_per_gas r = 402 /\
             forall k, 0 <= k <= 16 ->
                       calculate_max_base_fee (base_fee_next r) k
                       <> Ret (max_fee_per_gas r - priority_fee_suggested r)) /\
  (valid_sample 4 sample_gwei /\
   exists r, predict_fees sample_gwei = Ret r /\
             max_fee_urgent r <> 1001740113 * 9 ^ 10 / 8 ^ 10 + median_tip_90 r).
Proof.
  split.
  - split; [exact sample_rising_3_valid|].
    eexists. split; [vm_compute; reflexivity|].
    cbn [base_fee_next priority_fee_suggested max_fee_per_gas].
    repeat split. intros k Hk.
    assert (E : k = 0 \/ k = 1 \/ k = 2 \/ k = 3 \/ k = 4 \/ k = 5 \/ k = 6 \/ k = 7 \/
                k = 8 \/ k = 9 \/ k = 10 \/ k = 11 \/ k = 12 \/ k = 13 \/ k = 14 \/
                k = 15 \/ k = 16) by lia.
    repeat (destruct E as [-> | E]; [vm_compute; discriminate|]).
    subst k. vm_compute. discriminate.
  - split; [exact sample_gwei_valid|].
    eexists. split; [vm_compute; reflexivity|]. vm_compute. discriminate.
Qed.

(** ** C2: the drift projector and the floor *)

(** C2, as amended.  For [0 <= k <= 16] and a base fee whose projection
    stays below [2^53], the projector returns [floor(base * 1.125^k)] or
    that number plus one, and exactly the floor when [base * 9^k] fits 53
    bits; for base 200 and [k = 4] it returns 320. *)
Theorem projector_floor (base k : Z) :
  0 <= base -> 0 <= k <= 16 -> base * 9 ^ k < 2 ^ 53 * 8 ^ k ->
  (exists v, calculate_max_base_fee base k = Ret v /\
             base * 9 ^ k / 8 ^ k <= v <= base * 9 ^ k / 8 ^ k + 1 /\
             (base * 9 ^ k < 2 ^ 53 -> v = base * 9 ^ k / 8 ^ k)) /\
  calculate_max_base_fee 200 4 = Ret 320.
Proof.
  intros Hb Hk Hv. split.
  - apply calculate_max_base_fee_bounds; assumption.
  - vm_compute. reflexivity.
Qed.

(** C2, witness: a base fee of 20 gwei projected ten blocks ahead. *)
Lemma projector_floor_witness :
  0 <= 20000000000 /\ 0 <= 10 <= 16 /\ 20000000000 * 9 ^ 10 < 2 ^ 53 * 8 ^ 10 /\
  exists v, calculate_max_base_fee 20000000000 10 = Ret v /\
            20000000000 * 9 ^ 10 / 8 ^ 10 <= v <= 20000000000 * 9 ^ 10 / 8 ^ 10 + 1.
Proof.
  split; [lia|]. split; [lia|]. split; [reflexivity|].
  destruct (proj1 (projector_floor 20000000000 10 ltac:(lia) ltac:(lia) ltac:(reflexivity)))
    as (v & E & B & _).
  exists v. split; assumption.
Defined.

(** C2, counterexample: a base fee of about one gwei projected ten blocks
    ahead comes out one above the floor. *)
Lemma projector_floor_counterexample :
  calculate_max_base_fee 1001740113 10 = Ret 3252971731 /\
  1001740113 * 9 ^ 10 / 8 ^ 10 = 3252971730 /\
  calculate_max_base_fee 1001740113 10 <> Ret (1001740113 * 9 ^ 10 / 8 ^ 10).
Proof.
  split; [vm_compute; reflexivity|]. split; [vm_compute; reflexivity|].
  vm_compute. discriminate.
Qed.

(** ** C3: the tier-ordering pass *)

(** C3.  With smoothed tips 100 and 101 the pass changes nothing, and the
    Standard tip stays below 1.2 times the Saver tip; the final table
    shows the same two tips. *)
Theorem minimum_improvement_not_enforced :
  enforce_minimum_improvement 100 101 200 300 = Ret (100, 101, 200, 300) /\
  int_times 100 (literal 12 10) = Ret 120 /\ ~ 120 <= 101 /\
  exists r, predict_fees sample_close_tips = Ret r /\
            median_tip_30 r = 100 /\ median_tip_60 r = 101.
Proof.
  split; [vm_compute; reflexivity|]. split; [vm_compute; reflexivity|].
  split; [lia|].
  eexists. split; [vm_compute; reflexivity|]. split; reflexivity.
Qed.

(** ** C4: the congestion adjustment *)

(** C4, as amended.  For a tip below [2^53]: between the thresholds the
    tip is unchanged; below the low threshold it does not grow, and
    shrinks when it is at least 1; above the high threshold it does not
    shrink, and grows when it is at least 4 (four tiers, factor 1.25) or
    5 (one estimate, factor 1.2). *)
Theorem congestion_adjustment (ratios : list float) (avg : float) (t : Z) :
  avg_congestion ratios = Ret avg -> 0 <= t < 2 ^ 53 ->
  (exists t', int_times t (congestion_multiplier avg) = Ret t' /\
     (flt avg (literal 45 100) = true -> t' <= t /\ (1 <= t -> t' < t)) /\
     (flt avg (literal 45 100) = false -> flt (literal 80 100) avg = true ->
      t <= t' /\ (4 <= t -> t < t')) /\
     (flt avg (literal 45 100) = false -> flt (literal 80 100) avg = false -> t' = t)) /\
  (exists t', congestion_adjust avg t = Ret t' /\
     (flt (literal 8 10) avg = true -> t <= t' /\ (5 <= t -> t < t')) /\
     (flt (literal 8 10) avg = false -> flt avg (literal 3 10) = true ->
      t' <= t /\ (1 <= t -> t' < t)) /\
     (flt (literal 8 10) avg = false -> flt avg (literal 3 10) = false -> t' = t)).
Proof.
  intros _ Ht.
  assert (Hb : 0 <= t < 2 ^ 960).
  { split; [lia|]. apply Z.lt_trans with (2 ^ 53); [lia|reflexivity]. }
  split.
  - unfold congestion_multiplier. rewrite literal_0_95, literal_1_25, literal_1_0.
    destruct (flt avg (literal 45 100)); [|destruct (flt (literal 80 100) avg)].
    + eexists. split; [apply int_times_ret; [assumption|lia|cbn; lia]|].
      repeat split; try discriminate; intros; apply times_0_95; lia.
    + eexists. split; [apply int_times_ret; [assumption|lia|cbn; lia]|].
      repeat split; try discriminate; intros; apply times_1_25; lia.
    + eexists. split; [apply int_times_ret; [assumption|lia|cbn; lia]|].
      repeat split; try discriminate. intros _ _.
      rewrite times_1_0 by lia. apply RN_small. lia.
  - unfold congestion_adjust. rewrite literal_1_2, literal_0_9.
    destruct (flt (literal 8 10) avg); [|destruct (flt avg (literal 3 10))].
    + eexists. split; [apply int_times_ret; [assumption|lia|cbn; lia]|].
      repeat split; try discriminate; intros; apply times_1_2; lia.
    + eexists. split; [apply int_times_ret; [assumption|lia|cbn; lia]|].
      repeat split; try discriminate; intros; apply times_0_9; lia.
    + exists t. repeat split; try discriminate.
Qed.

(** C4, witness: a tip of 1000 under 90% utilization. *)
Lemma congestion_adjustment_witness :
  avg_congestion [literal 9 10; literal 9 10] = Ret (literal 9 10) /\ 0 <= 1000 < 2 ^ 53 /\
  exists t', int_times 1000 (congestion_multiplier (literal 9 10)) = Ret t' /\ 1000 < t'.
Proof.
  assert (A : avg_congestion [literal 9 10; literal 9 10] = Ret (literal 9 10))
    by (vm_compute; reflexivity).
  assert (B : 0 <= 1000 < 2 ^ 53) by (split; [discriminate|reflexivity]).
  split; [exact A|]. split; [exact B|].
  destruct (proj1 (congestion_adjustment _ _ 1000 A B)) as (t' & E & _ & Hi & _).
  exists t'. split; [exact E|].
  apply Hi; [vm_compute; reflexivity|vm_compute; reflexivity|lia].
Defined.

(** C4, counterexample: under a surge a tip of 1 stays 1; under a
    discount a tip of 0 stays 0; and between the thresholds the four-tier
    script turns a tip of [2^53 + 1] into [2^53]. *)
Lemma congestion_adjustment_counterexample :
  (avg_congestion [literal 9 10] = Ret (literal 9 10) /\
   flt (literal 80 100) (literal 9 10) = true /\
   exists t', int_times 1 (congestion_multiplier (literal 9 10)) = Ret t' /\ ~ 1 < t') /\
  (avg_congestion [literal 25 100] = Ret (literal 25 100) /\
   flt (literal 25 100) (literal 45 100) = true /\
   exists t', int_times 0 (congestion_multiplier (literal 25 100)) = Ret t' /\ ~ t' < 0) /\
  (avg_congestion [literal 5 10] = Ret (literal 5 10) /\
   flt (literal 5 10) (literal 45 100) = false /\
   flt (literal 80 100) (literal 5 10) = false /\
   exists t', int_times (2 ^ 53 + 1) (congestion_multiplier (literal 5 10)) = Ret t' /\
              t' <> 2 ^ 53 + 1).
Proof.
  split; [|split].
  - split; [vm_compute; reflexivity|]. split; [vm_compute; reflexivity|].
    exists 1. split; [vm_compute; reflexivity|lia].
  - split; [vm_compute; reflexivity|]. split; [vm_compute; reflexivity|].
    exists 0. split; [vm_compute; reflexivity|lia].
  - split; [vm_compute; reflexivity|]. split; [vm_compute; reflexivity|].
    split; [vm_compute; reflexivity|].
    exists (2 ^ 53). split; [vm_compute; reflexivity|]. vm_compute. discriminate.
Qed.

(** ** C5: the smoother *)

(** C5, as amended.  For a non-empty column of values below [2^52] the
    smoother returns the median of the column truncated to an integer:
    the middle element of the sorted column for an odd count, the floor
    of the mean of the two middle elements for an even count.  The
    column 1..10 gives 5. *)
Theorem smoother_median (col : list Z) :
  col <> [] -> Forall (fun x => 0 <= x < 2 ^ 52) col ->
  median_tip col = Ret (median_floor col) /\
  LocallySorted Z.le (sorted col) /\ Permutation col (sorted col) /\
  median_tip [1; 2; 3; 4; 5; 6; 7; 8; 9; 10] = Ret 5.
Proof.
  intros Hne Hc. split; [apply median_tip_small; assumption|].
  split; [apply sorted_sorted|]. split; [apply sorted_perm|].
  vm_compute. reflexivity.
Qed.

(** C5, witness: four tips, median 6. *)
Lemma smoother_median_witness :
  [7; 3; 9; 5] <> [] /\ Forall (fun x => 0 <= x < 2 ^ 52) [7; 3; 9; 5] /\
  median_tip [7; 3; 9; 5] = Ret 6.
Proof.
  assert (N : [7; 3; 9; 5] <> []) by discriminate.
  assert (F : Forall (fun x => 0 <= x < 2 ^ 52) [7; 3; 9; 5]).
  { repeat constructor; try discriminate; reflexivity. }
  split; [exact N|]. split; [exact F|].
  exact (proj1 (smoother_median [7; 3; 9; 5] N F)).
Defined.

(** C5, counterexample: two tips just above [2^53]; the mean of the two
    is not a binary64 number and is rounded up before truncation. *)
Lemma smoother_median_counterexample :
  median_tip [2 ^ 53 + 1; 2 ^ 53 + 2] = Ret (2 ^ 53 + 2) /\
  median_floor [2 ^ 53 + 1; 2 ^ 53 + 2] = 2 ^ 53 + 1 /\
  median_tip [2 ^ 53 + 1; 2 ^ 53 + 2] <> Ret (median_floor [2 ^ 53 + 1; 2 ^ 53 + 2]).
Proof.
  split; [vm_compute; reflexivity|]. split; [vm_compute; reflexivity|].
  vm_compute. discriminate.
Qed.

(** ** C6: malformed samples *)

(** C6, as amended.  Neither script validates its input; a malformed
    answer makes it fail only where an index or a median is undefined.
    On an answer whose quantities decode, with base fees in
    [[0, 2^1000)] (so that the four-tier script can print the next one as
    a float): with an empty base-fee sequence, or a reward tuple shorter
    than the highest percentile index read (4 values for the four tiers,
    2 for the single estimate), the script raises [IndexError]; with no
    reward tuple at all the four-tier script raises [StatisticsError].  A
    script that raises produces no recommendation. *)
Theorem malformed_sample_raises
  (d : FeeHistoryJson) (base_fees : list Z) (rewards : list (list Z)) :
  mapM int_16 (json_baseFeePerGas d) = Ret base_fees ->
  mapM (mapM int_16) (json_reward d) = Ret rewards ->
  Forall (fun x => 0 <= x < 2 ^ 1000) base_fees ->
  (json_baseFeePerGas d = [] \/ (exists r, In r (json_reward d) /\ (length r < 4)%nat) ->
   predict_fees_script d = Raise IndexError) /\
  (json_baseFeePerGas d = [] \/ (exists r, In r (json_reward d) /\ (length r < 2)%nat) ->
   calculate_fees_json d = Raise IndexError) /\
  (json_baseFeePerGas d <> [] -> json_reward d = [] ->
   predict_fees_script d = Raise StatisticsError).
Proof.
  intros Hb Hr Bb.
  set (D := {| baseFeePerGas := base_fees; reward := rewards;
               gasUsedRatio := json_gasUsedRatio d |}).
  destruct (decoded_malformed_raises D) as (M4 & M2 & MS).
  cbn [baseFeePerGas reward] in M4, M2, MS.
  assert (Empty : json_baseFeePerGas d = [] -> base_fees = []).
  { intros E. rewrite E in Hb. inversion Hb. reflexivity. }
  assert (Line76 : forall nb, getitem base_fees (-1) = Ret nb ->
            exists g, int_div_float nb (float_of_Z (10 ^ 9)) = Ret g).
  { intros nb Enb. apply getitem_In in Enb. rewrite Forall_forall in Bb.
    exact (fmt_gwei_ret nb (Bb nb Enb)). }
  split; [|split].
  - intros H. unfold predict_fees_script. rewrite Hb. cbn [bind].
    destruct (getitem base_fees (-1)) as [e | nb] eqn:Enb; cbn [bind].
    { f_equal. eapply getitem_exn. eassumption. }
    destruct (Line76 nb eq_refl) as (g & Eg). rewrite Eg. cbn [bind].
    rewrite Hr. cbn [bind]. fold D. rewrite M4; [reflexivity|].
    destruct H as [H | H]; [left; exact (Empty H)|right].
    exact (decoded_short_tuple _ _ _ Hr H).
  - intros H.
    assert (J : calculate_fees_json d = calculate_fees D).
    { unfold calculate_fees_json, calculate_fees, D. rewrite Hb.
      cbn [bind baseFeePerGas reward gasUsedRatio].
      rewrite (column_decoded _ _ 1 Hr). reflexivity. }
    rewrite J. apply M2.
    destruct H as [H | H]; [left; exact (Empty H)|right].
    exact (decoded_short_tuple _ _ _ Hr H).
  - intros Nb Er. unfold predict_fees_script. rewrite Hb. cbn [bind].
    assert (Nb' : base_fees <> []).
    { intros E. rewrite E in Hb. destruct (json_baseFeePerGas d) as [ | a l ]; [congruence|].
      apply mapM_Ret in Hb. inversion Hb. }
    destruct (getitem_last base_fees Nb') as (nb & Enb). rewrite Enb. cbn [bind].
    destruct (Line76 nb Enb) as (g & Eg). rewrite Eg. cbn [bind].
    rewrite Hr. cbn [bind]. fold D. rewrite MS; [reflexivity|assumption|].
    rewrite Er in Hr. cbn [mapM] in Hr. unfold D. cbn [reward]. congruence.
Qed.

(** C6, witness: a reward tuple of three values in the four-tier script. *)
Lemma malformed_sample_raises_witness :
  (exists r, In r (json_reward
                     {| json_baseFeePerGas := ["0x64"; "0x64"; "0x64"]%string;
                        json_reward := [["0x1"; "0x2"; "0x3"; "0x4"]%string;
                                        ["0x1"; "0x2"; "0x3"]%string];
                        json_gasUsedRatio := [literal 5 10; literal 5 10] |})
             /\ (length r < 4)%nat) /\
  predict_fees_script
    {| json_baseFeePerGas := ["0x64"; "0x64"; "0x64"]%string;
       json_reward := [["0x1"; "0x2"; "0x3"; "0x4"]%string; ["0x1"; "0x2"; "0x3"]%string];
       json_gasUsedRatio := [literal 5 10; literal 5 10] |} = Raise IndexError.
Proof.
  assert (H : exists r, In r [["0x1"; "0x2"; "0x3"; "0x4"]%string; ["0x1"; "0x2"; "0x3"]%string]
                        /\ (length r < 4)%nat).
  { exists ["0x1"; "0x2"; "0x3"]%string. split; [right; left; reflexivity|]. simpl. lia. }
  split; [exact H|].
  apply (proj1 (malformed_sample_raises
                  {| json_baseFeePerGas := ["0x64"; "0x64"; "0x64"]%string;
                     json_reward := [["0x1"; "0x2"; "0x3"; "0x4"]%string;
                                     ["0x1"; "0x2"; "0x3"]%string];
                     json_gasUsedRatio := [literal 5 10; literal 5 10] |}
                  [100; 100; 100] [[1; 2; 3; 4]; [1; 2; 3]]
                  eq_refl eq_refl
                  ltac:(repeat constructor; vm_compute; reflexivity || discriminate))).
  right. exact H.
Defined.

(** C6, counterexample: reward tuples of 4 and of 5 values; the script
    decodes the answer and prints its table. *)
Lemma malformed_sample_raises_counterexample :
  map (@length Z) (reward sample_ragged) = [4%nat; 5%nat] /\
  (exists r, predict_fees sample_ragged = Ret r) /\
  (forall e, predict_fees sample_ragged <> Raise e) /\
  map (@length string) (json_reward sample_ragged_json) = [4%nat; 5%nat] /\
  (exists r, predict_fees_script sample_ragged_json = Ret r) /\
  (forall e, predict_fees_script sample_ragged_json <> Raise e).
Proof.
  split; [reflexivity|]. split; [eexists; vm_compute; reflexivity|].
  split; [intros e; vm_compute; discriminate|].
  split; [reflexivity|]. split; [eexists; vm_compute; reflexivity|].
  intros e. vm_compute. discriminate.
Qed.

(** ** C7: no blocks ahead *)

(** C7, as amended.  With no blocks ahead the projector returns the base
    fee itself as long as the base fee is at most [2^53]. *)
Theorem projector_zero_blocks (base : Z) :
  0 <= base <= 2 ^ 53 -> calculate_max_base_fee base 0 = Ret base.
Proof.
  intros Hb. rewrite calculate_max_base_fee_closed.
  - f_equal. rewrite Z.pow_0_r, Z.mul_1_r, Z.div_1_r.
    assert (E : RN base = base).
    { destruct (Z.eq_dec base (2 ^ 53)) as [-> | N]; [reflexivity|]. apply RN_small; lia. }
    rewrite E. exact E.
  - split; [lia|]. apply Z.le_lt_trans with (2 ^ 53); [lia|reflexivity].
  - lia.
Qed.

(** C7, witness: a base fee of 200. *)
Lemma projector_zero_blocks_witness :
  0 <= 200 <= 2 ^ 53 /\ calculate_max_base_fee 200 0 = Ret 200.
Proof.
  split; [vm_compute; split; discriminate|].
  apply projector_zero_blocks. vm_compute; split; discriminate.
Defined.

(** C7, counterexample: [2^53 + 1] is not a binary64 number. *)
Lemma projector_zero_blocks_counterexample :
  calculate_max_base_fee (2 ^ 53 + 1) 0 = Ret (2 ^ 53) /\
  calculate_max_base_fee (2 ^ 53 + 1) 0 <> Ret (2 ^ 53 + 1).
Proof. split; [vm_compute; reflexivity|vm_compute; discriminate]. Qed.

(** ** C8: what the projector rejects *)

(** C8, as amended.  The projector validates nothing.  For
    [0 <= k <= 16] and a base fee below [2^960] it returns a number; a
    negative [k] is accepted and shrinks the fee; and with [k >= 0] it
    still raises [OverflowError] when a float overflows. *)
Theorem projector_errors (base k : Z) :
  0 <= base < 2 ^ 960 -> 0 <= k <= 16 ->
  (exists v, calculate_max_base_fee base k = Ret v) /\
  calculate_max_base_fee 100 (-1) = Ret 88 /\
  calculate_max_base_fee 1 7000 = Raise OverflowError /\
  calculate_max_base_fee (2 ^ 1024) 0 = Raise OverflowError.
Proof.
  intros Hb Hk. split.
  - eexists. apply calculate_max_base_fee_closed; assumption.
  - split; [vm_compute; reflexivity|]. split; vm_compute; reflexivity.
Qed.

(** C8, witness: base fee 200, four blocks ahead. *)
Lemma projector_errors_witness :
  0 <= 200 < 2 ^ 960 /\ 0 <= 4 <= 16 /\ exists v, calculate_max_base_fee 200 4 = Ret v.
Proof.
  assert (B : 0 <= 200 < 2 ^ 960) by (split; [discriminate|reflexivity]).
  split; [exact B|]. split; [lia|].
  exact (proj1 (projector_errors 200 4 B ltac:(lia))).
Defined.

(** C8, counterexample: a negative [blocksAhead] is not rejected. *)
Lemma projector_errors_counterexample :
  calculate_max_base_fee 100 (-1) = Ret 88 /\
  forall e, calculate_max_base_fee 100 (-1) <> Raise e.
Proof. split; [vm_compute; reflexivity|]. intros e. vm_compute. discriminate. Qed.

(** ** C9: ordering of the final fees *)

(** C9. Four-tier variant: on every valid fee history for which the
    script produces its table, the final (congestion-adjusted) priority
    fees do not decrease from Saver to Standard to Recommended to Urgent,
    and neither do the final fee caps. *)
Theorem final_fees_ordered (d : FeeHistory) (r : Tiers) :
  valid_sample 4 d ->
  predict_fees d = Ret r ->
  (median_tip_30 r <= median_tip_60 r /\ median_tip_60 r <= median_tip_75 r /\
   median_tip_75 r <= median_tip_90 r) /\
  (max_fee_saver r <= max_fee_std r /\ max_fee_std r <= max_fee_rec r /\
   max_fee_rec r <= max_fee_urgent r).
Proof.
  intros V H. apply predict_fees_Ret in H.
  destruct H as (nb & t30 & t60 & t75 & t90 & m30 & m60 & m75 & m90 & p30 & p60 & p75 & p90 &
                 avg & b2 & b4 & b6 & b10 & Hnb & Ht30 & Ht60 & Ht75 & Ht90 & Hm30 & Hm60 &
                 Hm75 & Hm90 & Hp & Havg & Ha30 & Ha60 & Ha75 & Ha90 & Hb2 & Hb4 & Hb6 & Hb10 &
                 F1 & F2 & F3 & F4).
  destruct V as [_ _ _ _ Vb Vr _].
  assert (Nnb : 0 <= nb).
  { apply getitem_In in Hnb. rewrite Forall_forall in Vb. auto. }
  assert (N30 : 0 <= m30).
  { eapply median_tip_nonneg; [|exact Hm30]. eapply column_unsigned; eassumption. }
  apply enforce_minimum_improvement_ordered in Hp; [|assumption].
  destruct Hp as (-> & O1 & O2 & O3 & P60).
  pose proof (congestion_scaling_mono avg _ _ _ _ N30 O1 Ha30 Ha60) as A1.
  pose proof (congestion_scaling_mono avg p60 p75 _ _ ltac:(lia) O2 Ha60 Ha75) as A2.
  pose proof (congestion_scaling_mono avg p75 p90 _ _ ltac:(lia) O3 Ha75 Ha90) as A3.
  destruct (projections_ordered nb b2 b4 b6 b10 Nnb Hb2 Hb4 Hb6 Hb10) as (_ & B1 & B2 & B3).
  lia.
Qed.

(** C9, witness: the ten rising blocks. *)
Lemma final_fees_ordered_witness :
  valid_sample 4 sample_rising /\
  predict_fees sample_rising = Ret rising_tiers /\
  (median_tip_30 rising_tiers <= median_tip_60 rising_tiers /\
   median_tip_60 rising_tiers <= median_tip_75 rising_tiers /\
   median_tip_75 rising_tiers <= median_tip_90 rising_tiers) /\
  (max_fee_saver rising_tiers <= max_fee_std rising_tiers /\
   max_fee_std rising_tiers <= max_fee_rec rising_tiers /\
   max_fee_rec rising_tiers <= max_fee_urgent rising_tiers).
Proof.
  assert (E : predict_fees sample_rising = Ret rising_tiers) by (vm_compute; reflexivity).
  split; [exact sample_rising_valid|]. split; [exact E|].
  exact (final_fees_ordered sample_rising rising_tiers sample_rising_valid E).
Defined.

(** ** C10: the cap of the single estimate *)

(** C10, as amended.  One-estimate variant, on a valid sample whose next
    base fee [b] and adjusted tip [t] satisfy [3 b + 2 t < 2^53]: the cap
    is [int(b * 2.0) + t = 2 b + t], except when the newest base fee of
    the window [base_fees[-6:-1]] is not above the oldest one and the
    average utilization is below 0.5; then it is
    [int(b * 1.5) + t = floor(3 b / 2) + t]. *)
Theorem one_estimate_cap (h : FeeHistory) (r : Estimate) :
  valid_sample 3 h -> calculate_fees h = Ret r ->
  3 * base_fee_next r + 2 * priority_fee_suggested r < 2 ^ 53 ->
  exists newest oldest,
    getitem (slice (baseFeePerGas h) (-6) (-1)) (-1) = Ret newest /\
    getitem (slice (baseFeePerGas h) (-6) (-1)) 0 = Ret oldest /\
    avg_congestion (gasUsedRatio h) = Ret (congestion r) /\
    getitem (baseFeePerGas h) (-1) = Ret (base_fee_next r) /\
    if (newest <=? oldest) && flt (congestion r) (literal 5 10)
    then int_times (base_fee_next r) (literal 15 10) = Ret (3 * base_fee_next r / 2) /\
         max_fee_per_gas r = 3 * base_fee_next r / 2 + priority_fee_suggested r
    else int_times (base_fee_next r) (literal 20 10) = Ret (2 * base_fee_next r) /\
         max_fee_per_gas r = 2 * base_fee_next r + priority_fee_suggested r.
Proof.
  intros V H Hsmall. apply calculate_fees_Ret in H.
  destruct H as (newest & oldest & cols & m & p & s & Hnb & Hn & Ho & Hc & Hm & Ha & Ht &
                 Hp & Hs & Hcap).
  destruct V as [_ _ _ _ Vb Vr _].
  assert (Nnb : 0 <= base_fee_next r).
  { apply getitem_In in Hnb. rewrite Forall_forall in Vb. auto. }
  assert (Nm : 0 <= m).
  { eapply median_tip_nonneg; [|exact Hm]. eapply column_unsigned; eassumption. }
  pose proof (congestion_adjust_nonneg _ _ _ Nm Ht) as Nt.
  exists newest, oldest. repeat split; try assumption.
  rewrite Z.leb_antisym.
  destruct (negb (oldest <? newest) && flt (congestion r) (literal 5 10)).
  - destruct (cap_1_5 (base_fee_next r) (priority_fee_suggested r) Nnb Nt Hsmall) as [C I].
    rewrite Hp in C. cbn [bind] in C. rewrite Hs in C. cbn [bind] in C. rewrite Hcap in C.
    split; [exact I|congruence].
  - destruct (cap_2_0 (base_fee_next r) (priority_fee_suggested r) Nnb Nt ltac:(lia)) as [C I].
    rewrite Hp in C. cbn [bind] in C. rewrite Hs in C. cbn [bind] in C. rewrite Hcap in C.
    split; [exact I|congruence].
Qed.

(** C10, witness: the ten rising blocks; the cap is 2 * 200 + 2. *)
Lemma one_estimate_cap_witness :
  valid_sample 3 sample_rising_3 /\
  calculate_fees sample_rising_3 = Ret rising_estimate /\
  3 * base_fee_next rising_estimate + 2 * priority_fee_suggested rising_estimate < 2 ^ 53 /\
  max_fee_per_gas rising_estimate
  = 2 * base_fee_next rising_estimate + priority_fee_suggested rising_estimate.
Proof.
  assert (E : calculate_fees sample_rising_3 = Ret rising_estimate)
    by (vm_compute; reflexivity).
  assert (B : 3 * base_fee_next rising_estimate + 2 * priority_fee_suggested rising_estimate
              < 2 ^ 53) by (vm_compute; reflexivity).
  split; [exact sample_rising_3_valid|]. split; [exact E|]. split; [exact B|].
  destruct (one_estimate_cap sample_rising_3 rising_estimate sample_rising_3_valid E B)
    as (newest & oldest & En & Eo & _ & _ & C).
  vm_compute in En. vm_compute in Eo. inversion En. inversion Eo. subst.
  exact (proj2 C).
Defined.

(** C10, counterexample: with a base fee of [2^52] and a tip of 1 the
    sum [2^53 + 1] is not a binary64 number; the cap is [2^53]. *)
Lemma one_estimate_cap_counterexample :
  valid_sample 3 sample_huge /\
  exists r, calculate_fees sample_huge = Ret r /\
            flt (congestion r) (literal 5 10) = false /\
            int_times (base_fee_next r) (literal 20 10) = Ret (2 ^ 53) /\
            priority_fee_suggested r = 1 /\
            max_fee_per_gas r = 2 ^ 53 /\
            max_fee_per_gas r <> 2 ^ 53 + priority_fee_suggested r.
Proof.
  split; [exact sample_huge_valid|].
  eexists. split; [vm_compute; reflexivity|].
  repeat split; try (vm_compute; reflexivity). vm_compute. discriminate.
Qed.

(** * Further properties

    Properties of the code beyond the claims above, numbered X1, X2,
    ...: of the projector, the ordering pass and the median; of the
    scripts on edge inputs; of the decoding of the answer, the printing
    and [main]; of the [.env] file. *)

Section ProjectorOrder.

(** When the projector returns, for a horizon of at most 16 blocks, it
    returns the closed form. *)
Lemma calculate_max_base_fee_Ret (base k v : Z) :
  0 <= base -> 0 <= k <= 16 ->
  calculate_max_base_fee base k = Ret v -> v = RN (RN base * 9 ^ k) / 8 ^ k.
Proof.
  intros Hb Hk H. unfold calculate_max_base_fee in H.
  destruct (math_pow_spec k Hk) as (m & e & E & V & Le & Lm).
  rewrite E in H. cbn [bind] in H. fold (int_times base (S754_finite false m e)) in H.
  apply int_times_Ret in H; [|lia|lia]. subst v. unfold times_val.
  assert (D : deq (RN base * Z.pos m) e (RN base * 9 ^ k) (-3 * k)).
  { rewrite (Z.mul_comm (RN base) (Z.pos m)), (Z.mul_comm (RN base) (9 ^ k)).
    replace e with (e + 0) by lia. replace (-3 * k) with (-3 * k + 0) by lia.
    apply deq_mul. assumption. }
  apply deq_RN in D.
  - rewrite (dfloor_deq _ _ _ _ D). unfold dfloor.
    destruct (Z.leb_spec 0 (-3 * k)).
    + assert (k = 0) by lia. subst k. simpl. rewrite Z.mul_1_r, Z.div_1_r. reflexivity.
    + replace (- (-3 * k)) with (3 * k) by lia. rewrite pow8 by lia. reflexivity.
  - apply Z.mul_nonneg_nonneg; [apply RN_nonneg|]; lia.
  - apply Z.mul_nonneg_nonneg; [apply RN_nonneg; lia|]. apply Z.pow_nonneg; lia.
Qed.

(** X1.  A larger base fee never projects to a smaller one. *)
Theorem projector_monotone_in_base (b1 b2 k v1 v2 : Z) :
  0 <= b1 -> b1 <= b2 -> 0 <= k <= 16 ->
  calculate_max_base_fee b1 k = Ret v1 ->
  calculate_max_base_fee b2 k = Ret v2 ->
  v1 <= v2.
Proof.
  intros H1 H12 Hk E1 E2.
  apply calculate_max_base_fee_Ret in E1; [|lia|lia].
  apply calculate_max_base_fee_Ret in E2; [|lia|lia]. subst.
  assert (0 < 8 ^ k) by (apply Z.pow_pos_nonneg; lia).
  assert (0 <= 9 ^ k) by (apply Z.pow_nonneg; lia).
  apply Z.div_le_mono; [lia|]. apply RN_mono.
  - apply Z.mul_nonneg_nonneg; [apply RN_nonneg|]; lia.
  - apply Z.mul_le_mono_nonneg_r; [lia|]. apply RN_mono; lia.
Qed.

(** X1, witness: base fees 100 and 200, four blocks ahead. *)
Lemma projector_monotone_in_base_witness :
  calculate_max_base_fee 100 4 = Ret 160 /\ calculate_max_base_fee 200 4 = Ret 320 /\
  160 <= 320.
Proof.
  assert (E1 : calculate_max_base_fee 100 4 = Ret 160) by (vm_compute; reflexivity).
  assert (E2 : calculate_max_base_fee 200 4 = Ret 320) by (vm_compute; reflexivity).
  split; [exact E1|]. split; [exact E2|].
  exact (projector_monotone_in_base 100 200 4 160 320
           ltac:(lia) ltac:(lia) ltac:(lia) E1 E2).
Defined.

Lemma projection_closed_mono (B k1 k2 : Z) :
  0 <= B -> 0 <= k1 -> k1 <= k2 ->
  RN (B * 9 ^ k1) / 8 ^ k1 <= RN (B * 9 ^ k2) / 8 ^ k2.
Proof.
  intros HB H1 H12.
  set (j := k2 - k1).
  assert (P1 : 0 < 8 ^ k1) by (apply Z.pow_pos_nonneg; lia).
  assert (Pj : 0 < 8 ^ j) by (apply Z.pow_pos_nonneg; lia).
  assert (N1 : 0 <= 9 ^ k1) by (apply Z.pow_nonneg; lia).
  assert (E8 : 8 ^ k2 = 8 ^ k1 * 8 ^ j).
  { rewrite <- Z.pow_add_r by lia. f_equal. lia. }
  assert (E9 : 9 ^ k2 = 9 ^ k1 * 9 ^ j).
  { rewrite <- Z.pow_add_r by lia. f_equal. lia. }
  assert (L98 : 8 ^ j <= 9 ^ j) by (apply Z.pow_le_mono_l; lia).
  rewrite <- (Z.div_mul_cancel_r (RN (B * 9 ^ k1)) (8 ^ k1) (8 ^ j)) by lia.
  rewrite E8. apply Z.div_le_mono; [lia|].
  rewrite <- (pow8 j) by lia. rewrite <- RN_scale; [|apply Z.mul_nonneg_nonneg; lia|lia].
  rewrite pow8 by lia. apply RN_mono.
  - apply Z.mul_nonneg_nonneg; [apply Z.mul_nonneg_nonneg|]; lia.
  - rewrite E9. rewrite <- Z.mul_assoc. apply Z.mul_le_mono_nonneg_l; [lia|].
    apply Z.mul_le_mono_nonneg_l; lia.
Qed.

(** X2.  A longer horizon never projects to a smaller fee. *)
Theorem projector_monotone_in_horizon (base k1 k2 v1 v2 : Z) :
  0 <= base -> 0 <= k1 -> k1 <= k2 -> k2 <= 16 ->
  calculate_max_base_fee base k1 = Ret v1 ->
  calculate_max_base_fee base k2 = Ret v2 ->
  v1 <= v2.
Proof.
  intros Hb H1 H12 H2 E1 E2.
  apply calculate_max_base_fee_Ret in E1; [|lia|lia].
  apply calculate_max_base_fee_Ret in E2; [|lia|lia]. subst.
  apply projection_closed_mono; try lia. apply RN_nonneg. lia.
Qed.

(** X2, witness: base fee 200, two and four blocks ahead. *)
Lemma projector_monotone_in_horizon_witness :
  calculate_max_base_fee 200 2 = Ret 253 /\ calculate_max_base_fee 200 4 = Ret 320 /\
  253 <= 320.
Proof.
  assert (E1 : calculate_max_base_fee 200 2 = Ret 253) by (vm_compute; reflexivity).
  assert (E2 : calculate_max_base_fee 200 4 = Ret 320) by (vm_compute; reflexivity).
  split; [exact E1|]. split; [exact E2|].
  exact (projector_monotone_in_horizon 200 2 4 253 320
           ltac:(lia) ltac:(lia) ltac:(lia) ltac:(lia) E1 E2).
Defined.

(** One block ahead already covers the base fee, whatever its size. *)
Lemma projection_closed_covers (base : Z) :
  0 <= base -> base <= RN (RN base * 9 ^ 1) / 8 ^ 1.
Proof.
  intros Hb. change (9 ^ 1) with 9. change (8 ^ 1) with 8.
  pose proof (RN_nonneg base Hb) as NB.
  pose proof (RN_error base Hb) as [E1 _].
  pose proof (RN_error (RN base * 9) ltac:(lia)) as [E2 _].
  change (2 ^ 53) with 9007199254740992 in *.
  apply Z.div_le_lower_bound; lia.
Qed.

(** X3.  The projection is never below the base fee: for one block ahead or
    more whatever the base fee, and for no block ahead when the base fee
    is at most [2^53]. *)
Theorem projector_covers_base (base k v : Z) :
  0 <= base -> 0 <= k <= 16 -> (k = 0 -> base <= 2 ^ 53) ->
  calculate_max_base_fee base k = Ret v -> base <= v.
Proof.
  intros Hb Hk H0 E.
  apply calculate_max_base_fee_Ret in E; [|lia|lia]. subst v.
  destruct (Z.eq_dec k 0) as [-> | N].
  - assert (R : RN base = base).
    { destruct (Z.eq_dec base (2 ^ 53)) as [-> | N]; [reflexivity|].
      apply RN_small. specialize (H0 eq_refl). lia. }
    rewrite R, Z.pow_0_r, Z.mul_1_r, R, Z.div_1_r. lia.
  - apply Z.le_trans with (RN (RN base * 9 ^ 1) / 8 ^ 1).
    + apply projection_closed_covers. assumption.
    + apply projection_closed_mono; try lia. apply RN_nonneg. lia.
Qed.

(** X3, witness: base fee 200, four blocks ahead. *)
Lemma projector_covers_base_witness :
  calculate_max_base_fee 200 4 = Ret 320 /\ 200 <= 320.
Proof.
  assert (E : calculate_max_base_fee 200 4 = Ret 320) by (vm_compute; reflexivity).
  split; [exact E|].
  exact (projector_covers_base 200 4 320 ltac:(lia) ltac:(lia) ltac:(lia) E).
Defined.

End ProjectorOrder.

Section PassProperties.

(** What one conditional assignment of the pass yields: the tip itself
    when it is above the lower tier's, else the raised value. *)
Lemma enforce_minimum_improvement_steps (a b c d a' b' c' d' : Z) :
  enforce_minimum_improvement a b c d = Ret (a', b', c', d') ->
  a' = a /\
  (if b <=? a then if 0 <? a then int_times a (literal 12 10) else Ret 1000000000
   else Ret b) = Ret b' /\
  (if c <=? b' then int_times b' (literal 115 100) else Ret c) = Ret c' /\
  (if d <=? c' then if 0 <? c' then int_times c' (literal 12 10) else Ret 1500000000
   else Ret d) = Ret d'.
Proof.
  intros H. unfold enforce_minimum_improvement in H.
  apply bind_Ret in H. destruct H as (b1 & Hb & H).
  apply bind_Ret in H. destruct H as (c1 & Hc & H).
  apply bind_Ret in H. destruct H as (d1 & Hd & H).
  inversion H. subst. auto.
Qed.

(** X4.  The pass leaves the Saver tip alone, never lowers a tip, and leaves
    no tier above Saver at zero. *)
Theorem pass_never_lowers (a b c d a' b' c' d' : Z) :
  0 <= a ->
  enforce_minimum_improvement a b c d = Ret (a', b', c', d') ->
  a' = a /\ b <= b' /\ c <= c' /\ d <= d' /\ 1 <= b' /\ 1 <= c' /\ 1 <= d'.
Proof.
  intros Ha H.
  pose proof (enforce_minimum_improvement_ordered _ _ _ _ _ _ _ _ Ha H) as (_ & O1 & O2 & O3 & P).
  apply enforce_minimum_improvement_steps in H. destruct H as (-> & Hb & Hc & Hd).
  assert (b <= b').
  { destruct (Z.leb_spec b a); [lia|]. inversion Hb. lia. }
  assert (c <= c').
  { destruct (Z.leb_spec c b'); [lia|]. inversion Hc. lia. }
  assert (d <= d').
  { destruct (Z.leb_spec d c'); [lia|]. inversion Hd. lia. }
  lia.
Qed.

(** X4, witness: tips 100, 50, 60, 70 become 100, 120, 138, 165. *)
Lemma pass_never_lowers_witness :
  enforce_minimum_improvement 100 50 60 70 = Ret (100, 120, 138, 165) /\
  50 <= 120 /\ 60 <= 138 /\ 70 <= 165.
Proof.
  assert (E : enforce_minimum_improvement 100 50 60 70 = Ret (100, 120, 138, 165))
    by (vm_compute; reflexivity).
  split; [exact E|].
  destruct (pass_never_lowers 100 50 60 70 100 120 138 165 ltac:(lia) E)
    as (_ & B & C & D & _).
  repeat split; assumption.
Defined.

(** X5.  Running the pass on its own result changes nothing. *)
Theorem pass_idempotent (a b c d a' b' c' d' : Z) :
  0 <= a ->
  enforce_minimum_improvement a b c d = Ret (a', b', c', d') ->
  enforce_minimum_improvement a' b' c' d' = Ret (a', b', c', d').
Proof.
  intros Ha H.
  pose proof (enforce_minimum_improvement_ordered _ _ _ _ _ _ _ _ Ha H) as (_ & O1 & O2 & O3 & P).
  apply enforce_minimum_improvement_steps in H. destruct H as (-> & Hb & Hc & Hd).
  unfold enforce_minimum_improvement.
  assert (Eb : (if b' <=? a then if 0 <? a then int_times a (literal 12 10) else Ret 1000000000
                else Ret b') = Ret b').
  { destruct (Z.leb_spec b' a) as [L | G]; [|reflexivity].
    assert (b' = a) by lia. subst b'.
    destruct (Z.leb_spec b a) as [L' | G'].
    - exact Hb.
    - inversion Hb. lia. }
  rewrite Eb. cbn [bind].
  assert (Ec : (if c' <=? b' then int_times b' (literal 115 100) else Ret c') = Ret c').
  { destruct (Z.leb_spec c' b') as [L | G]; [|reflexivity].
    assert (c' = b') by lia. subst c'.
    destruct (Z.leb_spec c b') as [L' | G'].
    - exact Hc.
    - inversion Hc. lia. }
  rewrite Ec. cbn [bind].
  assert (Ed : (if d' <=? c'
                then if 0 <? c' then int_times c' (literal 12 10) else Ret 1500000000
                else Ret d') = Ret d').
  { destruct (Z.leb_spec d' c') as [L | G]; [|reflexivity].
    assert (d' = c') by lia. subst d'.
    destruct (Z.leb_spec d c') as [L' | G'].
    - exact Hd.
    - inversion Hd. lia. }
  rewrite Ed. reflexivity.
Qed.

(** X5, witness: the pass on 100, 120, 138, 165. *)
Lemma pass_idempotent_witness :
  enforce_minimum_improvement 100 50 60 70 = Ret (100, 120, 138, 165) /\
  enforce_minimum_improvement 100 120 138 165 = Ret (100, 120, 138, 165).
Proof.
  assert (E : enforce_minimum_improvement 100 50 60 70 = Ret (100, 120, 138, 165))
    by (vm_compute; reflexivity).
  split; [exact E|].
  exact (pass_idempotent 100 50 60 70 100 120 138 165 ltac:(lia) E).
Defined.

(** X6.  The Urgent fallback of 1.5 gwei is never used when the Saver tip is
    not negative: the Recommended tip is at least 1 by then, so a low
    Urgent tip is always replaced by 1.2 times the Recommended tip. *)
Theorem urgent_fallback_unused (a b c d a' b' c' d' : Z) :
  0 <= a ->
  enforce_minimum_improvement a b c d = Ret (a', b', c', d') ->
  1 <= c' /\
  (if d <=? c' then int_times c' (literal 12 10) else Ret d) = Ret d'.
Proof.
  intros Ha H.
  pose proof (enforce_minimum_improvement_ordered _ _ _ _ _ _ _ _ Ha H) as (_ & O1 & O2 & O3 & P).
  apply enforce_minimum_improvement_steps in H. destruct H as (-> & Hb & Hc & Hd).
  split; [lia|].
  replace (0 <? c') with true in Hd by (symmetry; apply Z.ltb_lt; lia). exact Hd.
Qed.

(** X6, witness: no tip at all; Urgent is 1.2 times Recommended. *)
Lemma urgent_fallback_unused_witness :
  enforce_minimum_improvement 0 0 0 0 = Ret (0, 1000000000, 1150000000, 1380000000) /\
  int_times 1150000000 (literal 12 10) = Ret 1380000000.
Proof.
  assert (E : enforce_minimum_improvement 0 0 0 0
              = Ret (0, 1000000000, 1150000000, 1380000000)) by (vm_compute; reflexivity).
  split; [exact E|].
  exact (proj2 (urgent_fallback_unused 0 0 0 0 0 1000000000 1150000000 1380000000
                  ltac:(lia) E)).
Defined.

End PassProperties.

Section MedianProperties.

Lemma sorted_head_le (l : list Z) (x y : Z) :
  LocallySorted Z.le (x :: l) -> In y l -> x <= y.
Proof.
  revert x. induction l as [ | z l IH ]; intros x Hs Hin; [destruct Hin|].
  inversion Hs; subst. destruct Hin as [-> | Hin]; [assumption|].
  apply Z.le_trans with z; [assumption|]. apply IH; assumption.
Qed.

(** Two sorted lists with the same elements are the same list. *)
Lemma sorted_unique (l l' : list Z) :
  LocallySorted Z.le l -> LocallySorted Z.le l' -> Permutation l l' -> l = l'.
Proof.
  revert l'. induction l as [ | x l IH ]; intros l' Hs Hs' Hp.
  - apply Permutation_nil in Hp. congruence.
  - destruct l' as [ | y l' ]; [symmetry in Hp; apply Permutation_nil in Hp; discriminate|].
    assert (x = y).
    { assert (Ix : In x (y :: l')) by (eapply Permutation_in; [exact Hp|left; reflexivity]).
      assert (Iy : In y (x :: l)).
      { eapply Permutation_in; [symmetry; exact Hp|left; reflexivity]. }
      destruct Ix as [-> | Ix]; [reflexivity|].
      destruct Iy as [-> | Iy]; [reflexivity|].
      pose proof (sorted_head_le _ _ _ Hs Iy). pose proof (sorted_head_le _ _ _ Hs' Ix). lia. }
    subst y. f_equal. apply IH.
    + inversion Hs; subst; [constructor|assumption].
    + inversion Hs'; subst; [constructor|assumption].
    + eapply Permutation_cons_inv. exact Hp.
Qed.

(** X7.  The smoothed tip does not depend on the order of the blocks. *)
Theorem median_tip_order_independent (col col' : list Z) :
  Permutation col col' -> median_tip col = median_tip col'.
Proof.
  intros Hp.
  assert (E : sorted col = sorted col').
  { apply sorted_unique; try apply sorted_sorted.
    rewrite <- (sorted_perm col), <- (sorted_perm col'). exact Hp. }
  unfold median_tip, statistics_median. rewrite E. reflexivity.
Qed.

(** X7, witness: two blocks swapped. *)
Lemma median_tip_order_independent_witness :
  Permutation [5; 3; 9] [3; 5; 9] /\ median_tip [5; 3; 9] = median_tip [3; 5; 9].
Proof.
  assert (P : Permutation [5; 3; 9] [3; 5; 9]) by apply perm_swap.
  split; [exact P|]. exact (median_tip_order_independent _ _ P).
Defined.

Lemma median_floor_within (col : list Z) (lo hi : Z) :
  col <> [] -> Forall (fun x => lo <= x <= hi) col -> lo <= median_floor col <= hi.
Proof.
  intros Hne Hc. unfold median_floor.
  pose proof (sorted_Forall _ _ Hc) as Hs.
  assert (Nth : forall i, (i < length col)%nat -> lo <= nth i (sorted col) 0 <= hi).
  { intros i Hi. rewrite Forall_forall in Hs. apply Hs. apply nth_In.
    rewrite sorted_length. assumption. }
  set (n := Z.of_nat (length col)).
  assert (1 <= n) by (destruct col; [congruence|unfold n; simpl length; lia]).
  pose proof (Z.mod_pos_bound n 2 ltac:(lia)).
  pose proof (Z.div_mod n 2 ltac:(lia)).
  destruct (Z.eqb_spec (n mod 2) 1).
  - apply Nth. unfold n in *. lia.
  - pose proof (Nth (Z.to_nat (n / 2 - 1)) ltac:(unfold n in *; lia)).
    pose proof (Nth (Z.to_nat (n / 2)) ltac:(unfold n in *; lia)).
    split; [apply Z.div_le_lower_bound|apply Z.div_le_upper_bound]; lia.
Qed.

(** X8.  The smoothed tip lies between the smallest and the largest tip of
    the column, for tips below [2^52]. *)
Theorem median_tip_within_column (col : list Z) (lo hi : Z) :
  col <> [] -> 0 <= lo -> hi < 2 ^ 52 ->
  Forall (fun x => lo <= x <= hi) col ->
  exists m, median_tip col = Ret m /\ lo <= m <= hi.
Proof.
  intros Hne Hlo Hhi Hc.
  assert (Hb : Forall (fun x => 0 <= x < 2 ^ 52) col).
  { eapply Forall_impl; [|exact Hc]. cbv beta. intros. lia. }
  exists (median_floor col). split; [apply median_tip_small; assumption|].
  apply median_floor_within; assumption.
Qed.

(** X8, witness: four tips between 3 and 9. *)
Lemma median_tip_within_column_witness :
  Forall (fun x => 3 <= x <= 9) [7; 3; 9; 5] /\
  exists m, median_tip [7; 3; 9; 5] = Ret m /\ 3 <= m <= 9.
Proof.
  assert (F : Forall (fun x => 3 <= x <= 9) [7; 3; 9; 5]) by (repeat constructor; lia).
  split; [exact F|].
  exact (median_tip_within_column [7; 3; 9; 5] 3 9
           ltac:(discriminate) ltac:(lia) ltac:(reflexivity) F).
Defined.

End MedianProperties.

Section Window.

(** [base_fees[-6:-1]] when the list ends with the next block's fee. *)
Lemma slice_window {A : Type} (l : list A) (x : A) :
  slice (l ++ [x]) (-6) (-1) = skipn (length l - 5) l.
Proof.
  unfold slice. rewrite length_app. cbn [length].
  replace (-6 <? 0) with true by reflexivity.
  replace (-1 <? 0) with true by reflexivity.
  set (n := length l).
  replace (Z.to_nat (Z.max (-6 + Z.of_nat (n + 1)) 0)) with (n - 5)%nat by lia.
  replace (Z.to_nat (Z.max (-1 + Z.of_nat (n + 1)) 0 - Z.max (-6 + Z.of_nat (n + 1)) 0))
    with (n - (n - 5))%nat by lia.
  rewrite skipn_app. replace (n - 5 - length l)%nat with 0%nat by (unfold n; lia).
  cbn [skipn].
  replace (n - (n - 5))%nat with (length (skipn (n - 5) l) + 0)%nat
    by (rewrite length_skipn; unfold n; lia).
  rewrite firstn_app_2. cbn [firstn]. apply app_nil_r.
Qed.

Lemma getitem_first {A : Type} (l : list A) (d : A) :
  l <> [] -> getitem l 0 = Ret (hd d l).
Proof. intros H. destruct l; [congruence|reflexivity]. Qed.

Lemma getitem_last_eq {A : Type} (l : list A) (d : A) :
  l <> [] -> getitem l (-1) = Ret (last l d).
Proof.
  intros H. destruct (exists_last H) as (l' & x & ->).
  rewrite last_last. unfold getitem. rewrite length_app. cbn [length].
  replace (-1 <? 0) with true by reflexivity.
  set (n := Z.of_nat (length l' + 1)).
  replace ((-1 + n <? 0) || (n <=? -1 + n)) with false
    by (symmetry; apply orb_false_iff; split; [apply Z.ltb_ge|apply Z.leb_gt]; unfold n; lia).
  replace (Z.to_nat (-1 + n)) with (length l' + 0)%nat by (unfold n; lia).
  rewrite nth_error_app2 by lia.
  replace (length l' + 0 - length l')%nat with 0%nat by lia. reflexivity.
Qed.

Lemma skipn_nonempty {A : Type} (l : list A) (k : nat) :
  (k < length l)%nat -> skipn k l <> [].
Proof.
  intros H E. apply (f_equal (@length A)) in E. rewrite length_skipn in E. simpl in E. lia.
Qed.

Lemma last_skipn {A : Type} (l : list A) (k : nat) (d : A) :
  (k < length l)%nat -> last (skipn k l) d = last l d.
Proof.
  revert l. induction k as [ | k IH ]; intros l H; [reflexivity|].
  destruct l as [ | x l ]; [reflexivity|]. cbn [skipn]. simpl in H.
  rewrite IH by lia. destruct l; [simpl in H; lia|reflexivity].
Qed.

Lemma hd_skipn {A : Type} (l : list A) (k : nat) (d : A) :
  hd d (skipn k l) = nth k l d.
Proof.
  revert l. induction k as [ | k IH ]; intros [ | x l ]; try reflexivity. apply IH.
Qed.

(** The two base fees the trend test reads: the newest before the next
    block's, and the one four blocks earlier (the oldest one when the
    history is shorter). *)
Lemma window_items (l : list Z) (x : Z) :
  l <> [] ->
  getitem (slice (l ++ [x]) (-6) (-1)) (-1) = Ret (last l 0) /\
  getitem (slice (l ++ [x]) (-6) (-1)) 0 = Ret (nth (length l - 5) l 0).
Proof.
  intros H. rewrite slice_window.
  assert (L : (length l - 5 < length l)%nat) by (destruct l; [congruence|simpl; lia]).
  split.
  - rewrite (getitem_last_eq _ 0) by (apply skipn_nonempty; assumption).
    rewrite last_skipn by assumption. reflexivity.
  - rewrite (getitem_first _ 0) by (apply skipn_nonempty; assumption).
    rewrite hd_skipn. reflexivity.
Qed.

(** X9.  The trend test of [calculate_fees] compares the newest base fee
    before the next block's with the one four blocks earlier (the oldest
    one when the history is shorter), and the next block's own base fee
    takes no part in it: [calculate_fees] depends on the base fees
    before the next block's through this comparison only.  Two histories
    with the same next base fee, rewards and ratios on which the
    comparison agrees give the same result. *)
Theorem trend_window (h h' : FeeHistory) (l l' : list Z) (x : Z) :
  baseFeePerGas h = l ++ [x] -> baseFeePerGas h' = l' ++ [x] ->
  l <> [] -> l' <> [] ->
  reward h = reward h' -> gasUsedRatio h = gasUsedRatio h' ->
  (nth (length l - 5) l 0 <? last l 0) = (nth (length l' - 5) l' 0 <? last l' 0) ->
  calculate_fees h = calculate_fees h'.
Proof.
  intros Hb Hb' Hl Hl' Hr Hg Hc. unfold calculate_fees. rewrite Hb, Hb', Hr, Hg.
  rewrite (getitem_last_eq (l ++ [x]) 0) by (destruct l; discriminate).
  rewrite (getitem_last_eq (l' ++ [x]) 0) by (destruct l'; discriminate).
  rewrite !last_last. cbn [bind].
  destruct (window_items l x Hl) as [N O]. rewrite N, O.
  destruct (window_items l' x Hl') as [N' O']. rewrite N', O'.
  cbn [bind]. rewrite Hc. reflexivity.
Qed.

(** X9, witness: the ten rising blocks, and the same history cut down to
    the two base fees the test reads and the next block's. *)
Lemma trend_window_witness :
  calculate_fees sample_rising_3
  = calculate_fees {| baseFeePerGas := [150; 160; 170; 180; 190; 200];
                      reward := reward sample_rising_3;
                      gasUsedRatio := gasUsedRatio sample_rising_3 |}.
Proof.
  exact (trend_window sample_rising_3
           {| baseFeePerGas := [150; 160; 170; 180; 190; 200];
              reward := reward sample_rising_3;
              gasUsedRatio := gasUsedRatio sample_rising_3 |}
           [100; 110; 120; 130; 140; 150; 160; 170; 180; 190] [150; 160; 170; 180; 190] 200
           eq_refl eq_refl ltac:(discriminate) ltac:(discriminate) eq_refl eq_refl eq_refl).
Defined.

(** X10.  With a single base fee the one-estimate script raises [IndexError]:
    the trend window is empty. *)
Theorem single_base_fee_raises (h : FeeHistory) (x : Z) :
  baseFeePerGas h = [x] -> calculate_fees h = Raise IndexError.
Proof. intros H. unfold calculate_fees. rewrite H. reflexivity. Qed.

End Window.

Section Totals.

Lemma scaled_tip_nonneg (avg : float) (n v : Z) :
  0 <= n -> int_times n (congestion_multiplier avg) = Ret v -> 0 <= v.
Proof.
  intros Hn H.
  destruct (congestion_multiplier_cases avg) as [E | [E | E]]; rewrite E in H;
    apply int_times_Ret in H; try lia; subst v; apply times_val_nonneg; lia.
Qed.

(** X10, witness: one base fee, one block. *)
Lemma single_base_fee_raises_witness :
  calculate_fees {| baseFeePerGas := [7]; reward := [[1; 2; 3]];
                    gasUsedRatio := [literal 5 10] |} = Raise IndexError.
Proof.
  exact (single_base_fee_raises
           {| baseFeePerGas := [7]; reward := [[1; 2; 3]]; gasUsedRatio := [literal 5 10] |}
           7 eq_refl).
Defined.

(** X11.  Four tiers: every final tip is non-negative and every cap covers
    the next block's base fee plus the tier's tip. *)
Theorem caps_cover_base_fee (d : FeeHistory) (r : Tiers) (nb : Z) :
  valid_sample 4 d -> predict_fees d = Ret r ->
  getitem (baseFeePerGas d) (-1) = Ret nb ->
  (0 <= median_tip_30 r /\ 0 <= median_tip_60 r /\
   0 <= median_tip_75 r /\ 0 <= median_tip_90 r) /\
  nb + median_tip_30 r <= max_fee_saver r /\
  nb + median_tip_60 r <= max_fee_std r /\
  nb + median_tip_75 r <= max_fee_rec r /\
  nb + median_tip_90 r <= max_fee_urgent r.
Proof.
  intros V H Enb. apply predict_fees_Ret in H.
  destruct H as (nb' & t30 & t60 & t75 & t90 & m30 & m60 & m75 & m90 & p30 & p60 & p75 & p90 &
                 avg & b2 & b4 & b6 & b10 & Hnb & Ht30 & Ht60 & Ht75 & Ht90 & Hm30 & Hm60 &
                 Hm75 & Hm90 & Hp & Havg & Ha30 & Ha60 & Ha75 & Ha90 & Hb2 & Hb4 & Hb6 & Hb10 &
                 F1 & F2 & F3 & F4).
  rewrite Enb in Hnb. inversion Hnb. subst nb'. clear Hnb.
  destruct V as [_ _ _ _ Vb Vr _].
  assert (Nnb : 0 <= nb).
  { apply getitem_In in Enb. rewrite Forall_forall in Vb. auto. }
  assert (N30 : 0 <= m30).
  { eapply median_tip_nonneg; [|exact Hm30]. eapply column_unsigned; eassumption. }
  apply enforce_minimum_improvement_ordered in Hp; [|assumption].
  destruct Hp as (-> & O1 & O2 & O3 & P60).
  pose proof (scaled_tip_nonneg avg m30 _ N30 Ha30).
  pose proof (scaled_tip_nonneg avg p60 _ ltac:(lia) Ha60).
  pose proof (scaled_tip_nonneg avg p75 _ ltac:(lia) Ha75).
  pose proof (scaled_tip_nonneg avg p90 _ ltac:(lia) Ha90).
  assert (C : forall k v, 1 <= k <= 16 -> calculate_max_base_fee nb k = Ret v -> nb <= v).
  { intros k v Hk E. apply calculate_max_base_fee_Ret in E; [|lia|lia]. subst v.
    apply Z.le_trans with (RN (RN nb * 9 ^ 1) / 8 ^ 1).
    - apply projection_closed_covers. assumption.
    - apply projection_closed_mono; try lia. apply RN_nonneg. lia. }
  pose proof (C 2 b2 ltac:(lia) Hb2). pose proof (C 4 b4 ltac:(lia) Hb4).
  pose proof (C 6 b6 ltac:(lia) Hb6). pose proof (C 10 b10 ltac:(lia) Hb10).
  lia.
Qed.

(** X11, witness: the ten rising blocks. *)
Lemma caps_cover_base_fee_witness :
  valid_sample 4 sample_rising /\ predict_fees sample_rising = Ret rising_tiers /\
  getitem (baseFeePerGas sample_rising) (-1) = Ret 200 /\
  200 + median_tip_30 rising_tiers <= max_fee_saver rising_tiers /\
  200 + median_tip_90 rising_tiers <= max_fee_urgent rising_tiers.
Proof.
  assert (E : predict_fees sample_rising = Ret rising_tiers) by (vm_compute; reflexivity).
  assert (G : getitem (baseFeePerGas sample_rising) (-1) = Ret 200) by reflexivity.
  split; [exact sample_rising_valid|]. split; [exact E|]. split; [exact G|].
  destruct (caps_cover_base_fee sample_rising rising_tiers 200 sample_rising_valid E G)
    as (_ & C1 & _ & _ & C4).
  split; assumption.
Defined.

End Totals.

Section OneEstimateTotal.

(** The first three statements of [calculate_fees] on a history of at
    least two base fees. *)
Lemma calculate_fees_head (bf : list Z) :
  (2 <= length bf)%nat ->
  exists nb newest oldest,
    In nb bf /\
    getitem bf (-1) = Ret nb /\
    getitem (slice bf (-6) (-1)) (-1) = Ret newest /\
    getitem (slice bf (-6) (-1)) 0 = Ret oldest.
Proof.
  intros H.
  assert (Ne : bf <> []) by (destruct bf; [simpl in H; lia|discriminate]).
  destruct (exists_last Ne) as (l & x & ->).
  rewrite length_app in H. cbn [length] in H.
  assert (L : (length l - 5 < length l)%nat) by lia.
  exists x, (last l 0), (nth (length l - 5) l 0). split; [apply in_or_app; right; left; reflexivity|].
  split; [|split].
  - rewrite (getitem_last_eq _ 0) by (destruct l; discriminate). rewrite last_last. reflexivity.
  - rewrite slice_window.
    rewrite (getitem_last_eq _ 0) by (apply skipn_nonempty; assumption).
    rewrite last_skipn by assumption. reflexivity.
  - rewrite slice_window.
    rewrite (getitem_first _ 0) by (apply skipn_nonempty; assumption).
    rewrite hd_skipn. reflexivity.
Qed.

(** One percentile column and its median, for tuples long enough. *)
Lemma column_median_ret (rewards : list (list Z)) (i k : Z) :
  rewards <> [] -> 0 <= i -> 0 <= k <= 990 ->
  Forall (fun r => i < Z.of_nat (length r)) rewards ->
  Forall (Forall (fun x => 0 <= x < 2 ^ k)) rewards ->
  exists col m, mapM (fun r => getitem r i) rewards = Ret col /\
                col <> [] /\ Forall (fun x => 0 <= x < 2 ^ k) col /\
                median_tip col = Ret m /\ 0 <= m < 2 ^ (k + 1).
Proof.
  intros Hne Hi Hk Hl Hb.
  destruct (mapM_getitem_total rewards i _ Hi Hl Hb) as (col & E & L & F).
  assert (Nc : col <> []).
  { destruct col; [destruct rewards; [congruence|discriminate]|discriminate]. }
  destruct (median_tip_ret col k Nc Hk F) as (m & Em & Bm).
  exists col, m. repeat split; try assumption; lia.
Qed.

Lemma congestion_adjust_ret (avg : float) (m : Z) :
  0 <= m < 2 ^ 900 ->
  exists t, congestion_adjust avg m = Ret t /\ 0 <= t <= 2 * m.
Proof.
  intros Hm.
  assert (B : 0 <= m < 2 ^ 960).
  { split; [lia|]. apply Z.lt_trans with (2 ^ 900); [lia|reflexivity]. }
  unfold congestion_adjust. rewrite literal_1_2, literal_0_9.
  destruct (flt _ avg); [|destruct (flt avg _)].
  - rewrite int_times_ret; [|assumption|lia|cbn; lia]. eexists. split; [reflexivity|].
    split; [apply times_val_nonneg; lia|apply times_at_most_double; lia].
  - rewrite int_times_ret; [|assumption|lia|cbn; lia]. eexists. split; [reflexivity|].
    split; [apply times_val_nonneg; lia|].
    pose proof (times_0_9 m ltac:(lia)) as [U _]. lia.
  - exists m. split; [reflexivity|lia].
Qed.

(** The estimate of a valid sample with fewer than [2^53] blocks and
    fees below [2^50], with bounds. *)
Lemma calculate_fees_total (h : FeeHistory) :
  valid_sample 3 h ->
  Z.of_nat (length (reward h)) < 2 ^ 53 ->
  Forall (fun x => x < 2 ^ 50) (baseFeePerGas h) ->
  Forall (Forall (fun x => x < 2 ^ 50)) (reward h) ->
  exists r,
    calculate_fees h = Ret r /\
    getitem (baseFeePerGas h) (-1) = Ret (base_fee_next r) /\
    0 <= base_fee_next r < 2 ^ 50 /\
    0 <= priority_fee_suggested r < 2 ^ 51 /\
    base_fee_next r <= max_fee_per_gas r < 2 ^ 53.
Proof.
  intros [V1 V2 V3 V4 V5 V6 _] Hl Hb Hr.
  assert (Rb : Forall (Forall (fun x => 0 <= x < 2 ^ 50)) (reward h)).
  { rewrite Forall_forall in *. intros r Hin. specialize (V6 r Hin). specialize (Hr r Hin).
    rewrite Forall_forall in *. intros x Hx. split; auto. }
  assert (Rl : Forall (fun r => 1 < Z.of_nat (length r)) (reward h)).
  { rewrite Forall_forall in *. intros r Hin. rewrite (V4 r Hin). lia. }
  assert (Ne : reward h <> []) by (destruct (reward h); [simpl in V1; lia|discriminate]).
  destruct (calculate_fees_head (baseFeePerGas h) ltac:(lia))
    as (nb & newest & oldest & Inb & Enb & En & Eo).
  assert (Bnb : 0 <= nb < 2 ^ 50).
  { rewrite Forall_forall in V5, Hb. split; auto. }
  destruct (column_median_ret (reward h) 1 50 Ne ltac:(lia) ltac:(lia) Rl Rb)
    as (col & m & Ec & Nc & Fc & _ & _).
  assert (Em : median_tip col = Ret (median_floor col)).
  { apply median_tip_small; [assumption|].
    eapply Forall_impl; [|exact Fc]. cbv beta. intros a Ha.
    split; [lia|]. apply Z.lt_trans with (2 ^ 50); [lia|reflexivity]. }
  assert (Bm : 0 <= median_floor col <= 2 ^ 50 - 1).
  { apply median_floor_within; [assumption|].
    eapply Forall_impl; [|exact Fc]. cbv beta. intros. lia. }
  destruct (avg_congestion_ret (gasUsedRatio h)) as (avg & Ea).
  { destruct (gasUsedRatio h); [simpl in V3; lia|discriminate]. }
  { rewrite V3. assumption. }
  destruct (congestion_adjust_ret avg (median_floor col)) as (t & Et & Bt).
  { split; [lia|]. apply Z.le_lt_trans with (2 ^ 50 - 1); [lia|reflexivity]. }
  unfold calculate_fees.
  rewrite Enb. cbn [bind]. rewrite En. cbn [bind]. rewrite Eo. cbn [bind].
  rewrite Ec. cbn [bind]. rewrite Em. cbn [bind]. rewrite Ea. cbn [bind].
  rewrite Et. cbn [bind].
  change (2 ^ 50) with 1125899906842624 in *.
  change (2 ^ 51) with 2251799813685248.
  assert (S53 : 3 * nb + 2 * t < 2 ^ 53) by (change (2 ^ 53) with 9007199254740992; lia).
  change (2 ^ 53) with 9007199254740992 in *.
  assert (H32 : nb <= 3 * nb / 2 <= 2 * nb).
  { split; [apply Z.div_le_lower_bound|apply Z.div_le_upper_bound]; lia. }
  destruct (negb (oldest <? newest) && flt avg (literal 5 10)).
  - destruct (cap_1_5 nb t ltac:(lia) ltac:(lia) S53) as [C _].
    apply bind_Ret in C. destruct C as (p & Ep & C).
    apply bind_Ret in C. destruct C as (s & Es & C).
    rewrite Ep. cbn [bind]. rewrite Es. cbn [bind]. rewrite C. cbn [bind].
    eexists. split; [reflexivity|].
    cbn [base_fee_next priority_fee_suggested max_fee_per_gas]. repeat split; lia.
  - destruct (cap_2_0 nb t ltac:(lia) ltac:(lia) ltac:(lia)) as [C _].
    apply bind_Ret in C. destruct C as (p & Ep & C).
    apply bind_Ret in C. destruct C as (s & Es & C).
    rewrite Ep. cbn [bind]. rewrite Es. cbn [bind]. rewrite C. cbn [bind].
    eexists. split; [reflexivity|].
    cbn [base_fee_next priority_fee_suggested max_fee_per_gas]. repeat split; lia.
Qed.

(** X12.  The one-estimate script returns an estimate on every valid sample
    with fewer than [2^53] blocks and fees below [2^50] wei. *)
Theorem calculate_fees_returns (h : FeeHistory) :
  valid_sample 3 h ->
  Z.of_nat (length (reward h)) < 2 ^ 53 ->
  Forall (fun x => x < 2 ^ 50) (baseFeePerGas h) ->
  Forall (Forall (fun x => x < 2 ^ 50)) (reward h) ->
  exists r, calculate_fees h = Ret r.
Proof.
  intros V Hl Hb Hr. destruct (calculate_fees_total h V Hl Hb Hr) as (r & E & _).
  exists r. exact E.
Qed.

(** X12, witness: the ten rising blocks. *)
Lemma calculate_fees_returns_witness :
  valid_sample 3 sample_rising_3 /\ exists r, calculate_fees sample_rising_3 = Ret r.
Proof.
  split; [exact sample_rising_3_valid|].
  apply (calculate_fees_returns sample_rising_3 sample_rising_3_valid).
  - vm_compute. reflexivity.
  - repeat constructor.
  - repeat constructor.
Defined.

(** X13.  One estimate, for [3 b + 2 t < 2^53]: the tip is not negative and the
    cap covers the next block's base fee plus the tip. *)
Theorem one_estimate_cap_covers (h : FeeHistory) (r : Estimate) :
  valid_sample 3 h -> calculate_fees h = Ret r ->
  3 * base_fee_next r + 2 * priority_fee_suggested r < 2 ^ 53 ->
  0 <= base_fee_next r /\ 0 <= priority_fee_suggested r /\
  base_fee_next r + priority_fee_suggested r <= max_fee_per_gas r.
Proof.
  intros V H Hsmall. apply calculate_fees_Ret in H.
  destruct H as (newest & oldest & cols & m & p & s & Hnb & Hn & Ho & Hc & Hm & Ha & Ht &
                 Hp & Hs & Hcap).
  destruct V as [_ _ _ _ Vb Vr _].
  assert (Nnb : 0 <= base_fee_next r).
  { apply getitem_In in Hnb. rewrite Forall_forall in Vb. auto. }
  assert (Nm : 0 <= m).
  { eapply median_tip_nonneg; [|exact Hm]. eapply column_unsigned; eassumption. }
  pose proof (congestion_adjust_nonneg _ _ _ Nm Ht) as Nt.
  split; [assumption|]. split; [assumption|].
  destruct (negb (oldest <? newest) && flt (congestion r) (literal 5 10)).
  - destruct (cap_1_5 (base_fee_next r) (priority_fee_suggested r) Nnb Nt Hsmall) as [C _].
    rewrite Hp in C. cbn [bind] in C. rewrite Hs in C. cbn [bind] in C. rewrite Hcap in C.
    assert (C' : max_fee_per_gas r = 3 * base_fee_next r / 2 + priority_fee_suggested r) by congruence.
    assert (base_fee_next r <= 3 * base_fee_next r / 2) by (apply Z.div_le_lower_bound; lia).
    lia.
  - destruct (cap_2_0 (base_fee_next r) (priority_fee_suggested r) Nnb Nt ltac:(lia)) as [C _].
    rewrite Hp in C. cbn [bind] in C. rewrite Hs in C. cbn [bind] in C. rewrite Hcap in C.
    assert (C' : max_fee_per_gas r = 2 * base_fee_next r + priority_fee_suggested r) by congruence.
    lia.
Qed.

(** X13, witness: the ten rising blocks. *)
Lemma one_estimate_cap_covers_witness :
  valid_sample 3 sample_rising_3 /\ calculate_fees sample_rising_3 = Ret rising_estimate /\
  base_fee_next rising_estimate + priority_fee_suggested rising_estimate
  <= max_fee_per_gas rising_estimate.
Proof.
  assert (E : calculate_fees sample_rising_3 = Ret rising_estimate)
    by (vm_compute; reflexivity).
  assert (B : 3 * base_fee_next rising_estimate + 2 * priority_fee_suggested rising_estimate
              < 2 ^ 53) by (vm_compute; reflexivity).
  split; [exact sample_rising_3_valid|]. split; [exact E|].
  exact (proj2 (proj2 (one_estimate_cap_covers sample_rising_3 rising_estimate
                         sample_rising_3_valid E B))).
Defined.

End OneEstimateTotal.

Section NoRatios.

(** X14.  With no utilization ratio both scripts raise [ZeroDivisionError]:
    the average divides by the number of ratios, after the base fees and
    the tips have been read (for the four tiers, with base fees below
    [2^900], which the script can print). *)
Theorem no_ratio_raises (h : FeeHistory) :
  reward h <> [] ->
  Forall (Forall (fun x => 0 <= x < 2 ^ 900)) (reward h) ->
  gasUsedRatio h = [] ->
  (baseFeePerGas h <> [] -> Forall (fun x => 0 <= x < 2 ^ 900) (baseFeePerGas h) ->
   Forall (fun r => (4 <= length r)%nat) (reward h) ->
   predict_fees h = Raise ZeroDivisionError) /\
  ((2 <= length (baseFeePerGas h))%nat -> Forall (fun r => (2 <= length r)%nat) (reward h) ->
   calculate_fees h = Raise ZeroDivisionError).
Proof.
  intros Ne Rb G. split.
  - intros Nb _ Rl.
    assert (Col : forall i, 0 <= i < 4 ->
              exists col m, mapM (fun r => getitem r i) (reward h) = Ret col /\
                            median_tip col = Ret m /\ 0 <= m < 2 ^ 901).
    { intros i Hi.
      destruct (column_median_ret (reward h) i 900 Ne ltac:(lia) ltac:(lia))
        as (col & m & E & _ & _ & Em & Bm); [|assumption|].
      - eapply Forall_impl; [|exact Rl]. cbv beta. intros. lia.
      - exists col, m. repeat split; try assumption; lia. }
    unfold predict_fees.
    destruct (getitem_last (baseFeePerGas h) Nb) as (nb & Enb). rewrite Enb. cbn [bind].
    destruct (Col 0 ltac:(lia)) as (c0 & m0 & E0 & M0 & B0). rewrite E0. cbn [bind].
    destruct (Col 1 ltac:(lia)) as (c1 & m1 & E1 & M1 & B1). rewrite E1. cbn [bind].
    destruct (Col 2 ltac:(lia)) as (c2 & m2 & E2 & M2 & B2). rewrite E2. cbn [bind].
    destruct (Col 3 ltac:(lia)) as (c3 & m3 & E3 & M3 & B3). rewrite E3. cbn [bind].
    rewrite M0, M1, M2, M3. cbn [bind].
    destruct (enforce_minimum_improvement_ret m0 m1 m2 m3 901) as (b' & c' & d' & Ep & _);
      try lia.
    rewrite Ep. cbn [bind]. rewrite G. reflexivity.
  - intros Nb Rl.
    destruct (calculate_fees_head (baseFeePerGas h) Nb) as (nb & newest & oldest & _ & Enb & En & Eo).
    destruct (column_median_ret (reward h) 1 900 Ne ltac:(lia) ltac:(lia))
      as (col & m & E & _ & _ & Em & Bm); [|assumption|].
    { eapply Forall_impl; [|exact Rl]. cbv beta. intros. lia. }
    unfold calculate_fees.
    rewrite Enb. cbn [bind]. rewrite En. cbn [bind]. rewrite Eo. cbn [bind].
    rewrite E. cbn [bind]. rewrite Em. cbn [bind]. rewrite G. reflexivity.
Qed.

(** X14, witness: one block, no ratio. *)
Lemma no_ratio_raises_witness :
  predict_fees {| baseFeePerGas := [100; 100]; reward := [[1; 2; 3; 4]];
                  gasUsedRatio := [] |} = Raise ZeroDivisionError /\
  calculate_fees {| baseFeePerGas := [100; 100]; reward := [[1; 2; 3; 4]];
                    gasUsedRatio := [] |} = Raise ZeroDivisionError.
Proof.
  destruct (no_ratio_raises
              {| baseFeePerGas := [100; 100]; reward := [[1; 2; 3; 4]]; gasUsedRatio := [] |})
    as [P C].
  - discriminate.
  - repeat constructor; vm_compute; reflexivity || discriminate.
  - reflexivity.
  - split.
    + apply P.
      * discriminate.
      * repeat constructor; vm_compute; reflexivity || discriminate.
      * repeat constructor.
    + apply C.
      * simpl. lia.
      * repeat constructor; simpl; lia.
Defined.

End NoRatios.

Section Hexadecimal.

Lemma digit_value_hex_digit (d : Z) :
  0 <= d < 16 -> digit_value (hex_digit d) = Some d.
Proof.
  intros H.
  assert (E : d = 0 \/ d = 1 \/ d = 2 \/ d = 3 \/ d = 4 \/ d = 5 \/ d = 6 \/ d = 7 \/
              d = 8 \/ d = 9 \/ d = 10 \/ d = 11 \/ d = 12 \/ d = 13 \/ d = 14 \/ d = 15) by lia.
  repeat (destruct E as [-> | E]; [reflexivity|]). subst d. reflexivity.
Qed.

Lemma digit_value_cases (c : ascii) (d : Z) :
  digit_value c = Some d ->
  (48 <= code c <= 57 /\ d = code c - 48) \/
  (97 <= code c <= 102 /\ d = code c - 87) \/
  (65 <= code c <= 70 /\ d = code c - 55).
Proof.
  unfold digit_value. cbv zeta.
  destruct (Z.leb_spec 48 (code c)); destruct (Z.leb_spec (code c) 57); cbn [andb];
    try (intros Q; inversion Q; lia);
    destruct (Z.leb_spec 97 (code c)); destruct (Z.leb_spec (code c) 102); cbn [andb];
    try (intros Q; inversion Q; lia);
    destruct (Z.leb_spec 65 (code c)); destruct (Z.leb_spec (code c) 70); cbn [andb];
    try (intros Q; inversion Q; lia); discriminate.
Qed.

Lemma digit_value_range (c : ascii) (d : Z) : digit_value c = Some d -> 0 <= d < 16.
Proof. intros H. apply digit_value_cases in H. lia. Qed.

Lemma digit_not_underscore (c : ascii) (d : Z) :
  digit_value c = Some d -> Ascii.eqb c "_" = false.
Proof.
  intros H. destruct (Ascii.eqb_spec c "_") as [-> | N]; [discriminate|reflexivity].
Qed.

Lemma digit_not_space (c : ascii) (d : Z) : digit_value c = Some d -> int_space c = false.
Proof.
  intros H. apply digit_value_cases in H. unfold int_space. cbv zeta.
  destruct (Z.leb_spec 9 (code c)); destruct (Z.leb_spec (code c) 13);
    destruct (Z.eqb_spec (code c) 32); destruct (Z.eqb_spec (code c) 133);
    destruct (Z.eqb_spec (code c) 160); try lia; reflexivity.
Qed.

(** One scanning step on a digit. *)
Lemma scan_digits_digit (c : ascii) (s : string) (d : Z) (p : bool) (k : nat) (acc : Z) :
  digit_value c = Some d ->
  scan_digits (String c s) p k acc = scan_digits s false (S k) (16 * acc + d).
Proof.
  intros H. cbn [scan_digits]. rewrite (digit_not_underscore c d H), H. reflexivity.
Qed.

(** Scanning the digits [hex] writes gives back the number. *)
Lemma scan_hex_digits (fuel : nat) :
  forall (n : Z) (tail : string) (k : nat) (acc : Z),
    0 <= n < 16 ^ Z.of_nat (S fuel) ->
    exists j c rest,
      hex_digits (S fuel) n tail = String c rest /\
      (exists d, digit_value c = Some d) /\
      scan_digits (hex_digits (S fuel) n tail) false k acc
      = scan_digits tail false (k + S j) (acc * 16 ^ Z.of_nat (S j) + n).
Proof.
  induction fuel as [ | fuel IH ]; intros n tail k acc Hn.
  - change (16 ^ Z.of_nat 1) with 16 in Hn.
    assert (E : hex_digits 1 n tail = String (hex_digit n) tail).
    { cbn [hex_digits]. rewrite Z.mod_small by lia. destruct (_ =? 0); reflexivity. }
    rewrite E. exists 0%nat, (hex_digit n), tail.
    split; [reflexivity|]. split; [exists n; apply digit_value_hex_digit; lia|].
    rewrite (scan_digits_digit _ _ n) by (apply digit_value_hex_digit; lia).
    f_equal; [lia|]. change (16 ^ Z.of_nat 1) with 16. lia.
  - assert (M : 0 <= n mod 16 < 16) by (apply Z.mod_pos_bound; lia).
    assert (D : n = 16 * (n / 16) + n mod 16) by (apply Z.div_mod; lia).
    remember (S fuel) as f eqn:Ef.
    cbn [hex_digits]. destruct (Z.eqb_spec (n / 16) 0) as [Z | NZ].
    + exists 0%nat, (hex_digit (n mod 16)), tail.
      split; [reflexivity|]. split; [exists (n mod 16); apply digit_value_hex_digit; lia|].
      rewrite (scan_digits_digit _ _ (n mod 16)) by (apply digit_value_hex_digit; lia).
      f_equal; [lia|]. change (16 ^ Z.of_nat 1) with 16. lia.
    + assert (Hq : 0 <= n / 16 < 16 ^ Z.of_nat f).
      { split; [apply Z.div_pos; lia|]. apply Z.div_lt_upper_bound; [lia|].
        replace (Z.of_nat (S f)) with (Z.of_nat f + 1) in Hn by lia.
        rewrite Z.pow_add_r in Hn by lia. lia. }
      subst f.
      destruct (IH (n / 16) (String (hex_digit (n mod 16)) tail) k acc Hq)
        as (j & c & rest & E & Dc & Sc).
      exists (S j), c, rest. split; [exact E|]. split; [exact Dc|].
      rewrite Sc.
      rewrite (scan_digits_digit _ _ (n mod 16)) by (apply digit_value_hex_digit; lia).
      f_equal; [lia|].
      replace (Z.of_nat (S (S j))) with (Z.of_nat (S j) + 1) by lia.
      rewrite Z.pow_add_r by lia. lia.
Qed.

Lemma fuel_enough (n : Z) : 0 <= n -> n < 16 ^ Z.of_nat (S (Z.to_nat (Z.log2 n))).
Proof.
  intros H. destruct (Z.eq_dec n 0) as [-> | N]; [reflexivity|].
  pose proof (Z.log2_nonneg n).
  replace (Z.of_nat (S (Z.to_nat (Z.log2 n)))) with (Z.log2 n + 1) by lia.
  pose proof (log2_bounds n ltac:(lia)) as [_ U].
  apply Z.lt_le_trans with (2 ^ (Z.log2 n + 1)); [assumption|].
  apply Z.pow_le_mono_l. lia.
Qed.

(** What [int_16] does after the spaces, the sign and the prefix, when
    the number starts with a digit. *)
Lemma skip_underscore (c : ascii) (s : string) :
  Ascii.eqb c "_" = false ->
  match String c s with
  | String "_" s'' => s''
  | _ => String c s
  end = String c s.
Proof.
  intros H. destruct c as [[] [] [] [] [] [] [] []]; try reflexivity; discriminate.
Qed.

Lemma reject_underscore (A : Type) (c : ascii) (s : string) (x y : A) :
  Ascii.eqb c "_" = false ->
  match String c s with
  | String "_" _ => x
  | _ => y
  end = y.
Proof.
  intros H. destruct c as [[] [] [] [] [] [] [] []]; try reflexivity; discriminate.
Qed.

Lemma int_16_prefixed (c : ascii) (s : string) (d : Z) :
  digit_value c = Some d ->
  int_16 (String "0" (String "x" (String c s))) =
  match scan_digits (String c s) false 0 0 with
  | None => Raise ValueError
  | Some (v, digits, rest) =>
      match digits, skip_spaces rest with
      | S _, EmptyString => Ret v
      | _, _ => Raise ValueError
      end
  end /\
  int_16 (String "-" (String "0" (String "x" (String c s)))) =
  match scan_digits (String c s) false 0 0 with
  | None => Raise ValueError
  | Some (v, digits, rest) =>
      match digits, skip_spaces rest with
      | S _, EmptyString => Ret (- v)
      | _, _ => Raise ValueError
      end
  end.
Proof.
  intros H. pose proof (digit_not_underscore c d H) as U.
  unfold int_16.
  change (skip_spaces (String "0" (String "x" (String c s))))
    with (String "0" (String "x" (String c s))).
  change (skip_spaces (String "-" (String "0" (String "x" (String c s)))))
    with (String "-" (String "0" (String "x" (String c s)))).
  cbv iota beta. change (Ascii.eqb "x" "x" || Ascii.eqb "x" "X") with true. cbv iota.
  rewrite (skip_underscore c s U). rewrite !(reject_underscore _ c s _ _ U).
  split; reflexivity.
Qed.

(** X15.  The value [hex] writes is the value [int] reads. *)
Theorem int_of_hex (n : Z) : int_16 (hex n) = Ret n.
Proof.
  unfold hex.
  destruct (scan_hex_digits (Z.to_nat (Z.log2 (Z.abs n))) (Z.abs n) EmptyString 0 0)
    as (j & c & rest & E & (d & Dc) & Sc).
  { split; [lia|]. apply fuel_enough. lia. }
  rewrite E in *.
  destruct (int_16_prefixed c rest d Dc) as [P N].
  change (scan_digits EmptyString false (0 + S j) (0 * 16 ^ Z.of_nat (S j) + Z.abs n))
    with (Some (0 * 16 ^ Z.of_nat (S j) + Z.abs n, S j, EmptyString)) in Sc.
  rewrite Z.mul_0_l, Z.add_0_l in Sc.
  destruct (Z.ltb_spec n 0).
  - rewrite N, Sc. cbn [skip_spaces]. f_equal. lia.
  - rewrite P, Sc. cbn [skip_spaces]. f_equal. lia.
Qed.

Lemma scan_all_hex_digits (s : string) :
  forall (k : nat) (acc : Z),
    all_hex_digits s = true ->
    scan_digits s false k acc = Some (digits_value s acc, (k + String.length s)%nat, EmptyString).
Proof.
  induction s as [ | c s IH ]; intros k acc H.
  - cbn. rewrite Nat.add_0_r. reflexivity.
  - cbn [all_hex_digits] in H. destruct (digit_value c) as [d | ] eqn:D; [|discriminate].
    rewrite (scan_digits_digit _ _ d _ _ _ D). rewrite IH by assumption.
    cbn [digits_value String.length]. rewrite D.
    replace (k + S (String.length s))%nat with (S k + String.length s)%nat by lia.
    reflexivity.
Qed.

Lemma digits_value_nonneg (s : string) :
  forall acc, 0 <= acc -> 0 <= digits_value s acc.
Proof.
  induction s as [ | c s IH ]; intros acc H; [assumption|].
  cbn [digits_value]. destruct (digit_value c) as [d | ] eqn:D; [|assumption].
  apply IH. apply digit_value_range in D. lia.
Qed.

(** X16.  A quantity of the RPC answer, [0x] followed by hexadecimal digits,
    decodes to the value of its digits, which is not negative. *)
Theorem int_of_quantity (ds : string) :
  ds <> EmptyString -> all_hex_digits ds = true ->
  int_16 (String "0" (String "x" ds)) = Ret (digits_value ds 0) /\ 0 <= digits_value ds 0.
Proof.
  intros Hne H. split; [|apply digits_value_nonneg; lia].
  destruct ds as [ | c s ]; [congruence|].
  pose proof H as H'. cbn [all_hex_digits] in H'.
  destruct (digit_value c) as [d | ] eqn:D; [|discriminate].
  destruct (int_16_prefixed c s d D) as [P _]. rewrite P.
  rewrite scan_all_hex_digits by assumption. reflexivity.
Qed.

(** X16, witness: the quantity 0x1f. *)
Lemma int_of_quantity_witness :
  int_16 "0x1f" = Ret 31 /\ 0 <= 31.
Proof.
  exact (int_of_quantity "1f" ltac:(discriminate) eq_refl).
Defined.

Lemma int_16_exn (s : string) (e : exn) : int_16 s = Raise e -> e = ValueError.
Proof.
  unfold int_16.
  destruct (match skip_spaces s with
            | String "+" s' => (false, s')
            | String "-" s' => (true, s')
            | _ => (false, skip_spaces s)
            end) as [negative t].
  set (u := match t with
            | String "0" (String c s') =>
                if Ascii.eqb c "x" || Ascii.eqb c "X"
                then match s' with
                     | String "_" s'' => s''
                     | _ => s'
                     end
                else t
            | _ => t
            end).
  assert (G : forall (r : result Z),
             (r = Raise e -> e = ValueError) ->
             match u with
             | String "_" _ => Raise ValueError
             | _ => r
             end = Raise e -> e = ValueError).
  { intros r Hr. destruct u as [ | [[] [] [] [] [] [] [] []] u' ]; try exact Hr; congruence. }
  apply G.
  destruct (scan_digits u false 0 0) as [[[v digits] rest] | ]; [|congruence].
  destruct digits; [congruence|]. destruct (skip_spaces rest); congruence.
Qed.

End Hexadecimal.

Section JsonScripts.

Lemma mapM_raises {A B : Type} (f : A -> result B) (l : list A) (a : A) (e E : exn) :
  (forall x e', f x = Raise e' -> e' = E) ->
  In a l -> f a = Raise e -> mapM f l = Raise E.
Proof.
  intros Hf Hin Ha. induction l as [ | x l IH ]; [destruct Hin|].
  cbn [mapM]. destruct (f x) as [e' | b] eqn:Ex; cbn [bind].
  - f_equal. eapply Hf. eassumption.
  - destruct Hin as [-> | Hin]; [congruence|].
    rewrite (IH Hin). reflexivity.
Qed.

Lemma mapM_ext_Forall2 {A B : Type} (f : A -> result B) (l l' : list A) :
  Forall2 (fun a a' => f a = f a') l l' -> mapM f l = mapM f l'.
Proof.
  intros H. induction H as [ | a a' l l' Ha _ IH ]; [reflexivity|].
  cbn [mapM]. rewrite Ha, IH. reflexivity.
Qed.

Lemma calculate_cost_usd_ret (wei : Z) :
  0 <= wei < 2 ^ 980 -> exists f, calculate_cost_usd wei 21000 2500 = Ret f.
Proof.
  intros H. unfold calculate_cost_usd, int_div_float, float_mul_int.
  assert (B : 0 <= wei * 21000 < 2 ^ 1000).
  { split; [lia|]. apply Z.lt_le_trans with (2 ^ 980 * 2 ^ 20); [|reflexivity].
    change (2 ^ 20) with 1048576. lia. }
  destruct (float_of_int_ret _ B) as (x & E). rewrite E. cbn [bind].
  destruct (float_of_Z (10 ^ 18)) eqn:F; try (vm_compute in F; discriminate);
    cbn [bind]; replace (float_of_int 2500) with (Ret (float_of_Z 2500)) by reflexivity;
    cbn [bind]; eauto.
Qed.

Lemma print_row_ret (max_fee tip : Z) :
  0 <= max_fee < 2 ^ 980 -> 0 <= tip < 2 ^ 980 -> print_row max_fee tip = Ret tt.
Proof.
  intros Hf Ht. unfold print_row.
  assert (W : forall x, 0 <= x < 2 ^ 980 -> 0 <= x < 2 ^ 1000).
  { intros x Hx. split; [lia|]. apply Z.lt_trans with (2 ^ 980); [lia|reflexivity]. }
  destruct (fmt_gwei_ret max_fee (W _ Hf)) as (a & Ea). rewrite Ea. cbn [bind].
  destruct (fmt_gwei_ret tip (W _ Ht)) as (b & Eb). rewrite Eb. cbn [bind].
  destruct (calculate_cost_usd_ret max_fee Hf) as (c & Ec). rewrite Ec. reflexivity.
Qed.

Lemma column_bounded (P : Z -> Prop) (rewards : list (list Z)) (i : Z) (col : list Z) :
  Forall (Forall P) rewards ->
  mapM (fun r => getitem r i) rewards = Ret col ->
  Forall P col.
Proof.
  intros Hr H. apply mapM_Ret in H.
  induction H as [ | r x rs xs Hx _ IH ]; [constructor|].
  inversion Hr as [ | ? ? Hr1 Hr2 ]; subst. constructor; [|auto].
  apply getitem_In in Hx. rewrite Forall_forall in Hr1. auto.
Qed.

(** A projection of up to 16 blocks is less than 32 times the base
    fee, rounding included. *)
Lemma projection_upper (nb k v : Z) :
  0 <= nb -> 0 <= k <= 16 -> calculate_max_base_fee nb k = Ret v -> 0 <= v <= 32 * nb.
Proof.
  intros Hnb Hk E. apply calculate_max_base_fee_Ret in E; [|lia|lia]. subst v.
  destruct (pow9_bounds k Hk) as ([L U] & U').
  replace (3 * k + 3) with (3 + 3 * k) in U' by lia.
  rewrite Z.pow_add_r, pow8 in U' by lia. rewrite pow8 in L by lia.
  change (2 ^ 3) with 8 in U'.
  assert (P8 : 0 < 8 ^ k) by (apply Z.pow_pos_nonneg; lia).
  pose proof (RN_nonneg nb Hnb) as N1.
  pose proof (RN_error nb Hnb) as [_ E1].
  assert (N2 : 0 <= RN nb * 9 ^ k) by (apply Z.mul_nonneg_nonneg; lia).
  pose proof (RN_nonneg _ N2) as N3.
  pose proof (RN_error _ N2) as [_ E2].
  change (2 ^ 53) with 9007199254740992 in *.
  split; [apply Z.div_pos; lia|].
  apply Z.div_le_upper_bound; [lia|].
  assert (RN nb <= 2 * nb) by lia.
  assert (RN (RN nb * 9 ^ k) <= 2 * (RN nb * 9 ^ k)) by lia.
  assert (RN nb * 9 ^ k <= 2 * nb * (8 * 8 ^ k)).
  { apply Z.mul_le_mono_nonneg; lia. }
  lia.
Qed.

Lemma scaled_tip_bounds (avg : float) (n v : Z) :
  0 <= n -> int_times n (congestion_multiplier avg) = Ret v -> 0 <= v <= 2 * n.
Proof.
  intros Hn H.
  destruct (congestion_multiplier_cases avg) as [E | [E | E]]; rewrite E in H;
    apply int_times_Ret in H; try lia; subst v;
    (split; [apply times_val_nonneg; lia|]).
  - pose proof (times_0_95 n Hn) as [U _]. lia.
  - apply times_at_most_double; lia.
  - apply times_at_most_double; lia.
Qed.

(** The table of a valid sample with fees below [2^900]: every tip and
    every cap is below [2^910]. *)
Lemma predict_fees_bounds (d : FeeHistory) (r : Tiers) :
  valid_sample 4 d ->
  Forall (fun x => x < 2 ^ 900) (baseFeePerGas d) ->
  Forall (Forall (fun x => x < 2 ^ 900)) (reward d) ->
  predict_fees d = Ret r ->
  (0 <= median_tip_30 r < 2 ^ 910 /\ 0 <= median_tip_60 r < 2 ^ 910 /\
   0 <= median_tip_75 r < 2 ^ 910 /\ 0 <= median_tip_90 r < 2 ^ 910) /\
  (0 <= max_fee_saver r < 2 ^ 910 /\ 0 <= max_fee_std r < 2 ^ 910 /\
   0 <= max_fee_rec r < 2 ^ 910 /\ 0 <= max_fee_urgent r < 2 ^ 910).
Proof.
  intros [V1 V2 V3 V4 V5 V6 _] Hb Hr H. apply predict_fees_Ret in H.
  destruct H as (nb & t30 & t60 & t75 & t90 & m30 & m60 & m75 & m90 & p30 & p60 & p75 & p90 &
                 avg & b2 & b4 & b6 & b10 & Hnb & Ht30 & Ht60 & Ht75 & Ht90 & Hm30 & Hm60 &
                 Hm75 & Hm90 & Hp & Havg & Ha30 & Ha60 & Ha75 & Ha90 & Hb2 & Hb4 & Hb6 & Hb10 &
                 F1 & F2 & F3 & F4).
  assert (Rb : Forall (Forall (fun x => 0 <= x < 2 ^ 900)) (reward d)).
  { rewrite Forall_forall in *. intros t Hin. specialize (V6 t Hin). specialize (Hr t Hin).
    rewrite Forall_forall in *. intros x Hx. split; auto. }
  assert (Bnb : 0 <= nb < 2 ^ 900).
  { apply getitem_In in Hnb. rewrite Forall_forall in V5, Hb. split; auto. }
  assert (Med : forall i col m, mapM (fun t => getitem t i) (reward d) = Ret col ->
                                median_tip col = Ret m -> 0 <= m < 2 ^ 901).
  { intros i col m Ec Em.
    assert (Nc : col <> []) by (intros ->; discriminate).
    pose proof (column_bounded _ _ _ _ Rb Ec) as Fc.
    destruct (median_tip_ret col 900 Nc ltac:(lia) Fc) as (m' & Em' & Bm).
    assert (m = m') by congruence. subst m'. exact Bm. }
  pose proof (Med _ _ _ Ht30 Hm30) as B30. pose proof (Med _ _ _ Ht60 Hm60) as B60.
  pose proof (Med _ _ _ Ht75 Hm75) as B75. pose proof (Med _ _ _ Ht90 Hm90) as B90.
  destruct (enforce_minimum_improvement_ret m30 m60 m75 m90 901)
    as (b' & c' & d' & Ep & Bb & Bc & Bd); try lia.
  rewrite Ep in Hp. inversion Hp. subst p30 p60 p75 p90. clear Hp.
  pose proof (scaled_tip_bounds avg m30 _ ltac:(lia) Ha30) as S30.
  pose proof (scaled_tip_bounds avg b' _ ltac:(lia) Ha60) as S60.
  pose proof (scaled_tip_bounds avg c' _ ltac:(lia) Ha75) as S75.
  pose proof (scaled_tip_bounds avg d' _ ltac:(lia) Ha90) as S90.
  pose proof (projection_upper nb 2 b2 ltac:(lia) ltac:(lia) Hb2) as P2.
  pose proof (projection_upper nb 4 b4 ltac:(lia) ltac:(lia) Hb4) as P4.
  pose proof (projection_upper nb 6 b6 ltac:(lia) ltac:(lia) Hb6) as P6.
  pose proof (projection_upper nb 10 b10 ltac:(lia) ltac:(lia) Hb10) as P10.
  assert (Q : 0 < 2 ^ 900) by reflexivity.
  change (2 ^ (901 + 1)) with (4 * 2 ^ 900) in *. change (2 ^ (901 + 2)) with (8 * 2 ^ 900) in *.
  change (2 ^ (901 + 3)) with (16 * 2 ^ 900) in *. change (2 ^ 901) with (2 * 2 ^ 900) in *.
  change (2 ^ 910) with (1024 * 2 ^ 900).
  set (T := 2 ^ 900) in *. lia.
Qed.

(** X17.  On an answer that decodes to a valid sample with fewer than [2^53]
    blocks and fees below [2^900], the four-tier script decodes, computes
    and prints its table: nothing raises, and the table is that of the
    decoded model. *)
Theorem script_prints_table
  (d : FeeHistoryJson) (base_fees : list Z) (rewards : list (list Z)) :
  mapM int_16 (json_baseFeePerGas d) = Ret base_fees ->
  mapM (mapM int_16) (json_reward d) = Ret rewards ->
  valid_sample 4 {| baseFeePerGas := base_fees; reward := rewards;
                    gasUsedRatio := json_gasUsedRatio d |} ->
  Z.of_nat (List.length rewards) < 2 ^ 53 ->
  Forall (fun x => x < 2 ^ 900) base_fees ->
  Forall (Forall (fun x => x < 2 ^ 900)) rewards ->
  exists t,
    predict_fees_script d = Ret t /\
    predict_fees {| baseFeePerGas := base_fees; reward := rewards;
                    gasUsedRatio := json_gasUsedRatio d |} = Ret t.
Proof.
  intros Hb Hr V Hl Bb Br.
  destruct (predict_fees_returns _ V Hl Bb Br) as (t & Et).
  destruct (predict_fees_bounds _ t V Bb Br Et)
    as ((T1 & T2 & T3 & T4) & C1 & C2 & C3 & C4).
  exists t. split; [|exact Et].
  unfold predict_fees_script. rewrite Hb. cbn [bind].
  destruct (getitem_last base_fees) as (nb & Enb).
  { destruct V as [_ V2 _ _ _ _ _]. cbn [baseFeePerGas reward] in V2.
    destruct base_fees; [discriminate|discriminate]. }
  rewrite Enb. cbn [bind].
  assert (Bnb : 0 <= nb < 2 ^ 1000).
  { destruct V as [_ _ _ _ V5 _ _]. cbn [baseFeePerGas] in V5.
    apply getitem_In in Enb. rewrite Forall_forall in V5, Bb.
    split; [auto|]. apply Z.lt_trans with (2 ^ 900); [auto|reflexivity]. }
  destruct (fmt_gwei_ret nb Bnb) as (g & Eg). unfold fmt_gwei in Eg. rewrite Eg. cbn [bind].
  rewrite Hr. cbn [bind]. rewrite Et. cbn [bind].
  assert (W : forall x, 0 <= x < 2 ^ 910 -> 0 <= x < 2 ^ 980).
  { intros x Hx. split; [lia|]. apply Z.lt_trans with (2 ^ 910); [lia|reflexivity]. }
  rewrite !print_row_ret by (apply W; assumption). reflexivity.
Qed.

(** X17, witness: the ten rising blocks as the RPC answers them. *)
Lemma script_prints_table_witness :
  mapM int_16 (json_baseFeePerGas sample_rising_json) = Ret (baseFeePerGas sample_rising) /\
  mapM (mapM int_16) (json_reward sample_rising_json) = Ret (reward sample_rising) /\
  valid_sample 4 sample_rising /\
  exists t, predict_fees_script sample_rising_json = Ret t /\ predict_fees sample_rising = Ret t.
Proof.
  assert (Hb : mapM int_16 (json_baseFeePerGas sample_rising_json)
               = Ret (baseFeePerGas sample_rising)) by (vm_compute; reflexivity).
  assert (Hr : mapM (mapM int_16) (json_reward sample_rising_json)
               = Ret (reward sample_rising)) by (vm_compute; reflexivity).
  split; [exact Hb|]. split; [exact Hr|]. split; [exact sample_rising_valid|].
  apply (script_prints_table sample_rising_json _ _ Hb Hr sample_rising_valid).
  - vm_compute. reflexivity.
  - repeat constructor.
  - repeat constructor.
Defined.

(** X18.  When the quantities of the answer decode, [calculate_fees] computes
    what its decoded model computes on the decoded values, error
    included. *)
Theorem calculate_fees_json_decoded
  (h : FeeHistoryJson) (base_fees : list Z) (rewards : list (list Z)) :
  mapM int_16 (json_baseFeePerGas h) = Ret base_fees ->
  mapM (mapM int_16) (json_reward h) = Ret rewards ->
  calculate_fees_json h
  = calculate_fees {| baseFeePerGas := base_fees; reward := rewards;
                      gasUsedRatio := json_gasUsedRatio h |}.
Proof.
  intros Hb Hr. unfold calculate_fees_json, calculate_fees. rewrite Hb.
  cbn [bind baseFeePerGas reward gasUsedRatio].
  rewrite (column_decoded _ _ 1 Hr). reflexivity.
Qed.

(** X18, witness: the ten rising blocks as the RPC answers them. *)
Lemma calculate_fees_json_decoded_witness :
  mapM int_16 (json_baseFeePerGas sample_rising_3_json) = Ret (baseFeePerGas sample_rising_3) /\
  mapM (mapM int_16) (json_reward sample_rising_3_json) = Ret (reward sample_rising_3) /\
  calculate_fees_json sample_rising_3_json = calculate_fees sample_rising_3.
Proof.
  assert (Hb : mapM int_16 (json_baseFeePerGas sample_rising_3_json)
               = Ret (baseFeePerGas sample_rising_3)) by (vm_compute; reflexivity).
  assert (Hr : mapM (mapM int_16) (json_reward sample_rising_3_json)
               = Ret (reward sample_rising_3)) by (vm_compute; reflexivity).
  split; [exact Hb|]. split; [exact Hr|].
  exact (calculate_fees_json_decoded sample_rising_3_json _ _ Hb Hr).
Defined.

(** X19.  A base fee that is not a hexadecimal number makes both scripts raise
    [ValueError], whatever the rest of the answer. *)
Theorem bad_base_fee_raises (d : FeeHistoryJson) (s : string) (e : exn) :
  In s (json_baseFeePerGas d) -> int_16 s = Raise e ->
  predict_fees_script d = Raise ValueError /\ calculate_fees_json d = Raise ValueError.
Proof.
  intros Hin Hs.
  assert (E : mapM int_16 (json_baseFeePerGas d) = Raise ValueError).
  { eapply mapM_raises; [apply int_16_exn|exact Hin|exact Hs]. }
  unfold predict_fees_script, calculate_fees_json. rewrite E. split; reflexivity.
Qed.

(** X19, witness: a base fee that is not a number. *)
Lemma bad_base_fee_raises_witness :
  int_16 "1e9 wei" = Raise ValueError /\
  predict_fees_script {| json_baseFeePerGas := ["0x64"; "1e9 wei"]%string;
                         json_reward := []; json_gasUsedRatio := [] |} = Raise ValueError /\
  calculate_fees_json {| json_baseFeePerGas := ["0x64"; "1e9 wei"]%string;
                         json_reward := []; json_gasUsedRatio := [] |} = Raise ValueError.
Proof.
  assert (E : int_16 "1e9 wei" = Raise ValueError) by reflexivity.
  split; [exact E|].
  exact (bad_base_fee_raises
           {| json_baseFeePerGas := ["0x64"; "1e9 wei"]%string;
              json_reward := []; json_gasUsedRatio := [] |}
           "1e9 wei" ValueError ltac:(right; left; reflexivity) E).
Defined.

(** X20.  The four-tier script decodes every entry of every reward tuple: one
    that is not a hexadecimal number, at any position, makes it raise
    [ValueError] once the next base fee is read and printed. *)
Theorem four_tiers_decode_every_tip
  (d : FeeHistoryJson) (base_fees : list Z) (nb : Z) (t : list string) (s : string) (e : exn) :
  mapM int_16 (json_baseFeePerGas d) = Ret base_fees ->
  getitem base_fees (-1) = Ret nb -> 0 <= nb < 2 ^ 1000 ->
  In t (json_reward d) -> In s t -> int_16 s = Raise e ->
  predict_fees_script d = Raise ValueError.
Proof.
  intros Hb Enb Bnb Ht Hs He.
  unfold predict_fees_script. rewrite Hb. cbn [bind]. rewrite Enb. cbn [bind].
  destruct (fmt_gwei_ret nb Bnb) as (g & Eg). unfold fmt_gwei in Eg. rewrite Eg. cbn [bind].
  assert (E : mapM (mapM int_16) (json_reward d) = Raise ValueError).
  { assert (F : forall x e', mapM int_16 x = Raise e' -> e' = ValueError).
    { intros x e'. induction x as [ | a x IH ]; cbn [mapM]; [discriminate|].
      destruct (int_16 a) eqn:Ea; cbn [bind].
      - intros Q. inversion Q. subst. eapply int_16_exn. eassumption.
      - destruct (mapM int_16 x); cbn [bind]; [|discriminate].
        intros Q. inversion Q. subst. auto. }
    eapply (mapM_raises _ _ t ValueError); [exact F|exact Ht|].
    eapply mapM_raises; [apply int_16_exn|exact Hs|exact He]. }
  rewrite E. reflexivity.
Qed.

(** X20, witness: a fifth reward entry that is not a number. *)
Lemma four_tiers_decode_every_tip_witness :
  int_16 "n/a" = Raise ValueError /\
  predict_fees_script
    {| json_baseFeePerGas := ["0x64"; "0x64"]%string;
       json_reward := [["0x1"; "0x2"; "0x3"; "0x4"; "n/a"]%string];
       json_gasUsedRatio := [literal 5 10] |} = Raise ValueError.
Proof.
  assert (E : int_16 "n/a" = Raise ValueError) by reflexivity.
  split; [exact E|].
  apply (four_tiers_decode_every_tip
           {| json_baseFeePerGas := ["0x64"; "0x64"]%string;
              json_reward := [["0x1"; "0x2"; "0x3"; "0x4"; "n/a"]%string];
              json_gasUsedRatio := [literal 5 10] |}
           [100; 100] 100 ["0x1"; "0x2"; "0x3"; "0x4"; "n/a"]%string "n/a" ValueError).
  - reflexivity.
  - reflexivity.
  - split; [lia|reflexivity].
  - left. reflexivity.
  - do 4 right. left. reflexivity.
  - exact E.
Defined.

(** X21.  The one-estimate script looks at the entry of index 1 of each reward
    tuple and at nothing else in it: two answers that agree on these
    entries, on the base fees and on the ratios give the same result. *)
Theorem one_estimate_reads_second_entry_only (h h' : FeeHistoryJson) :
  json_baseFeePerGas h = json_baseFeePerGas h' ->
  json_gasUsedRatio h = json_gasUsedRatio h' ->
  Forall2 (fun r r' => getitem r 1 = getitem r' 1) (json_reward h) (json_reward h') ->
  calculate_fees_json h = calculate_fees_json h'.
Proof.
  intros Hb Hg Hr. unfold calculate_fees_json. rewrite Hb, Hg.
  rewrite (mapM_ext_Forall2 (fun r => x <- getitem r 1 ;; int_16 x)
             (json_reward h) (json_reward h')); [reflexivity|].
  eapply Forall2_impl; [|exact Hr]. cbv beta. intros r r' E. rewrite E. reflexivity.
Qed.

(** X21, witness: a first entry that is not a number, and a missing third one. *)
Lemma one_estimate_reads_second_entry_only_witness :
  calculate_fees_json {| json_baseFeePerGas := ["0x64"; "0x64"]%string;
                         json_reward := [["n/a"; "0x2"]%string];
                         json_gasUsedRatio := [literal 5 10] |}
  = calculate_fees_json {| json_baseFeePerGas := ["0x64"; "0x64"]%string;
                           json_reward := [["0x1"; "0x2"; "0x3"]%string];
                           json_gasUsedRatio := [literal 5 10] |}.
Proof.
  apply one_estimate_reads_second_entry_only.
  - reflexivity.
  - reflexivity.
  - constructor; [reflexivity|constructor].
Defined.

(** X22.  When the next block's base fee is 0, [main] raises
    [ZeroDivisionError] on the line that shows the cap as a multiple of
    the base fee: the recommendation is never printed. *)
Theorem main_zero_base_fee (h : FeeHistoryJson) (e : Estimate) :
  calculate_fees_json h = Ret e ->
  base_fee_next e = 0 ->
  0 <= priority_fee_suggested e < 2 ^ 1000 ->
  0 <= max_fee_per_gas e < 2 ^ 1000 ->
  main (Some h) = Raise ZeroDivisionError.
Proof.
  intros E Z Bp Bm. unfold main. rewrite E. cbn [bind]. rewrite Z.
  destruct (fmt_gwei_ret 0 ltac:(split; [lia|reflexivity])) as (a & Ea).
  unfold fmt_gwei in Ea. rewrite Ea. cbn [bind].
  destruct (fmt_gwei_ret _ Bp) as (b & Eb). unfold fmt_gwei in Eb. rewrite Eb. cbn [bind].
  destruct (fmt_gwei_ret _ Bm) as (c & Ec). unfold fmt_gwei in Ec. rewrite Ec. cbn [bind].
  reflexivity.
Qed.

(** X22, witness: one block of a chain without base fee. *)
Lemma main_zero_base_fee_witness :
  calculate_fees_json sample_no_base_fee = Ret no_base_fee_estimate /\
  main (Some sample_no_base_fee) = Raise ZeroDivisionError.
Proof.
  assert (E : calculate_fees_json sample_no_base_fee = Ret no_base_fee_estimate)
    by (vm_compute; reflexivity).
  split; [exact E|].
  apply (main_zero_base_fee sample_no_base_fee no_base_fee_estimate E).
  - reflexivity.
  - split; [simpl; lia|reflexivity].
  - split; [simpl; lia|reflexivity].
Defined.

End JsonScripts.

Section Strings.

Local Open Scope string_scope.

Lemma str_append_nil_r (s : string) : s ++ "" = s.
Proof. induction s as [ | c s IH ]; [reflexivity|]. cbn. rewrite IH. reflexivity. Qed.

Lemma str_append_assoc (a b c : string) : (a ++ b) ++ c = a ++ (b ++ c).
Proof. induction a as [ | x a IH ]; [reflexivity|]. cbn. rewrite IH. reflexivity. Qed.

Lemma append_nonempty_l (a b : string) : a <> "" -> a ++ b <> "".
Proof. destruct a; [congruence|discriminate]. Qed.

Lemma append_nonempty_r (a b : string) : b <> "" -> a ++ b <> "".
Proof. destruct a; [auto|discriminate]. Qed.

Lemma lstrip_pad (chars : ascii -> bool) (pad s : string) :
  all_chars chars pad = true -> lstrip chars (pad ++ s) = lstrip chars s.
Proof.
  induction pad as [ | c pad IH ]; intros H; [reflexivity|].
  cbn [all_chars] in H. apply andb_prop in H. destruct H as [Hc H].
  cbn. rewrite Hc. auto.
Qed.

Lemma lstrip_keep (chars : ascii -> bool) (s t : string) :
  s <> "" -> lstrip chars s = s -> lstrip chars (s ++ t) = s ++ t.
Proof.
  intros Hne H. destruct s as [ | c s ]; [congruence|].
  cbn in *. destruct (chars c) eqn:E; [|reflexivity].
  exfalso. apply (f_equal String.length) in H. cbn in H.
  assert (L : forall u, (String.length (lstrip chars u) <= String.length u)%nat).
  { induction u as [ | x u IH ]; cbn; [lia|]. destruct (chars x); cbn; lia. }
  specialize (L s). lia.
Qed.

Lemma rstrip_pad (chars : ascii -> bool) (s pad : string) :
  all_chars chars pad = true -> rstrip chars (s ++ pad) = rstrip chars s.
Proof.
  intros H.
  assert (P : rstrip chars pad = "").
  { induction pad as [ | c pad IH ]; [reflexivity|].
    cbn [all_chars] in H. apply andb_prop in H. destruct H as [Hc H].
    cbn. rewrite (IH H), Hc. reflexivity. }
  induction s as [ | c s IH ]; [exact P|].
  cbn. rewrite IH. reflexivity.
Qed.

Lemma rstrip_nonempty (chars : ascii -> bool) (s : string) :
  s <> "" -> rstrip chars s = s -> forall t, rstrip chars (t ++ s) = t ++ s.
Proof.
  intros Hne H t. induction t as [ | c t IH ]; [exact H|].
  cbn. rewrite IH. destruct (t ++ s) eqn:E; [|reflexivity].
  exfalso. apply (append_nonempty_r t s Hne). exact E.
Qed.

Lemma split_once_none_app (sep : ascii) (a b : string) :
  split_once sep a = None -> split_once sep b = None -> split_once sep (a ++ b) = None.
Proof.
  intros Ha Hb. induction a as [ | c a IH ]; [exact Hb|].
  cbn in *. destruct (Ascii.eqb c sep); [discriminate|].
  destruct (split_once sep a) as [[x y] | ]; [discriminate|]. rewrite IH; reflexivity.
Qed.

Lemma split_once_first (sep : ascii) (a b : string) :
  split_once sep a = None -> split_once sep (a ++ String sep b) = Some (a, b).
Proof.
  intros Ha. induction a as [ | c a IH ].
  - cbn. rewrite Ascii.eqb_refl. reflexivity.
  - cbn in *. destruct (Ascii.eqb c sep); [discriminate|].
    destruct (split_once sep a) as [[x y] | ]; [discriminate|]. rewrite IH; reflexivity.
Qed.

Lemma split_once_spaces (pad : string) :
  all_chars str_space pad = true -> split_once "=" pad = None.
Proof.
  induction pad as [ | c pad IH ]; intros H; [reflexivity|].
  cbn [all_chars] in H. apply andb_prop in H. destruct H as [Hc H].
  cbn. destruct (Ascii.eqb_spec c "=") as [-> | N]; [discriminate|].
  rewrite (IH H). reflexivity.
Qed.

Lemma strip_unpadded (chars : ascii -> bool) (s : string) :
  unpadded chars s -> strip chars s = s.
Proof. intros (_ & L & R). unfold strip. rewrite L. exact R. Qed.

(** A value between two quotes [q], stripped of [q]. *)
Lemma strip_quoted (q : ascii) (v : string) :
  unpadded (Ascii.eqb q) v ->
  strip (Ascii.eqb q) (String q (v ++ String q "")) = v.
Proof.
  intros (Hne & L & R). unfold strip. cbn [lstrip]. rewrite Ascii.eqb_refl.
  rewrite (lstrip_keep _ v _ Hne L).
  rewrite rstrip_pad; [exact R|]. cbn. rewrite Ascii.eqb_refl. reflexivity.
Qed.

(** A value between two quotes [q], stripped of other characters. *)
Lemma strip_other (chars : ascii -> bool) (q : ascii) (v : string) :
  chars q = false ->
  strip chars (String q (v ++ String q "")) = String q (v ++ String q "").
Proof.
  intros H. unfold strip. cbn [lstrip]. rewrite H.
  change (String q (v ++ String q "")) with (String q v ++ String q "").
  apply rstrip_nonempty; [discriminate|]. cbn. rewrite H. reflexivity.
Qed.

End Strings.

Section Dotenv.

Import OptimizedConfig.
Local Open Scope string_scope.

Lemma written_value (q : option ascii) (v : string) :
  (q = None \/ q = Some single_quote \/ q = Some double_quote) ->
  unpadded str_space v ->
  unpadded (Ascii.eqb single_quote) v -> unpadded (Ascii.eqb double_quote) v ->
  unpadded str_space (written q v) /\
  strip (Ascii.eqb double_quote) (strip (Ascii.eqb single_quote) (written q v)) = v.
Proof.
  intros Hq Hw Hs Hd. destruct Hq as [-> | [-> | ->]]; cbn [written].
  - split; [assumption|].
    rewrite (strip_unpadded _ v Hs), (strip_unpadded _ v Hd). reflexivity.
  - split.
    + split; [discriminate|]. split; [reflexivity|].
      change (String single_quote (v ++ String single_quote ""))
        with (String single_quote v ++ String single_quote "").
      apply rstrip_nonempty; [discriminate|reflexivity].
    + rewrite strip_quoted by assumption. apply strip_unpadded. assumption.
  - split.
    + split; [discriminate|]. split; [reflexivity|].
      change (String double_quote (v ++ String double_quote ""))
        with (String double_quote v ++ String double_quote "").
      apply rstrip_nonempty; [discriminate|reflexivity].
    + rewrite strip_other by reflexivity. apply strip_quoted. assumption.
Qed.

(** X23.  An assignment is read back as it was written: spaces around the
    key, the equals sign and the value are dropped, and so is one pair of
    quotes around the value; the value may hold equals signs. *)
Theorem dotenv_reads_assignment
  (env : dict) (pad1 pad2 pad3 pad4 key value : string) (q : option ascii) :
  all_chars str_space pad1 = true -> all_chars str_space pad2 = true ->
  all_chars str_space pad3 = true -> all_chars str_space pad4 = true ->
  (q = None \/ q = Some single_quote \/ q = Some double_quote) ->
  unpadded str_space key -> split_once "=" key = None -> startswith "#" key = false ->
  unpadded str_space value ->
  unpadded (Ascii.eqb single_quote) value -> unpadded (Ascii.eqb double_quote) value ->
  read_line env (pad1 ++ key ++ pad2 ++ "=" ++ pad3 ++ written q value ++ pad4)
  = setitem env key value /\
  get (read_line env (pad1 ++ key ++ pad2 ++ "=" ++ pad3 ++ written q value ++ pad4)) key
  = Some value.
Proof.
  intros P1 P2 P3 P4 Hq (Kne & Kl & Kr) Keq Khash Hw Hs Hd.
  destruct (written_value q value Hq Hw Hs Hd) as ((Wne & Wl & Wr) & Wv).
  set (w := written q value) in *.
  assert (E : read_line env (pad1 ++ key ++ pad2 ++ "=" ++ pad3 ++ w ++ pad4)
              = setitem env key value).
  { unfold read_line.
    assert (S : strip str_space (pad1 ++ key ++ pad2 ++ "=" ++ pad3 ++ w ++ pad4)
                = (key ++ pad2) ++ String "=" (pad3 ++ w)).
    { unfold strip. rewrite lstrip_pad by assumption.
      rewrite (lstrip_keep _ key _ Kne Kl).
      replace (key ++ pad2 ++ "=" ++ pad3 ++ w ++ pad4)
        with ((key ++ pad2 ++ "=" ++ pad3 ++ w) ++ pad4)
        by (rewrite !str_append_assoc; reflexivity).
      rewrite rstrip_pad by assumption.
      replace (key ++ pad2 ++ "=" ++ pad3 ++ w)
        with ((key ++ pad2 ++ "=" ++ pad3) ++ w)
        by (rewrite !str_append_assoc; reflexivity).
      rewrite (rstrip_nonempty _ w Wne Wr). rewrite !str_append_assoc. reflexivity. }
    rewrite S.
    destruct ((key ++ pad2) ++ String "=" (pad3 ++ w)) as [ | c0 rest ] eqn:F.
    { destruct key; [congruence|discriminate]. }
    assert (H0 : startswith "#" (String c0 rest) = false).
    { destruct key as [ | k0 key' ]; [congruence|]. cbn in F. injection F as F1 F2.
      rewrite <- F1. exact Khash. }
    rewrite H0. cbn [orb]. rewrite <- F.
    rewrite split_once_first
      by (apply split_once_none_app; [assumption|apply split_once_spaces; assumption]).
    f_equal.
    - unfold strip. rewrite (lstrip_keep _ key _ Kne Kl). rewrite rstrip_pad by assumption.
      exact Kr.
    - assert (V : strip str_space (pad3 ++ w) = w).
      { unfold strip. rewrite lstrip_pad by assumption. rewrite Wl. exact Wr. }
      cbv zeta. rewrite V. exact Wv. }
  split; [exact E|]. rewrite E. cbn [setitem get]. rewrite String.eqb_refl. reflexivity.
Qed.

(** X23, witness: a quoted URL with a query string. *)
Lemma dotenv_reads_assignment_witness :
  get (read_line [] ("SEPOLIA_RPC_URL" ++ " " ++ "=" ++ " "
                     ++ written (Some double_quote) "https://rpc.example/v1?key=abc"
                     ++ String "010" ""))
      "SEPOLIA_RPC_URL"
  = Some "https://rpc.example/v1?key=abc".
Proof.
  apply (proj2 (dotenv_reads_assignment [] "" " " " " (String "010" "")
                  "SEPOLIA_RPC_URL" "https://rpc.example/v1?key=abc" (Some double_quote)
                  eq_refl eq_refl eq_refl eq_refl
                  ltac:(right; right; reflexivity)
                  ltac:(split; [discriminate|split; reflexivity])
                  eq_refl eq_refl
                  ltac:(split; [discriminate|split; reflexivity])
                  ltac:(split; [discriminate|split; reflexivity])
                  ltac:(split; [discriminate|split; reflexivity]))).
Defined.

Lemma env_vars_app (before after : list string) :
  env_vars (before ++ after)%list = fold_left read_line after (env_vars before).
Proof. unfold env_vars. apply fold_left_app. Qed.

(** X24.  When a key is assigned more than once the last assignment wins:
    what the lines before it did is forgotten, and the lines after it
    that leave the key alone do not matter. *)
Theorem dotenv_last_assignment_wins
  (before after : list string) (line key value : string) :
  (forall env, read_line env line = setitem env key value) ->
  Forall (fun l => forall env, get (read_line env l) key = get env key) after ->
  get (env_vars (before ++ line :: after)%list) key = Some value.
Proof.
  intros Hl Ha. rewrite env_vars_app. cbn [fold_left]. rewrite Hl.
  generalize (env_vars before). intros env0.
  assert (G : forall env, get (fold_left read_line after env) key = get env key).
  { induction Ha as [ | l after Hl' _ IH ]; intros env; [reflexivity|].
    cbn [fold_left]. rewrite IH. apply Hl'. }
  rewrite G. cbn [setitem get]. rewrite String.eqb_refl. reflexivity.
Qed.

(** X24, witness: a key assigned twice, then a comment and another key. *)
Lemma dotenv_last_assignment_wins_witness :
  get (env_vars ["A=1"; "A=2"; "# A=3"; "B=4"]) "A" = Some "2".
Proof.
  apply (dotenv_last_assignment_wins ["A=1"] ["# A=3"; "B=4"] "A=2" "A" "2").
  - intros env. reflexivity.
  - repeat constructor.
Defined.

(** X25.  The endpoint: a non-empty variable of the environment is used as it
    is and the file is not consulted; the one-estimate script never goes
    on with an empty endpoint, and exits when the variable is unset or
    empty and the file cannot be read; the four-tier script raises
    [ValueError] exactly when the variable is unset or empty. *)
Theorem endpoint_resolution (environ : option string) (dotenv : option (list string)) :
  (falsy environ = false -> OptimizedConfig.RPC_URL environ dotenv = environ) /\
  (forall url, OptimizedConfig.RPC_URL environ dotenv = Some url -> url <> "") /\
  (falsy environ = true -> OptimizedConfig.RPC_URL environ None = None) /\
  (falsy environ = true -> PredictFeesConfig.RPC_URL environ = Raise ValueError) /\
  (falsy environ = false ->
   exists url, environ = Some url /\ PredictFeesConfig.RPC_URL environ = Ret url).
Proof.
  unfold OptimizedConfig.RPC_URL. repeat split.
  - intros H. rewrite H. rewrite H. reflexivity.
  - intros url H. destruct (falsy environ) eqn:F.
    + destruct dotenv as [lines | ].
      * destruct (get (env_vars lines) "SEPOLIA_RPC_URL") as [[ | c s] | ];
          cbn in H; inversion H; discriminate.
      * rewrite F in H. discriminate.
    + rewrite F in H. subst environ. destruct url; [discriminate|discriminate].
  - intros H. rewrite H. rewrite H. reflexivity.
  - intros H. destruct environ as [[ | c s] | ]; try reflexivity; discriminate.
  - intros H. destruct environ as [[ | c s] | ]; try discriminate. eauto.
Qed.

(** X25, witness: a local endpoint in the environment; nothing at all. *)
Lemma endpoint_resolution_witness :
  OptimizedConfig.RPC_URL (Some "http://localhost:8545") None = Some "http://localhost:8545" /\
  OptimizedConfig.RPC_URL None None = None /\
  PredictFeesConfig.RPC_URL None = Raise ValueError.
Proof.
  split; [|split].
  - exact (proj1 (endpoint_resolution (Some "http://localhost:8545") None) eq_refl).
  - exact (proj1 (proj2 (proj2 (endpoint_resolution None None))) eq_refl).
  - exact (proj1 (proj2 (proj2 (proj2 (endpoint_resolution None None)))) eq_refl).
Defined.

End Dotenv.

Section Quantity.

Lemma hex_digit_nonzero (d : Z) : 1 <= d < 16 -> Ascii.eqb (hex_digit d) "0" = false.
Proof.
  intros H.
  assert (E : d = 1 \/ d = 2 \/ d = 3 \/ d = 4 \/ d = 5 \/ d = 6 \/ d = 7 \/
              d = 8 \/ d = 9 \/ d = 10 \/ d = 11 \/ d = 12 \/ d = 13 \/ d = 14 \/ d = 15) by lia.
  repeat (destruct E as [-> | E]; [reflexivity|]). subst d. reflexivity.
Qed.

(** The digits [hex] writes: hexadecimal digits only, and no leading
    zero for a positive number. *)
Lemma hex_digits_form (fuel : nat) :
  forall (n : Z) (tail : string),
    0 <= n < 16 ^ Z.of_nat (S fuel) ->
    all_hex_digits (hex_digits (S fuel) n tail) = all_hex_digits tail /\
    (1 <= n -> startswith "0" (hex_digits (S fuel) n tail) = false).
Proof.
  induction fuel as [ | fuel IH ]; intros n tail Hn.
  - change (16 ^ Z.of_nat 1) with 16 in Hn.
    assert (E : hex_digits 1 n tail = String (hex_digit n) tail).
    { cbn [hex_digits]. rewrite Z.mod_small by lia. destruct (_ =? 0); reflexivity. }
    rewrite E. cbn [all_hex_digits startswith].
    rewrite digit_value_hex_digit by lia. split; [reflexivity|].
    intros H1. apply hex_digit_nonzero. lia.
  - assert (M : 0 <= n mod 16 < 16) by (apply Z.mod_pos_bound; lia).
    assert (D : n = 16 * (n / 16) + n mod 16) by (apply Z.div_mod; lia).
    remember (S fuel) as f eqn:Ef.
    cbn [hex_digits]. destruct (Z.eqb_spec (n / 16) 0) as [Z | NZ].
    + cbn [all_hex_digits startswith].
      rewrite digit_value_hex_digit by lia. split; [reflexivity|].
      intros H1. apply hex_digit_nonzero. lia.
    + assert (Hq : 0 <= n / 16 < 16 ^ Z.of_nat f).
      { split; [apply Z.div_pos; lia|]. apply Z.div_lt_upper_bound; [lia|].
        replace (Z.of_nat (S f)) with (Z.of_nat f + 1) in Hn by lia.
        rewrite Z.pow_add_r in Hn by lia. lia. }
      subst f.
      destruct (IH (n / 16) (String (hex_digit (n mod 16)) tail) Hq) as (A & B).
      split.
      * rewrite A. cbn [all_hex_digits]. rewrite digit_value_hex_digit by lia. reflexivity.
      * intros _. apply B. lia.
Qed.

(** X26.  [hex] writes a quantity as the RPC wants it: [0x], then at least
    one hexadecimal digit, without a leading zero unless the number is
    zero; its digits have the number as value. *)
Theorem hex_is_quantity (n : Z) :
  0 <= n ->
  exists ds,
    hex n = String "0" (String "x" ds) /\
    ds <> EmptyString /\ all_hex_digits ds = true /\
    (1 <= n -> startswith "0" ds = false) /\
    digits_value ds 0 = n.
Proof.
  intros Hn. unfold hex.
  replace (n <? 0) with false by (symmetry; apply Z.ltb_ge; lia).
  replace (Z.abs n) with n by lia.
  pose proof (fuel_enough n Hn) as F.
  set (f := Z.to_nat (Z.log2 n)) in *.
  destruct (hex_digits_form f n EmptyString (conj Hn F)) as (A & B).
  destruct (scan_hex_digits f n EmptyString 0 0 (conj Hn F))
    as (j & c & rest & E & _ & Sc).
  exists (hex_digits (S f) n EmptyString).
  split; [reflexivity|]. split; [rewrite E; discriminate|]. split; [exact A|].
  split; [exact B|].
  rewrite (scan_all_hex_digits _ 0 0 A) in Sc.
  change (scan_digits EmptyString false (0 + S j) (0 * 16 ^ Z.of_nat (S j) + n))
    with (Some (0 * 16 ^ Z.of_nat (S j) + n, S j, EmptyString)) in Sc.
  rewrite Z.mul_0_l, Z.add_0_l in Sc. congruence.
Qed.

(** X26, witness: the block count of the request. *)
Lemma hex_is_quantity_witness :
  exists ds, hex 10 = String "0" (String "x" ds) /\ digits_value ds 0 = 10.
Proof.
  destruct (hex_is_quantity 10 ltac:(lia)) as (ds & E & _ & _ & _ & V).
  exists ds. split; assumption.
Defined.

End Quantity.

Section Division.

Lemma shr_1_m (mrs : shr_record) : 0 <= shr_m mrs -> shr_m (shr_1 mrs) = shr_m mrs / 2.
Proof.
  destruct mrs as [m r s]. cbn [shr_m]. intros H.
  rewrite shr_1_spec by assumption. reflexivity.
Qed.

Lemma shr_iter_m (k : nat) (mrs : shr_record) :
  0 <= shr_m mrs -> shr_m (Nat.iter k shr_1 mrs) = shr_m mrs / 2 ^ Z.of_nat k.
Proof.
  intros H. induction k as [ | k IH ].
  - cbn [Nat.iter]. change (2 ^ Z.of_nat 0) with 1. rewrite Z.div_1_r. reflexivity.
  - change (Nat.iter (S k) shr_1 mrs) with (shr_1 (Nat.iter k shr_1 mrs)).
    rewrite shr_1_m by (rewrite IH; apply Z.div_pos; lia).
    rewrite IH. rewrite Z.div_div by lia.
    replace (Z.of_nat (S k)) with (Z.of_nat k + 1) by lia.
    rewrite Z.pow_add_r by lia. reflexivity.
Qed.

Lemma Zdigits2_le (x k : Z) : 0 <= x < 2 ^ k -> 0 <= k -> Zdigits2 x <= k.
Proof.
  intros Hx Hk. destruct x as [ | p | p ]; [cbn; lia| |lia].
  rewrite Zdigits2_log2. assert (Z.log2 (Z.pos p) < k) by (apply Z.log2_lt_pow2; lia). lia.
Qed.

Lemma Zdigits2_bound (x : Z) : 0 <= x -> 0 <= Zdigits2 x /\ x < 2 ^ Zdigits2 x.
Proof.
  intros Hx. destruct x as [ | p | p ]; [cbn; lia| |lia].
  rewrite Zdigits2_log2. pose proof (Z.log2_nonneg (Z.pos p)).
  pose proof (log2_bounds (Z.pos p) ltac:(lia)). lia.
Qed.

(** One shift to the exponent of the format: the exponent reached, and
    a bound on the mantissa left. *)
Lemma shr_fexp_bounds (m e : Z) (l : location) (b : Z) :
  0 <= m -> Zdigits2 m + e <= b -> e <= b - 53 -> -1021 <= b ->
  let '(mrs, e') := shr_fexp prec emax m e l in
  0 <= shr_m mrs /\ e' <= b - 53 /\ Zdigits2 (shr_m mrs) + e' <= b /\
  (shr_m mrs + 1 < 2 ^ (b - e') \/ Zdigits2 (shr_m mrs) + e' <= b).
Proof.
  intros Hm Hd He Hb. unfold shr_fexp, shr.
  pose proof (Zdigits2_bound m Hm) as [D0 D1].
  assert (Fe : fexp prec emax (Zdigits2 m + e) <= b - 53).
  { unfold fexp, SpecFloat.emin, prec, emax. lia. }
  assert (Fl : Zdigits2 m + e - 53 <= fexp prec emax (Zdigits2 m + e)).
  { unfold fexp, SpecFloat.emin, prec, emax. lia. }
  assert (M0 : shr_m (shr_record_of_loc m l) = m) by (destruct l as [ | [ | | ] ]; reflexivity).
  destruct (fexp prec emax (Zdigits2 m + e) - e) as [ | p | p ] eqn:En.
  - rewrite M0. repeat split; try lia.
  - rewrite iter_pos_nat. rewrite shr_iter_m by (rewrite M0; assumption). rewrite M0.
    rewrite positive_nat_Z.
    assert (Q : 0 <= m / 2 ^ Z.pos p) by (apply Z.div_pos; lia).
    split; [assumption|]. split; [lia|].
    assert (B : Zdigits2 (m / 2 ^ Z.pos p) + (e + Z.pos p) <= b).
    { destruct (Z.le_gt_cases (Z.pos p) (Zdigits2 m)) as [L | G].
      - assert (m / 2 ^ Z.pos p < 2 ^ (Zdigits2 m - Z.pos p)).
        { apply Z.div_lt_upper_bound; [lia|].
          rewrite <- Z.pow_add_r by lia. replace (Z.pos p + (Zdigits2 m - Z.pos p))
            with (Zdigits2 m) by lia. assumption. }
        pose proof (Zdigits2_le (m / 2 ^ Z.pos p) (Zdigits2 m - Z.pos p) ltac:(lia) ltac:(lia)).
        lia.
      - assert (m / 2 ^ Z.pos p = 0).
        { apply Z.div_small. split; [lia|].
          apply Z.lt_le_trans with (2 ^ Zdigits2 m); [assumption|].
          apply Z.pow_le_mono_r; lia. }
        rewrite H. cbn [Zdigits2]. lia. }
    split; [exact B|]. right. exact B.
  - rewrite M0. repeat split; try lia.
Qed.

Lemma round_nearest_even_bounds (m : Z) (l : location) :
  0 <= m -> m <= round_nearest_even m l <= m + 1.
Proof.
  intros H. destruct l as [ | [ | | ] ]; cbn [round_nearest_even]; try lia.
  destruct (Z.even m); lia.
Qed.

(** Rounding a mantissa whose value is below [2^1022] does not overflow. *)
Lemma binary_round_aux_finite (s : bool) (m e : Z) (l : location) :
  0 <= m -> Zdigits2 m + e <= 1022 -> e <= 969 ->
  match binary_round_aux prec emax s m e l with
  | S754_zero _ | S754_finite _ _ _ => True
  | _ => False
  end.
Proof.
  intros Hm Hd He. unfold binary_round_aux.
  pose proof (shr_fexp_bounds m e l 1022 Hm Hd ltac:(lia) ltac:(lia)) as B1.
  destruct (shr_fexp prec emax m e l) as [mrs' e'].
  destruct B1 as (N1 & E1 & D1 & _).
  set (m2 := round_nearest_even (shr_m mrs') (loc_of_shr_record mrs')).
  pose proof (round_nearest_even_bounds (shr_m mrs') (loc_of_shr_record mrs') N1) as R.
  fold m2 in R.
  assert (D2 : Zdigits2 m2 + e' <= 1023).
  { pose proof (Zdigits2_bound (shr_m mrs') N1) as [Q0 Q1].
    assert (m2 < 2 ^ (Zdigits2 (shr_m mrs') + 1)).
    { rewrite Z.pow_add_r by lia. lia. }
    pose proof (Zdigits2_le m2 (Zdigits2 (shr_m mrs') + 1) ltac:(lia) ltac:(lia)). lia. }
  pose proof (shr_fexp_bounds m2 e' loc_Exact 1023 ltac:(lia) D2 ltac:(lia) ltac:(lia)) as B2.
  destruct (shr_fexp prec emax m2 e' loc_Exact) as [mrs'' e''].
  destruct B2 as (N2 & E2 & _).
  destruct (shr_m mrs'') as [ | p | p ]; [exact I| |lia].
  replace (e'' <=? emax - prec) with true; [exact I|].
  symmetry. apply Z.leb_le. unfold emax, prec. lia.
Qed.

(** The quotient of two positive [int]s is a float when the dividend is
    below [2^1000]. *)
Lemma int_truediv_ret (a b : Z) :
  0 < a < 2 ^ 1000 -> 0 < b -> exists q, int_truediv a b = Ret q.
Proof.
  intros Ha Hb. unfold int_truediv.
  replace (b =? 0) with false by (symmetry; apply Z.eqb_neq; lia).
  destruct a as [ | pa | pa ]; try lia. destruct b as [ | pb | pb ]; try lia.
  cbn [Z.ltb Z.compare Z.abs Z.to_pos].
  unfold fdiv, SFdiv. cbn [xorb].
  unfold SFdiv_core_binary.
  set (d1 := Zdigits2 (Z.pos pa)). set (d2 := Zdigits2 (Z.pos pb)).
  set (e' := Z.min (fexp prec emax (d1 + 0 - (d2 + 0))) (0 - 0)).
  assert (E0 : e' <= 0) by (unfold e'; lia).
  assert (D1 : 0 <= d1 <= 1000).
  { unfold d1. split; [apply Zdigits2_bound; lia|]. apply Zdigits2_le; lia. }
  set (m' := match 0 - 0 - e' with
             | 0 => Z.pos pa
             | Z.pos _ => Z.shiftl (Z.pos pa) (0 - 0 - e')
             | Z.neg _ => 0
             end).
  assert (M : m' = Z.pos pa * 2 ^ (- e')).
  { unfold m'. replace (0 - 0 - e') with (- e') by lia.
    destruct (- e') as [ | p | p ] eqn:En; [rewrite Z.pow_0_r; lia| |lia].
    rewrite Z.shiftl_mul_pow2 by lia. reflexivity. }
  pose proof (Z.div_eucl_eq m' (Z.pos pb) ltac:(lia)) as Q.
  pose proof (Z.mod_pos_bound m' (Z.pos pb) ltac:(lia)) as Rb.
  unfold Z.modulo in Rb.
  destruct (Z.div_eucl m' (Z.pos pb)) as [q r].
  assert (P : 0 < 2 ^ (- e')) by (apply Z.pow_pos_nonneg; lia).
  assert (Nq : 0 <= q) by nia.
  assert (Uq : q < 2 ^ (d1 - e')).
  { pose proof (Zdigits2_bound (Z.pos pa) ltac:(lia)) as [_ U]. fold d1 in U.
    replace (d1 - e') with (d1 + - e') by lia. rewrite Z.pow_add_r by lia. nia. }
  pose proof (Zdigits2_le q (d1 - e') ltac:(lia) ltac:(lia)) as Dq.
  pose proof (binary_round_aux_finite false q e' (new_location (Z.pos pb) r)
                Nq ltac:(lia) ltac:(lia)) as F.
  destruct (binary_round_aux prec emax false q e' (new_location (Z.pos pb) r));
    try contradiction; eauto.
Qed.

(** X27.  On an answer that decodes to a valid sample with fewer than [2^53]
    blocks, fees below [2^50] and a next base fee that is not 0, [main]
    computes the estimate of the decoded model and prints its
    recommendation: nothing raises. *)
Theorem main_prints_recommendation
  (h : FeeHistoryJson) (base_fees : list Z) (rewards : list (list Z)) (nb : Z) :
  mapM int_16 (json_baseFeePerGas h) = Ret base_fees ->
  mapM (mapM int_16) (json_reward h) = Ret rewards ->
  valid_sample 3 {| baseFeePerGas := base_fees; reward := rewards;
                    gasUsedRatio := json_gasUsedRatio h |} ->
  Z.of_nat (List.length rewards) < 2 ^ 53 ->
  Forall (fun x => x < 2 ^ 50) base_fees ->
  Forall (Forall (fun x => x < 2 ^ 50)) rewards ->
  getitem base_fees (-1) = Ret nb -> nb <> 0 ->
  exists e,
    main (Some h) = Ret (Some e) /\
    calculate_fees {| baseFeePerGas := base_fees; reward := rewards;
                      gasUsedRatio := json_gasUsedRatio h |} = Ret e.
Proof.
  intros Hb Hr V Hl Bb Br Enb Nnb.
  destruct (calculate_fees_total _ V Hl Bb Br) as (e & E & G & B1 & B2 & B3).
  cbn [baseFeePerGas] in G. rewrite Enb in G. inversion G as [G']. clear G.
  exists e. split; [|exact E].
  assert (J : calculate_fees_json h = Ret e).
  { rewrite <- E. unfold calculate_fees_json, calculate_fees. rewrite Hb.
    cbn [bind baseFeePerGas reward gasUsedRatio].
    rewrite (column_decoded _ _ 1 Hr). reflexivity. }
  unfold main. rewrite J. cbn [bind].
  assert (W : forall x k, 0 <= x < 2 ^ k -> 0 <= k <= 53 -> 0 <= x < 2 ^ 1000).
  { intros x k Hx Hk. split; [lia|]. apply Z.lt_le_trans with (2 ^ k); [lia|].
    apply Z.pow_le_mono_r; lia. }
  destruct (fmt_gwei_ret _ (W _ 50 B1 ltac:(lia))) as (a & Ea).
  unfold fmt_gwei in Ea. rewrite Ea. cbn [bind].
  destruct (fmt_gwei_ret _ (W _ 51 B2 ltac:(lia))) as (b & Eb).
  unfold fmt_gwei in Eb. rewrite Eb. cbn [bind].
  assert (B3' : 0 <= max_fee_per_gas e < 2 ^ 53) by lia.
  destruct (fmt_gwei_ret _ (W _ 53 B3' ltac:(lia))) as (c & Ec).
  unfold fmt_gwei in Ec. rewrite Ec. cbn [bind].
  destruct (int_truediv_ret (max_fee_per_gas e) (base_fee_next e)) as (q & Eq).
  { pose proof (W _ 53 B3' ltac:(lia)). lia. }
  { lia. }
  rewrite Eq. reflexivity.
Qed.

(** X27, witness: the ten rising blocks as the RPC answers them. *)
Lemma main_prints_recommendation_witness :
  mapM int_16 (json_baseFeePerGas sample_rising_3_json) = Ret (baseFeePerGas sample_rising_3) /\
  mapM (mapM int_16) (json_reward sample_rising_3_json) = Ret (reward sample_rising_3) /\
  valid_sample 3 sample_rising_3 /\
  exists e, main (Some sample_rising_3_json) = Ret (Some e).
Proof.
  assert (Hb : mapM int_16 (json_baseFeePerGas sample_rising_3_json)
               = Ret (baseFeePerGas sample_rising_3)) by (vm_compute; reflexivity).
  assert (Hr : mapM (mapM int_16) (json_reward sample_rising_3_json)
               = Ret (reward sample_rising_3)) by (vm_compute; reflexivity).
  split; [exact Hb|]. split; [exact Hr|]. split; [exact sample_rising_3_valid|].
  destruct (main_prints_recommendation sample_rising_3_json _ _ 200 Hb Hr
              sample_rising_3_valid) as (e & E & _).
  - vm_compute. reflexivity.
  - repeat constructor.
  - repeat constructor.
  - reflexivity.
  - discriminate.
  - exists e. exact E.
Defined.

End Division.
